(** * AnalysisEngine: the AST rule-matching engine of the code-review server

    A shallow embedding of [server/services/AnalysisEngine.js] and the
    properties its specification states about it, with the analysis record
    of [server/models/Analysis.js] and the background run and cancel route
    of the analysis routes that drive the engine.

    The engine consumes the trees built by its parser front-ends (Esprima,
    typescript-eslint) through duck typing only: it reads a handful of
    properties and walks every enumerable property that holds an object.
    The embedding therefore keeps the tree untyped, as a JSON-like value. *)

From Stdlib Require Import String Ascii List ZArith Lia Bool DecimalString.
Import ListNotations.
Open Scope string_scope.
Open Scope Z_scope.

(** ** JavaScript values *)

(** Objects are property lists in enumeration order with pairwise distinct
    keys; numbers are the integers the engine meets (line numbers, lengths,
    counters, clock readings), which print in plain decimal; strings are
    byte strings.  The front-ends build trees: no object occurs at two
    places, so an object is identified by the place it hangs at. *)
Unset Elimination Schemes.
Inductive value : Type :=
| VUndefined
| VNull
| VBool (b : bool)
| VNum (n : Z)
| VStr (s : string)
| VArr (elems : list value)
| VObj (props : list (string * value)).
Set Elimination Schemes.

(** A thrown [Error] object; only [error.message] is ever read. *)
Record Error : Type := mkError { message : string }.

Inductive result (A : Type) : Type :=
| Ok (a : A)
| Throw (e : Error).
Arguments Ok {A} a.
Arguments Throw {A} e.

Definition bind {A B : Type} (r : result A) (k : A -> result B) : result B :=
  match r with
  | Ok a => k a
  | Throw e => Throw e
  end.

Declare Scope js_scope.
Delimit Scope js_scope with js.
Notation "x <- r ;; k" := (bind r (fun x => k))
  (at level 61, r at next level, right associativity) : js_scope.
Open Scope js_scope.

(** [typeof v === 'object' && v !== null] *)
Definition is_object (v : value) : bool :=
  match v with
  | VArr _ | VObj _ => true
  | _ => false
  end.

(** ToBoolean. *)
Definition truthy (v : value) : bool :=
  match v with
  | VUndefined | VNull => false
  | VBool b => b
  | VNum n => negb (n =? 0)
  | VStr s => negb (s =? "")%string
  | VArr _ | VObj _ => true
  end.

Definition nullish (v : value) : bool :=
  match v with
  | VUndefined | VNull => true
  | _ => false
  end.

Fixpoint lookup (key : string) (props : list (string * value)) : value :=
  match props with
  | [] => VUndefined
  | (k, v) :: rest => if (k =? key)%string then v else lookup key rest
  end.

Definition cannot_read (base key : string) : Error :=
  mkError ("Cannot read properties of " ++ base ++ " (reading '" ++ key ++ "')").

(** [v.key] on a value that is neither [undefined] nor [null], for the fixed
    property names the engine reads: primitives and arrays have none of
    them except [length]. *)
Definition prop (v : value) (key : string) : value :=
  match v with
  | VObj props => lookup key props
  | VArr elems =>
      if (key =? "length")%string then VNum (Z.of_nat (List.length elems))
      else VUndefined
  | VStr s =>
      if (key =? "length")%string then VNum (Z.of_nat (String.length s))
      else VUndefined
  | _ => VUndefined
  end.

(** [v.key]: reading a property of [undefined] or [null] throws a
    TypeError. *)
Definition get (v : value) (key : string) : result value :=
  match v with
  | VUndefined => Throw (cannot_read "undefined" key)
  | VNull => Throw (cannot_read "null" key)
  | _ => Ok (prop v key)
  end.

(** [v === 'lit'] *)
Definition is_str (v : value) (lit : string) : bool :=
  match v with
  | VStr s => (s =? lit)%string
  | _ => false
  end.

Definition string_of_Z (n : Z) : string := NilZero.string_of_int (Z.to_int n).

Definition index_key (i : nat) : string := string_of_Z (Z.of_nat i).

Fixpoint join (sep : string) (parts : list string) : string :=
  match parts with
  | [] => ""
  | [p] => p
  | p :: rest => p ++ sep ++ join sep rest
  end.

(** ToString, as a template literal applies it to an interpolated value. *)
Fixpoint to_string (v : value) : string :=
  match v with
  | VUndefined => "undefined"
  | VNull => "null"
  | VBool true => "true"
  | VBool false => "false"
  | VNum n => string_of_Z n
  | VStr s => s
  | VArr elems =>
      join "," (map (fun e => if nullish e then "" else to_string e) elems)
  | VObj _ => "[object Object]"
  end.

(** [content.split('\n')] *)
Fixpoint split_lines (s : string) : list string :=
  match s with
  | EmptyString => [""]
  | String c rest =>
      if Ascii.eqb c "010"%char then "" :: split_lines rest
      else match split_lines rest with
           | [] => [String c ""]
           | l :: ls => String c l :: ls
           end
  end.

Fixpoint count_newlines (s : string) : nat :=
  match s with
  | EmptyString => 0%nat
  | String c rest =>
      ((if Ascii.eqb c "010"%char then 1 else 0) + count_newlines rest)%nat
  end.

(** ** The tree walker *)

(** Where a node hangs in its parent: the property key and, when that
    property holds an array, the index in it. *)
Definition place : Type := option (string * option nat).

(** A node as a visitor callback sees it: the object, its [parent]
    back-reference (written by the walker just before the callback runs;
    [None] is [null]) and its identity, given by its place. *)
Record Visit : Type := mkVisit
  { node : value;
    parent : option value;
    hangs : place }.

Section Loops.
Context {St : Type}.

(** [for (const key in obj) body] over the properties of an object. *)
Fixpoint for_in (body : string -> value -> St -> result St)
    (props : list (string * value)) (s : St) : result St :=
  match props with
  | [] => Ok s
  | (key, v) :: rest => s' <- body key v s ;; for_in body rest s'
  end.

(** [for (const child of arr) body], with the running index. *)
Fixpoint for_of (body : nat -> value -> St -> result St)
    (i : nat) (arr : list value) (s : St) : result St :=
  match arr with
  | [] => Ok s
  | child :: rest => s' <- body i child s ;; for_of body (S i) rest s'
  end.

(** The callbacks of one traversal, run in order on the visited nodes. *)
Fixpoint run_callbacks (callback : Visit -> St -> result St)
    (vs : list Visit) (s : St) : result St :=
  match vs with
  | [] => Ok s
  | v :: rest => s' <- callback v s ;; run_callbacks callback rest s'
  end.

(** The body of the [for ... in] loop of [traverseAST]: what the walker
    does with property [key] of [node], holding [v]. *)
Definition traverse_property
    (traverse : value -> option value -> place -> St -> result St)
    (node : value) (key : string) (v : value) (s : St) : result St :=
  if (key =? "parent")%string then Ok s
  else match v with
       | VArr children =>
           for_of (fun i child s =>
                     if is_object child
                     then traverse child (Some node) (Some (key, Some i)) s
                     else Ok s)
                  0%nat children s
       | VObj _ =>
           if truthy (prop v "type")
           then traverse v (Some node) (Some (key, None)) s
           else Ok s
       | _ => Ok s
       end.

(** [traverseAST(node, callback, parent = null)].  The enumerable keys of
    an array are its indices. *)
Fixpoint traverseAST (callback : Visit -> St -> result St)
    (node : value) (parent : option value) (hangs : place) (s : St)
    {struct node} : result St :=
  match node with
  | VObj props =>
      s' <- callback (mkVisit node parent hangs) s ;;
      for_in (traverse_property (traverseAST callback) node) props s'
  | VArr elems =>
      s' <- callback (mkVisit node parent hangs) s ;;
      for_of (fun i => traverse_property (traverseAST callback) node (index_key i))
             0%nat elems s'
  | _ => Ok s
  end.
End Loops.

(** *** The nodes a traversal visits, in order *)

Fixpoint flat_mapi {A B : Type} (f : nat -> A -> list B) (i : nat) (l : list A)
    : list B :=
  match l with
  | [] => []
  | a :: rest => f i a ++ flat_mapi f (S i) rest
  end.

Definition property_visits
    (below : value -> option value -> place -> list Visit)
    (node : value) (key : string) (v : value) : list Visit :=
  if (key =? "parent")%string then []
  else match v with
       | VArr children =>
           flat_mapi (fun i child =>
                        if is_object child
                        then below child (Some node) (Some (key, Some i))
                        else [])
                     0%nat children
       | VObj _ =>
           if truthy (prop v "type")
           then below v (Some node) (Some (key, None))
           else []
       | _ => []
       end.

(** Pre-order list of the nodes reachable from [node] through child links:
    objects held by an array-valued property, and objects with a [type]
    held directly by a property. *)
Fixpoint visits (node : value) (parent : option value) (hangs : place)
    {struct node} : list Visit :=
  match node with
  | VObj props =>
      mkVisit node parent hangs ::
      flat_map (fun '(key, v) => property_visits visits node key v) props
  | VArr elems =>
      mkVisit node parent hangs ::
      flat_mapi (fun i => property_visits visits node (index_key i)) 0%nat elems
  | _ => []
  end.

(** The visits of a traversal started at the root of a tree. *)
Definition walk (ast : value) : list Visit := visits ast None None.

Definition nodes (ast : value) : list value := map node (walk ast).

(** ** Issues, rules and metrics *)

Module Rule.
(** [{ id, name, category, documentation?, enabled?, threshold? }] *)
Record t : Type := mk
  { id : string;
    name : string;
    category : string;
    documentation : option string;
    enabled : option bool;
    threshold : option Z }.
End Rule.

Module Location.
(** The [file] of an issue; [line] and [column] are read off the tree. *)
Record t : Type := mk
  { path : string;
    line : value;
    column : value }.
End Location.

Module Suggestion.
Record t : Type := mk
  { fix_text : string;
    confidence : Z }.
End Suggestion.

Module Issue.
Record t : Type := mk
  { id : string;
    type : string;
    severity : string;
    title : string;
    description : string;
    file : Location.t;
    rule : Rule.t;
    suggestion : option Suggestion.t;
    (** [metadata.cwe], when the issue has a [metadata] *)
    cwe : option (list string) }.
End Issue.

Module Metrics.
Record t : Type := mk
  { complexity : Z;
    lines : Z;
    functions : Z;
    classes : Z }.
End Metrics.

Module Rules.
Record t : Type := mk
  { complexity : Rule.t;
    security : Rule.t;
    performance : Rule.t;
    bugs : Rule.t;
    style : Rule.t }.
End Rules.

Module Language.
Record t : Type := mk
  { extensions : list string;
    parser : string;
    analyzer : string }.
End Language.

(** The fields of an [AnalysisEngine] instance. *)
Record AnalysisEngine : Type := mkEngine
  { supportedLanguages : list (string * Language.t);
    rules : Rules.t }.

(** [constructor()] *)
Definition new_AnalysisEngine : AnalysisEngine :=
  {| supportedLanguages :=
       [ ("javascript", Language.mk [".js"; ".jsx"; ".mjs"] "esprima" "javascript");
         ("typescript", Language.mk [".ts"; ".tsx"] "typescript" "typescript");
         ("python", Language.mk [".py"] "python" "python");
         ("java", Language.mk [".java"] "java" "java");
         ("go", Language.mk [".go"] "go" "go");
         ("rust", Language.mk [".rs"] "rust" "rust");
         ("cpp", Language.mk [".cpp"; ".cc"; ".cxx"; ".hpp"; ".h"] "cpp" "cpp") ];
     rules :=
       {| Rules.complexity :=
            Rule.mk "complexity" "Cyclomatic Complexity" "maintainability"
                    None (Some true) (Some 10);
          Rules.security :=
            Rule.mk "security" "Security Vulnerabilities" "security"
                    None (Some true) None;
          Rules.performance :=
            Rule.mk "performance" "Performance Issues" "performance"
                    None (Some true) None;
          Rules.bugs :=
            Rule.mk "bugs" "Potential Bugs" "bug" None (Some true) None;
          Rules.style :=
            Rule.mk "style" "Code Style" "style" None (Some false) None |} |}.

(** The [options] of [analyzeRepository]; [None] is an absent property. *)
Record Options : Type := mkOptions
  { excludePaths : option (list string);
    includePaths : option (list string) }.

(** What the engine takes from its host: the parser front-ends, the clock,
    Node's [path] and [fs] modules and the runtime's string conversions. *)
Record Host : Type := mkHost
  { (** [esprima.parseScript(content, {loc, range, tolerant, ...})] *)
    esprima_parseScript : string -> result value;
    (** [typescriptParse(content, {loc, range, ...})] *)
    typescriptParse : string -> result value;
    (** the value of the n-th call of [Date.now()] in a run *)
    Date_now : nat -> Z;
    (** whether a string, read as a number, exceeds an integer *)
    string_exceeds : string -> Z -> bool;
    (** [path.extname] *)
    path_extname : string -> string;
    (** [String.prototype.toLowerCase] *)
    toLowerCase : string -> string;
    (** [fs.readFile(filePath, 'utf-8')] *)
    fs_readFile : string -> result string;
    (** the listing [getSourceFiles(repositoryPath, options)] returns after
        its scan of the directory tree *)
    getSourceFiles : string -> Options -> result (list string) }.

(** [node.loc.start.line] and [node.loc.start.column] *)
Definition start_of (n : value) : result value :=
  loc <- get n "loc" ;; get loc "start".

Definition line_of (n : value) : result value :=
  start <- start_of n ;; get start "line".

Definition column_of (n : value) : result value :=
  start <- start_of n ;; get start "column".

Definition type_is (n : value) (lit : string) : bool :=
  is_str (prop n "type") lit.

Definition language_has_detail (language : string) : bool :=
  ((language =? "javascript") || (language =? "typescript"))%string.

(** [v > n] for a numeric literal [n]: the operand is converted to a number
    first: [undefined] is NaN, [null] is 0, and a string or an object is read
    through its string form. *)
Definition exceeds (string_gt : string -> Z -> bool) (v : value) (n : Z) : bool :=
  match v with
  | VNum m => n <? m
  | VBool true => n <? 1
  | VBool false | VNull => n <? 0
  | VUndefined => false
  | VStr _ | VArr _ | VObj _ => string_gt (to_string v) n
  end.

(** [threshold] may be missing from a rule: comparing with [undefined] is
    false. *)
Definition above (n : Z) (limit : option Z) : bool :=
  match limit with
  | Some t => t <? n
  | None => false
  end.

Definition show_limit (limit : option Z) : string :=
  match limit with
  | Some t => string_of_Z t
  | None => "undefined"
  end.

(** ** The engine *)

(** The index of a visited node in the [body] array of its parent, [-1]
    when it hangs elsewhere. *)
Definition index_in_body (v : Visit) : Z :=
  match hangs v with
  | Some (key, Some i) => if (key =? "body")%string then Z.of_nat i else -1
  | _ => -1
  end.

(** [body.indexOf(node)] for a visited node and the [body] of its parent.
    On an array the search is by identity, so the node is found exactly at
    the place it hangs at; on a string the argument is searched in its
    string form; anything else has no callable [indexOf]. *)
Definition indexOf_in_body (body : value) (v : Visit) : result Z :=
  match body with
  | VArr _ => Ok (index_in_body v)
  | VStr s =>
      Ok (match String.index 0 (to_string (node v)) s with
          | Some i => Z.of_nat i
          | None => -1
          end)
  | VUndefined => Throw (cannot_read "undefined" "indexOf")
  | VNull => Throw (cannot_read "null" "indexOf")
  | _ => Throw (mkError "parent.body.indexOf is not a function")
  end.

(** [body[i]] for an index [i >= 0] *)
Definition element (body : value) (i : Z) : value :=
  match body with
  | VArr elems => nth (Z.to_nat i) elems VUndefined
  | VStr s =>
      match String.get (Z.to_nat i) s with
      | Some c => VStr (String c "")
      | None => VUndefined
      end
  | _ => VUndefined
  end.

Definition length_of (body : value) : Z :=
  match body with
  | VArr elems => Z.of_nat (List.length elems)
  | VStr s => Z.of_nat (String.length s)
  | _ => 0
  end.

Definition is_loop (n : value) : bool :=
  type_is n "ForStatement" || type_is n "WhileStatement"
  || type_is n "DoWhileStatement".

Fixpoint fold_lefti {A B : Type} (f : nat -> A -> B -> A) (i : nat) (l : list B)
    (a : A) : A :=
  match l with
  | [] => a
  | b :: rest => fold_lefti f (S i) rest (f i a b)
  end.

(** The body of the [for ... in] loop of [findNestedLoops]. *)
Definition nested_in_property (below : value -> Z -> Z) (depth : Z)
    (key : string) (maxDepth : Z) (v : value) : Z :=
  if (key =? "parent")%string then maxDepth
  else match v with
       | VArr children =>
           fold_left (fun m child =>
                        if is_object child then Z.max m (below child depth)
                        else m)
                     children maxDepth
       | VObj _ =>
           if truthy (prop v "type") then Z.max maxDepth (below v depth)
           else maxDepth
       | _ => maxDepth
       end.

(** [findNestedLoops(node, depth = 0)] *)
Fixpoint findNestedLoops (node : value) (depth : Z) {struct node} : Z :=
  let depth' := if is_loop node then depth + 1 else depth in
  let maxDepth := if is_loop node then Z.max depth depth' else depth in
  match node with
  | VObj props =>
      fold_left (fun m '(key, v) =>
                   nested_in_property findNestedLoops depth' key m v)
                props maxDepth
  | VArr elems =>
      fold_lefti (fun i m v =>
                    nested_in_property findNestedLoops depth' (index_key i) m v)
                 0%nat elems maxDepth
  | _ => maxDepth
  end.

(** The callback of [calculateComplexity]. *)
Definition complexity_callback (v : Visit) (complexity : Z) : result Z :=
  let n := node v in
  if type_is n "IfStatement" || type_is n "ConditionalExpression"
     || type_is n "SwitchCase" || type_is n "ForStatement"
     || type_is n "ForInStatement" || type_is n "ForOfStatement"
     || type_is n "WhileStatement" || type_is n "DoWhileStatement"
     || type_is n "CatchClause"
  then Ok (complexity + 1)
  else if type_is n "LogicalExpression"
  then if is_str (prop n "operator") "&&" || is_str (prop n "operator") "||"
       then Ok (complexity + 1)
       else Ok complexity
  else Ok complexity.

(** [calculateComplexity(ast)] *)
Definition calculateComplexity (ast : value) : result Z :=
  traverseAST complexity_callback ast None None 1.

(** [countFunctions(ast)] *)
Definition countFunctions (ast : value) : result Z :=
  traverseAST
    (fun v count =>
       if type_is (node v) "FunctionDeclaration"
          || type_is (node v) "FunctionExpression"
          || type_is (node v) "ArrowFunctionExpression"
       then Ok (count + 1) else Ok count)
    ast None None 0.

(** [countClasses(ast)] *)
Definition countClasses (ast : value) : result Z :=
  traverseAST
    (fun v count =>
       if type_is (node v) "ClassDeclaration" then Ok (count + 1) else Ok count)
    ast None None 0.

(** [parsePython(content)] *)
Definition parsePython (content : string) : value :=
  VObj [ ("type", VStr "Module");
         ("body", VArr []);
         ("loc", VObj [ ("start", VObj [("line", VNum 1); ("column", VNum 0)]);
                        ("end", VObj [("line", VNum 1); ("column", VNum 0)]) ]) ].

(** The issues the analyzers push. *)
Definition eval_issue (filePath : string) (line column : value) : Issue.t :=
  {| Issue.id := "security-eval-" ++ filePath ++ "-" ++ to_string line;
     Issue.type := "security";
     Issue.severity := "critical";
     Issue.title := "Dangerous eval() usage";
     Issue.description := "Using eval() can lead to code injection vulnerabilities.";
     Issue.file := Location.mk filePath line column;
     Issue.rule := Rule.mk "no-eval" "No eval()" "security"
                     (Some "https://eslint.org/docs/rules/no-eval") None None;
     Issue.suggestion := None;
     Issue.cwe := Some ["CWE-95"] |}.

Definition innerHTML_issue (filePath : string) (line column : value) : Issue.t :=
  {| Issue.id := "security-innerHTML-" ++ filePath ++ "-" ++ to_string line;
     Issue.type := "security";
     Issue.severity := "high";
     Issue.title := "Potential XSS vulnerability";
     Issue.description := "Direct innerHTML manipulation can lead to XSS attacks.";
     Issue.file := Location.mk filePath line column;
     Issue.rule := Rule.mk "no-innerHTML" "No innerHTML" "security" None None None;
     Issue.suggestion := None;
     Issue.cwe := Some ["CWE-79"] |}.

Definition nested_loops_issue (filePath : string) (nestedLoops : Z)
    (line column : value) : Issue.t :=
  {| Issue.id := "performance-nested-loops-" ++ filePath ++ "-" ++ to_string line;
     Issue.type := "performance";
     Issue.severity := "medium";
     Issue.title := "Deeply nested loops (" ++ string_of_Z nestedLoops ++ " levels)";
     Issue.description := "Deeply nested loops can cause performance issues.";
     Issue.file := Location.mk filePath line column;
     Issue.rule := Rule.mk "max-nested-loops" "Maximum nested loops" "performance"
                     None None None;
     Issue.suggestion := None;
     Issue.cwe := None |}.

Definition large_array_issue (filePath : string) (len line column : value)
    : Issue.t :=
  {| Issue.id := "performance-large-array-" ++ filePath ++ "-" ++ to_string line;
     Issue.type := "performance";
     Issue.severity := "low";
     Issue.title := "Large array literal";
     Issue.description :=
       "Array with " ++ to_string len ++ " elements may impact performance.";
     Issue.file := Location.mk filePath line column;
     Issue.rule := Rule.mk "max-array-size" "Maximum array size" "performance"
                     None None None;
     Issue.suggestion := None;
     Issue.cwe := None |}.

Definition unreachable_issue (filePath : string) (returnLine line column : value)
    : Issue.t :=
  {| Issue.id := "bug-unreachable-" ++ filePath ++ "-" ++ to_string returnLine;
     Issue.type := "bug";
     Issue.severity := "medium";
     Issue.title := "Unreachable code after return";
     Issue.description := "Code after return statement will never be executed.";
     Issue.file := Location.mk filePath line column;
     Issue.rule := Rule.mk "no-unreachable" "No unreachable code" "bug"
                     None None None;
     Issue.suggestion := None;
     Issue.cwe := None |}.

Definition assignment_issue (filePath : string) (nodeLine line column : value)
    : Issue.t :=
  {| Issue.id := "bug-assignment-condition-" ++ filePath ++ "-" ++ to_string nodeLine;
     Issue.type := "bug";
     Issue.severity := "high";
     Issue.title := "Assignment in condition";
     Issue.description :=
       "Assignment in condition is likely a mistake. Did you mean to use == or ===?";
     Issue.file := Location.mk filePath line column;
     Issue.rule := Rule.mk "no-assignment-in-condition" "No assignment in condition"
                     "bug" None None None;
     Issue.suggestion := None;
     Issue.cwe := None |}.

Definition parse_error_issue (filePath : string) (error : Error) (now : Z)
    : Issue.t :=
  {| Issue.id := "parse-error-" ++ string_of_Z now;
     Issue.type := "bug";
     Issue.severity := "high";
     Issue.title := "Parse Error";
     Issue.description := "Failed to parse file: " ++ message error;
     Issue.file := Location.mk filePath (VNum 1) (VNum 1);
     Issue.rule := Rule.mk "parse-error" "Parse Error" "syntax" None None None;
     Issue.suggestion := None;
     Issue.cwe := None |}.

Definition complexity_issue (this : AnalysisEngine) (filePath : string)
    (complexity now : Z) : Issue.t :=
  let limit := Rule.threshold (Rules.complexity (rules this)) in
  {| Issue.id := "complexity-" ++ filePath ++ "-" ++ string_of_Z now;
     Issue.type := "complexity";
     Issue.severity := if 20 <? complexity then "high" else "medium";
     Issue.title := "High Cyclomatic Complexity (" ++ string_of_Z complexity ++ ")";
     Issue.description :=
       "This file has a cyclomatic complexity of " ++ string_of_Z complexity
       ++ ", which exceeds the recommended threshold of " ++ show_limit limit ++ ".";
     Issue.file := Location.mk filePath (VNum 1) (VNum 1);
     Issue.rule := Rules.complexity (rules this);
     Issue.suggestion :=
       Some (Suggestion.mk
               "Consider breaking down complex functions into smaller, more manageable pieces."
               80);
     Issue.cwe := None |}.

Section Engine.
Variable host : Host.
Variable this : AnalysisEngine.

(** The callback of [analyzeSecurity]. *)
Definition security_callback (filePath : string) (v : Visit)
    (issues : list Issue.t) : result (list Issue.t) :=
  let n := node v in
  issues <-
    (if type_is n "CallExpression" && truthy (prop n "callee")
     then name <- get (prop n "callee") "name" ;;
          if is_str name "eval"
          then line <- line_of n ;;
               column <- column_of n ;;
               Ok (issues ++ [eval_issue filePath line column])%list
          else Ok issues
     else Ok issues) ;;
  if type_is n "MemberExpression" && truthy (prop n "property")
  then name <- get (prop n "property") "name" ;;
       if is_str name "innerHTML"
       then line <- line_of n ;;
            column <- column_of n ;;
            Ok (issues ++ [innerHTML_issue filePath line column])%list
       else Ok issues
  else Ok issues.

(** [analyzeSecurity(ast, filePath, language)] *)
Definition analyzeSecurity (ast : value) (filePath language : string)
    : result (list Issue.t) :=
  if language_has_detail language
  then traverseAST (security_callback filePath) ast None None []
  else Ok [].

(** The callback of [analyzePerformance]. *)
Definition performance_callback (filePath : string) (v : Visit)
    (issues : list Issue.t) : result (list Issue.t) :=
  let n := node v in
  issues <-
    (if type_is n "ForStatement" || type_is n "WhileStatement"
     then let nestedLoops := findNestedLoops n 0 in
          if 2 <? nestedLoops
          then line <- line_of n ;;
               column <- column_of n ;;
               Ok (issues ++ [nested_loops_issue filePath nestedLoops line column])%list
          else Ok issues
     else Ok issues) ;;
  if type_is n "ArrayExpression"
  then len <- get (prop n "elements") "length" ;;
       if exceeds (string_exceeds host) len 1000
       then line <- line_of n ;;
            column <- column_of n ;;
            Ok (issues ++ [large_array_issue filePath len line column])%list
       else Ok issues
  else Ok issues.

(** [analyzePerformance(ast, filePath, language)] *)
Definition analyzePerformance (ast : value) (filePath language : string)
    : result (list Issue.t) :=
  if language_has_detail language
  then traverseAST (performance_callback filePath) ast None None []
  else Ok [].

(** The callback of [analyzeBugs]. *)
Definition bugs_callback (filePath : string) (v : Visit)
    (issues : list Issue.t) : result (list Issue.t) :=
  let n := node v in
  issues <-
    (if type_is n "ReturnStatement"
     then match parent v with
          | Some parent =>
              if type_is parent "BlockStatement"
              then let body := prop parent "body" in
                   index <- indexOf_in_body body v ;;
                   if index <? length_of body - 1
                   then returnLine <- line_of n ;;
                        line <- line_of (element body (index + 1)) ;;
                        column <- column_of (element body (index + 1)) ;;
                        Ok (issues ++ [unreachable_issue filePath returnLine
                                                         line column])%list
                   else Ok issues
              else Ok issues
          | None => Ok issues
          end
     else Ok issues) ;;
  if (type_is n "IfStatement" || type_is n "WhileStatement")
     && truthy (prop n "test")
  then type <- get (prop n "test") "type" ;;
       if is_str type "AssignmentExpression"
       then nodeLine <- line_of n ;;
            line <- line_of (prop n "test") ;;
            column <- column_of (prop n "test") ;;
            Ok (issues ++ [assignment_issue filePath nodeLine line column])%list
       else Ok issues
  else Ok issues.

(** [analyzeBugs(ast, filePath, language)] *)
Definition analyzeBugs (ast : value) (filePath language : string)
    : result (list Issue.t) :=
  if language_has_detail language
  then traverseAST (bugs_callback filePath) ast None None []
  else Ok [].

(** [parseFile(content, language)]; its [catch] logs and rethrows. *)
Definition parseFile (content language : string) : result value :=
  if (language =? "javascript")%string then esprima_parseScript host content
  else if (language =? "typescript")%string then typescriptParse host content
  else if (language =? "python")%string then Ok (parsePython content)
  else Ok VNull.

(** *** The file orchestrator *)

(** The state a call of [analyzeFile] works on: its locals [issues] and
    [metrics], and the number of clock readings made so far in the run. *)
Record Frame : Type := mkFrame
  { issues : list Issue.t;
    metrics : Metrics.t;
    ticks : nat }.

Definition Eff (A : Type) : Type := Frame -> result A * Frame.

Definition ret {A : Type} (a : A) : Eff A := fun f => (Ok a, f).

Definition then_ {A B : Type} (m : Eff A) (k : A -> Eff B) : Eff B :=
  fun f =>
    match m f with
    | (Ok a, f') => k a f'
    | (Throw e, f') => (Throw e, f')
    end.

(** A pure, possibly throwing computation. *)
Definition lift {A : Type} (r : result A) : Eff A := fun f => (r, f).

(** [try { body } catch (error) { handler }]: what [body] did to the
    state before it threw stays done. *)
Definition try_catch (body : Eff unit) (handler : Error -> Eff unit)
    : Eff unit :=
  fun f =>
    match body f with
    | (Ok tt, f') => (Ok tt, f')
    | (Throw e, f') => handler e f'
    end.

(** [issues.push(...found)] *)
Definition push (found : list Issue.t) : Eff unit :=
  fun f => (Ok tt, mkFrame (issues f ++ found)%list (metrics f) (ticks f)).

Definition set_metrics (update : Metrics.t -> Metrics.t) : Eff unit :=
  fun f => (Ok tt, mkFrame (issues f) (update (metrics f)) (ticks f)).

(** [Date.now()] *)
Definition now : Eff Z :=
  fun f => (Ok (Date_now host (ticks f)),
            mkFrame (issues f) (metrics f) (S (ticks f))).

Notation "x <~ m ;; k" := (then_ m (fun x => k))
  (at level 61, m at next level, right associativity).
Notation "m ;;; k" := (then_ m (fun _ => k))
  (at level 61, right associativity).

(** [analyzeComplexity(ast, filePath)] *)
Definition analyzeComplexity (ast : value) (filePath : string)
    : Eff (list Issue.t) :=
  complexity <~ lift (calculateComplexity ast) ;;
  if above complexity (Rule.threshold (Rules.complexity (rules this)))
  then t <~ now ;; ret [complexity_issue this filePath complexity t]
  else ret [].

Definition initial_metrics (content : string) : Metrics.t :=
  {| Metrics.complexity := 0;
     Metrics.lines := Z.of_nat (List.length (split_lines content));
     Metrics.functions := 0;
     Metrics.classes := 0 |}.

(** The [try] block of [analyzeFile]. *)
Definition analyzeFile_try (filePath content language : string) : Eff unit :=
  ast <~ lift (parseFile content language) ;;
  if truthy ast
  then found <~ analyzeComplexity ast filePath ;; push found ;;;
       found <~ lift (analyzeSecurity ast filePath language) ;; push found ;;;
       found <~ lift (analyzePerformance ast filePath language) ;; push found ;;;
       found <~ lift (analyzeBugs ast filePath language) ;; push found ;;;
       c <~ lift (calculateComplexity ast) ;;
       set_metrics (fun m => Metrics.mk c (Metrics.lines m)
                                        (Metrics.functions m) (Metrics.classes m)) ;;;
       n <~ lift (countFunctions ast) ;;
       set_metrics (fun m => Metrics.mk (Metrics.complexity m) (Metrics.lines m)
                                        n (Metrics.classes m)) ;;;
       n <~ lift (countClasses ast) ;;
       set_metrics (fun m => Metrics.mk (Metrics.complexity m) (Metrics.lines m)
                                        (Metrics.functions m) n)
  else ret tt.

(** The [catch] block of [analyzeFile]. *)
Definition analyzeFile_catch (filePath : string) (error : Error) : Eff unit :=
  t <~ now ;; push [parse_error_issue filePath error t].

(** [{ issues, metrics }] *)
Record Analysis : Type := mkAnalysis
  { found_issues : list Issue.t;
    found_metrics : Metrics.t }.

(** [analyzeFile(filePath, content, language)], started after [tick] clock
    readings; returns the analysis, the outcome of the body (a [Throw]
    would be an exception leaving [analyzeFile]) and the clock readings
    made. *)
Definition analyzeFile_run (filePath content language : string) (tick : nat)
    : result unit * Frame :=
  try_catch (analyzeFile_try filePath content language)
            (analyzeFile_catch filePath)
            (mkFrame [] (initial_metrics content) tick).

Definition analyzeFile (filePath content language : string) (tick : nat)
    : result Analysis * nat :=
  match analyzeFile_run filePath content language tick with
  | (Ok tt, f) => (Ok (mkAnalysis (issues f) (metrics f)), ticks f)
  | (Throw e, f) => (Throw e, ticks f)
  end.
End Engine.

(** ** The repository orchestrator *)

Module Summary.
Record t : Type := mk
  { totalFiles : Z;
    analyzedFiles : Z;
    totalIssues : Z;
    criticalIssues : Z;
    highIssues : Z;
    mediumIssues : Z;
    lowIssues : Z;
    totalLines : Z }.
End Summary.

Module FileEntry.
Record t : Type := mk
  { path : string;
    language : string;
    metrics : Metrics.t;
    issuesCount : Z }.
End FileEntry.

Module Results.
Record t : Type := mk
  { summary : Summary.t;
    files : list FileEntry.t;
    issues : list Issue.t }.
End Results.

Section Repository.
Variable host : Host.
Variable this : AnalysisEngine.

(** [getLanguageFromFile(filePath)]; [None] is [null]. *)
Definition getLanguageFromFile (filePath : string) : option string :=
  let ext := toLowerCase host (path_extname host filePath) in
  option_map fst
    (find (fun entry =>
             existsb (fun e => (e =? ext)%string)
                     (Language.extensions (snd entry)))
          (supportedLanguages this)).

(** [results.summary.totalIssues++; results.summary[severity + 'Issues']++]
    for one issue; a severity outside the four counters touches none. *)
Definition count_issue (s : Summary.t) (issue : Issue.t) : Summary.t :=
  let sev := Issue.severity issue in
  {| Summary.totalFiles := Summary.totalFiles s;
     Summary.analyzedFiles := Summary.analyzedFiles s;
     Summary.totalIssues := Summary.totalIssues s + 1;
     Summary.criticalIssues :=
       Summary.criticalIssues s + (if (sev =? "critical")%string then 1 else 0);
     Summary.highIssues :=
       Summary.highIssues s + (if (sev =? "high")%string then 1 else 0);
     Summary.mediumIssues :=
       Summary.mediumIssues s + (if (sev =? "medium")%string then 1 else 0);
     Summary.lowIssues :=
       Summary.lowIssues s + (if (sev =? "low")%string then 1 else 0);
     Summary.totalLines := Summary.totalLines s |}.

(** The statements of the loop body after [analyzeFile] returned. *)
Definition record_analysis (results : Results.t) (filePath language : string)
    (analysis : Analysis) : Results.t :=
  let s := Results.summary results in
  let s' :=
    {| Summary.totalFiles := Summary.totalFiles s;
       Summary.analyzedFiles := Summary.analyzedFiles s + 1;
       Summary.totalIssues := Summary.totalIssues s;
       Summary.criticalIssues := Summary.criticalIssues s;
       Summary.highIssues := Summary.highIssues s;
       Summary.mediumIssues := Summary.mediumIssues s;
       Summary.lowIssues := Summary.lowIssues s;
       Summary.totalLines :=
         Summary.totalLines s + Metrics.lines (found_metrics analysis) |} in
  {| Results.summary := fold_left count_issue (found_issues analysis) s';
     Results.files :=
       (Results.files results ++
        [FileEntry.mk filePath language (found_metrics analysis)
                      (Z.of_nat (List.length (found_issues analysis)))])%list;
     Results.issues :=
       (Results.issues results ++ found_issues analysis)%list |}.

(** One turn of the [for (const filePath of files)] loop: an exception in
    its [try] block is logged and the loop goes on. *)
Definition process_file (state : Results.t * nat) (filePath : string)
    : Results.t * nat :=
  let (results, tick) := state in
  match fs_readFile host filePath with
  | Throw _ => state
  | Ok content =>
      match getLanguageFromFile filePath with
      | Some language =>
          if (language =? "")%string then state
          else match analyzeFile host this filePath content language tick with
               | (Ok analysis, tick') =>
                   (record_analysis results filePath language analysis, tick')
               | (Throw _, tick') => (results, tick')
               end
      | None => state
      end
  end.

Definition empty_results (totalFiles : Z) : Results.t :=
  {| Results.summary := Summary.mk totalFiles 0 0 0 0 0 0 0;
     Results.files := [];
     Results.issues := [] |}.

(** [analyzeRepository(repositoryPath, options = {})]: the function takes
    a path and the two path filters, and nothing else. *)
Definition analyzeRepository (repositoryPath : string) (options : Options)
    (tick : nat) : result (Results.t * nat) :=
  files <- getSourceFiles host repositoryPath options ;;
  Ok (fold_left process_file files
                (empty_results (Z.of_nat (List.length files)), tick)).
End Repository.

(** ** What the specification speaks of *)

(** A node that adds to the cyclomatic complexity: an [if], a ternary, a
    [switch] case, a loop of any kind, a [catch] clause, or a logical
    expression with operator [&&] or [||]. *)
Definition decision_point (n : value) : bool :=
  existsb (type_is n)
          [ "IfStatement"; "ConditionalExpression"; "SwitchCase";
            "ForStatement"; "ForInStatement"; "ForOfStatement";
            "WhileStatement"; "DoWhileStatement"; "CatchClause" ]
  || (type_is n "LogicalExpression"
      && existsb (is_str (prop n "operator")) ["&&"; "||"]).

(** One plus the number of decision points among the nodes of a tree. *)
Definition complexity_of (ast : value) : Z :=
  1 + Z.of_nat (List.length (filter decision_point (nodes ast))).

(** Function-like and class-like declaration nodes. *)
Definition function_like (n : value) : bool :=
  type_is n "FunctionDeclaration" || type_is n "FunctionExpression"
  || type_is n "ArrowFunctionExpression".

Definition class_like (n : value) : bool := type_is n "ClassDeclaration".

Definition count_of (p : value -> bool) (ast : value) : Z :=
  Z.of_nat (List.length (filter p (nodes ast))).

(** The issues of the complexity analyzer and the clock readings it makes,
    when started after [tick] readings. *)
Definition complexity_findings (host : Host) (this : AnalysisEngine)
    (ast : value) (filePath : string) (tick : nat) : list Issue.t * nat :=
  if above (complexity_of ast) (Rule.threshold (Rules.complexity (rules this)))
  then ([complexity_issue this filePath (complexity_of ast) (Date_now host tick)],
        S tick)
  else ([], tick).

(** A call expression whose callee is named [eval]. *)
Definition eval_call (n : value) : bool :=
  type_is n "CallExpression" && is_str (prop (prop n "callee") "name") "eval".

(** A member access whose property is named [innerHTML]. *)
Definition innerHTML_access (n : value) : bool :=
  type_is n "MemberExpression"
  && is_str (prop (prop n "property") "name") "innerHTML".

(** The source position of a node that carries one. *)
Definition line (n : value) : value :=
  prop (prop (prop n "loc") "start") "line".

Definition column (n : value) : value :=
  prop (prop (prop n "loc") "start") "column".

(** The node carries [loc.start], as the front-ends called with
    [loc: true] provide for every node. *)
Definition located (n : value) : bool :=
  negb (nullish n) && negb (nullish (prop n "loc"))
  && negb (nullish (prop (prop n "loc") "start")).

(** The issues the security callback pushes at a node. *)
Definition security_issues (filePath : string) (n : value) : list Issue.t :=
  ((if eval_call n then [eval_issue filePath (line n) (column n)] else [])
   ++ (if innerHTML_access n
       then [innerHTML_issue filePath (line n) (column n)] else []))%list.

Definition has_rule (id : string) (issue : Issue.t) : bool :=
  (Rule.id (Issue.rule issue) =? id)%string.

(** [n[key]] is [v], for an enumerable key of an object or an array. *)
Definition holds (n : value) (key : string) (v : value) : Prop :=
  match n with
  | VObj props => In (key, v) props
  | VArr elems => exists i, nth_error elems i = Some v /\ key = index_key i
  | _ => False
  end.

(** The child links of the tree: from a visited node to an object in an
    array it holds, and to an object with a [type] it holds directly; never
    through the [parent] back-reference. *)
Inductive child_link (r : Visit) : Visit -> Prop :=
| link_element (key : string) (children : list value) (i : nat) (c : value) :
    holds (node r) key (VArr children) ->
    (key =? "parent")%string = false ->
    nth_error children i = Some c ->
    is_object c = true ->
    child_link r (mkVisit c (Some (node r)) (Some (key, Some i)))
| link_direct (key : string) (props : list (string * value)) :
    holds (node r) key (VObj props) ->
    (key =? "parent")%string = false ->
    truthy (prop (VObj props) "type") = true ->
    child_link r (mkVisit (VObj props) (Some (node r)) (Some (key, None))).

(** The nodes of the tree below a root: what the child links reach. *)
Inductive reaches (root : Visit) : Visit -> Prop :=
| reach_root : reaches root root
| reach_step (r0 r : Visit) :
    reaches root r0 -> child_link r0 r -> reaches root r.

(** The issues the bug callback pushes at a visited node. *)
Definition unreachable_issues (filePath : string) (v : Visit) : list Issue.t :=
  if type_is (node v) "ReturnStatement"
  then match parent v with
       | Some q =>
           if type_is q "BlockStatement"
           then let body := prop q "body" in
                let index := index_in_body v in
                if index <? length_of body - 1
                then [unreachable_issue filePath (line (node v))
                                        (line (element body (index + 1)))
                                        (column (element body (index + 1)))]
                else []
           else []
       | None => []
       end
  else [].

Definition assignment_issues (filePath : string) (v : Visit) : list Issue.t :=
  let n := node v in
  if (type_is n "IfStatement" || type_is n "WhileStatement")
     && is_str (prop (prop n "test") "type") "AssignmentExpression"
  then [assignment_issue filePath (line n) (line (prop n "test"))
                         (column (prop n "test"))]
  else [].

Definition bugs_issues (filePath : string) (v : Visit) : list Issue.t :=
  (unreachable_issues filePath v ++ assignment_issues filePath v)%list.

(** What the callbacks read off a node is in place: a node with a [type]
    is located, the [body] of a block is an array of located statements,
    and a [test] that is a node is located. *)
Definition node_ready (n : value) : bool :=
  (if truthy (prop n "type") then located n else true)
  && (if type_is n "BlockStatement"
      then match prop n "body" with
           | VArr stmts => forallb located stmts
           | _ => false
           end
      else true)
  && (if truthy (prop (prop n "test") "type") then located (prop n "test")
      else true).

Definition tree_ready (ast : value) : bool := forallb node_ready (nodes ast).

(** The issues of the results that did not throw. *)
Definition or_none (r : result (list Issue.t)) : list Issue.t :=
  match r with
  | Ok found => found
  | Throw _ => []
  end.

(** The issues pushed until the first analyzer throws, and what it threw. *)
Fixpoint until_throw (rs : list (result (list Issue.t)))
    : list Issue.t * option Error :=
  match rs with
  | [] => ([], None)
  | Ok found :: rest =>
      let (more, e) := until_throw rest in ((found ++ more)%list, e)
  | Throw e :: _ => ([], Some e)
  end.

(** A reading of the fail-soft contract: an analyzer that throws counts for
    no issue, and the issues of all the other analyzers are kept. *)
Definition isolated_issues (host : Host) (this : AnalysisEngine) (ast : value)
    (filePath language : string) (tick : nat) : list Issue.t :=
  (fst (complexity_findings host this ast filePath tick)
   ++ or_none (analyzeSecurity ast filePath language)
   ++ or_none (analyzePerformance host ast filePath language)
   ++ or_none (analyzeBugs ast filePath language))%list.

Definition analyzer_failures_isolated (host : Host) (this : AnalysisEngine)
    (filePath content language : string) (tick : nat) : Prop :=
  forall ast,
    parseFile host content language = Ok ast -> truthy ast = true ->
    exists analysis tick',
      analyzeFile host this filePath content language tick = (Ok analysis, tick')
      /\ found_issues analysis =
         isolated_issues host this ast filePath language tick.

(** A listed file the repository loop analyzes: it can be read and its
    extension resolves to a language. *)
Definition analyzable (host : Host) (this : AnalysisEngine) (filePath : string)
    : bool :=
  match fs_readFile host filePath, getLanguageFromFile host this filePath with
  | Ok _, Some language => negb (language =? "")%string
  | _, _ => false
  end.

(** ** Sample trees and hosts *)

Module Sample.
(** [{ start: { line, column }, end: { line, column } }] *)
Definition loc (line column : Z) : value :=
  VObj [ ("start", VObj [("line", VNum line); ("column", VNum column)]);
         ("end", VObj [("line", VNum line); ("column", VNum (column + 1))]) ].

(** A node as Esprima lays it out: [type], the fields, then [loc]. *)
Definition estree (type : string) (fields : list (string * value))
    (line column : Z) : value :=
  VObj ((("type", VStr type) :: fields) ++ [("loc", loc line column)])%list.

Definition identifier (name : string) (line column : Z) : value :=
  estree "Identifier" [("name", VStr name)] line column.

Definition program (body : list value) : value :=
  estree "Program" [("body", VArr body); ("sourceType", VStr "script")] 1 0.

Definition block (body : list value) (line column : Z) : value :=
  estree "BlockStatement" [("body", VArr body)] line column.

Definition expression_statement (e : value) (line column : Z) : value :=
  estree "ExpressionStatement" [("expression", e)] line column.

Definition call (callee : value) (args : list value) (line column : Z) : value :=
  estree "CallExpression" [("callee", callee); ("arguments", VArr args)]
         line column.

(** [if (c) {}] *)
Definition if_statement (line : Z) : value :=
  estree "IfStatement"
         [ ("test", identifier "c" line 4);
           ("consequent", block [] line 7);
           ("alternate", VNull) ]
         line 0.

Definition for_statement (body : value) (line column : Z) : value :=
  estree "ForStatement"
         [("init", VNull); ("test", VNull); ("update", VNull); ("body", body)]
         line column.

Definition do_while_statement (body : value) (line column : Z) : value :=
  estree "DoWhileStatement"
         [("body", body); ("test", identifier "c" line (column + 20))]
         line column.

Definition return_statement (line column : Z) : value :=
  estree "ReturnStatement" [("argument", VNull)] line column.

(** Twelve [if] statements, one per line. *)
Definition twelve_ifs : value :=
  program (map (fun i => if_statement (Z.of_nat i)) (seq 1 12)).

(** [eval(a); eval(b);] on one line. *)
Definition two_evals_one_line : value :=
  program
    [ expression_statement
        (call (identifier "eval" 1 0) [identifier "a" 1 5] 1 0) 1 0;
      expression_statement
        (call (identifier "eval" 1 9) [identifier "b" 1 14] 1 9) 1 9 ].

(** [for (;;) { for (;;) { for (;;) {} } }], one loop per line. *)
Definition three_fors : value :=
  program
    [ for_statement
        (block [ for_statement
                   (block [ for_statement (block [] 3 13) 3 4 ] 2 11) 2 2 ]
               1 9)
        1 0 ].

(** [do { for (;;) { for (;;) {} } } while (c);] *)
Definition do_while_around_two_fors : value :=
  program
    [ do_while_statement
        (block [ for_statement
                   (block [ for_statement (block [] 3 13) 3 4 ] 2 11) 2 2 ]
               1 3)
        1 0 ].

(** [function f() { return; g(); }] with the call on line 3. *)
Definition return_then_call : value :=
  program
    [ estree "FunctionDeclaration"
        [ ("id", identifier "f" 1 9);
          ("params", VArr []);
          ("body",
           block [ return_statement 2 2;
                   expression_statement
                     (call (identifier "g" 3 2) [] 3 2) 3 2 ]
                 1 13) ]
        1 0 ].

(** A tree whose [eval] call carries no [loc], below a function with dead
    code after its [return]: the security callback throws on it. *)
Definition eval_without_loc : value :=
  program
    [ estree "FunctionDeclaration"
        [ ("id", identifier "f" 1 9);
          ("params", VArr []);
          ("body",
           block [ return_statement 2 2;
                   expression_statement
                     (VObj [ ("type", VStr "CallExpression");
                             ("callee", identifier "eval" 3 2);
                             ("arguments", VArr []) ])
                     3 2 ]
                 1 13) ]
        1 0 ].

(** The part of a path from its last dot on. *)
Fixpoint extname (p : string) : string :=
  match p with
  | EmptyString => ""
  | String c rest =>
      match extname rest with
      | EmptyString => if Ascii.eqb c "."%char then p else ""
      | ext => ext
      end
  end.

(** A host whose front-ends return [ast] for every content, whose clock
    advances by one per reading and whose files all read as [content]. *)
Definition host_parsing (ast : value) (files : list string) (content : string)
    : Host :=
  {| esprima_parseScript := fun _ => Ok ast;
     typescriptParse := fun _ => Ok ast;
     Date_now := fun n => 1700000000000 + Z.of_nat n;
     string_exceeds := fun _ _ => false;
     path_extname := extname;
     toLowerCase := fun s => s;
     fs_readFile := fun _ => Ok content;
     getSourceFiles := fun _ _ => Ok files |}.

(** A host whose front-ends reject every content. *)
Definition host_rejecting (msg : string) : Host :=
  {| esprima_parseScript := fun _ => Throw (mkError msg);
     typescriptParse := fun _ => Throw (mkError msg);
     Date_now := fun n => 1700000000000 + Z.of_nat n;
     string_exceeds := fun _ _ => false;
     path_extname := extname;
     toLowerCase := fun s => s;
     fs_readFile := fun _ => Ok "";
     getSourceFiles := fun _ _ => Ok [] |}.
End Sample.

(** ** The analyzers, node by node *)

(** A [for] or [while] node whose loops nest more than two deep. *)
Definition deep_loop (n : value) : bool :=
  (type_is n "ForStatement" || type_is n "WhileStatement")
  && (2 <? findNestedLoops n 0).

(** An array literal with more than 1000 elements. *)
Definition large_array (host : Host) (n : value) : bool :=
  type_is n "ArrayExpression"
  && exceeds (string_exceeds host) (prop (prop n "elements") "length") 1000.

(** The issues the performance callback pushes at a node. *)
Definition performance_issues (host : Host) (filePath : string) (n : value)
    : list Issue.t :=
  ((if deep_loop n
    then [nested_loops_issue filePath (findNestedLoops n 0) (line n) (column n)]
    else [])
   ++ (if large_array host n
       then [large_array_issue filePath (prop (prop n "elements") "length")
                               (line n) (column n)]
       else []))%list.

(** What the performance callback reads off a node is in place: a flagged
    node is located and an array literal has its [elements]. *)
Definition performance_ready (host : Host) (n : value) : bool :=
  (if deep_loop n || large_array host n then located n else true)
  && (if type_is n "ArrayExpression" then negb (nullish (prop n "elements"))
      else true).

(** The enumerations of [issueSchema] in [server/models/Analysis.js]. *)
Definition severity_enum : list string := ["low"; "medium"; "high"; "critical"].

Definition type_enum : list string :=
  [ "bug"; "security"; "performance"; "style"; "complexity";
    "maintainability"; "suggestion" ].

(** An issue passes the enumerations and the [required] strings of the
    schema. *)
Definition schema_valid (issue : Issue.t) : Prop :=
  In (Issue.severity issue) severity_enum
  /\ In (Issue.type issue) type_enum
  /\ Issue.id issue <> ""
  /\ Issue.title issue <> "".

(** An issue without its id, the one field the clock enters. *)
Definition without_id (issue : Issue.t) : Issue.t :=
  {| Issue.id := "";
     Issue.type := Issue.type issue;
     Issue.severity := Issue.severity issue;
     Issue.title := Issue.title issue;
     Issue.description := Issue.description issue;
     Issue.file := Issue.file issue;
     Issue.rule := Issue.rule issue;
     Issue.suggestion := Issue.suggestion issue;
     Issue.cwe := Issue.cwe issue |}.

Definition has_severity (sev : string) (issue : Issue.t) : bool :=
  (Issue.severity issue =? sev)%string.

Definition count_severity (sev : string) (found : list Issue.t) : Z :=
  Z.of_nat (List.length (filter (has_severity sev) found)).

Definition sum_Z (l : list Z) : Z := fold_right Z.add 0 l.

(** [el.innerHTML = eval(s);] on line 1. *)
Definition sample_innerHTML_of_eval : value :=
  Sample.program
    [ Sample.expression_statement
        (Sample.estree "AssignmentExpression"
           [ ("operator", VStr "=");
             ("left",
              Sample.estree "MemberExpression"
                [ ("computed", VBool false);
                  ("object", Sample.identifier "el" 1 0);
                  ("property", Sample.identifier "innerHTML" 1 3) ]
                1 0);
             ("right",
              Sample.call (Sample.identifier "eval" 1 15)
                          [Sample.identifier "s" 1 20] 1 15) ]
           1 0)
        1 0 ].

(** [function f() { if (a = 1) { return; } }] over three lines. *)
Definition sample_assignment_in_if : value :=
  Sample.program
    [ Sample.estree "FunctionDeclaration"
        [ ("id", Sample.identifier "f" 1 9);
          ("params", VArr []);
          ("body",
           Sample.block
             [ Sample.estree "IfStatement"
                 [ ("test",
                    Sample.estree "AssignmentExpression"
                      [ ("operator", VStr "=");
                        ("left", Sample.identifier "a" 2 6);
                        ("right",
                         Sample.estree "Literal" [("value", VNum 1)] 2 10) ]
                      2 6);
                   ("consequent", Sample.block [Sample.return_statement 2 15] 2 13);
                   ("alternate", VNull) ]
                 2 2 ]
             1 13) ]
        1 0 ].

(** The summary of a repository result agrees with its lists: the issue
    counters count the issues by severity, the lines are those of the
    analyzed files, and the per-file issue counts add up. *)
Definition tallied (r : Results.t) : Prop :=
  let s := Results.summary r in
  Summary.totalIssues s = Z.of_nat (List.length (Results.issues r))
  /\ Summary.criticalIssues s = count_severity "critical" (Results.issues r)
  /\ Summary.highIssues s = count_severity "high" (Results.issues r)
  /\ Summary.mediumIssues s = count_severity "medium" (Results.issues r)
  /\ Summary.lowIssues s = count_severity "low" (Results.issues r)
  /\ Summary.totalLines s =
     sum_Z (map (fun f => Metrics.lines (FileEntry.metrics f)) (Results.files r))
  /\ sum_Z (map FileEntry.issuesCount (Results.files r)) =
     Z.of_nat (List.length (Results.issues r))
  /\ Summary.analyzedFiles s = Z.of_nat (List.length (Results.files r))
  /\ Forall schema_valid (Results.issues r).

(** ** The directory scan *)

(** An entry as [fs.readdir(dir, { withFileTypes: true })] lists it: a
    file, a directory together with the outcome of listing it in turn, or
    something that is neither (a link, a socket). *)
Unset Elimination Schemes.
Inductive Dirent : Type :=
| FileDirent (name : string)
| DirectoryDirent (name : string) (listing : result (list Dirent))
| OtherDirent (name : string).
Set Elimination Schemes.

Definition dirent_name (entry : Dirent) : string :=
  match entry with
  | FileDirent name | DirectoryDirent name _ | OtherDirent name => name
  end.

(** Node's [path.join] and [path.relative]. *)
Record Paths : Type := mkPaths
  { path_join : string -> string -> string;
    path_relative : string -> string -> string }.

(** [s.includes(pattern)] *)
Definition includes (s pattern : string) : bool :=
  match String.index 0 pattern s with
  | Some _ => true
  | None => false
  end.

(** [options.excludePaths || ['node_modules', '.git', 'dist', 'build']] *)
Definition excludePaths_of (options : Options) : list string :=
  match excludePaths options with
  | Some patterns => patterns
  | None => ["node_modules"; ".git"; "dist"; "build"]
  end.

(** [options.includePaths || []] *)
Definition includePaths_of (options : Options) : list string :=
  match includePaths options with
  | Some patterns => patterns
  | None => []
  end.

(** The two [continue] tests of the scan loop. *)
Definition passed_over (options : Options) (relativePath : string) : bool :=
  existsb (includes relativePath) (excludePaths_of options)
  || ((0 <? Z.of_nat (List.length (includePaths_of options)))
      && negb (existsb (includes relativePath) (includePaths_of options))).

Section Scan.
Variable paths : Paths.
Variable repositoryPath : string.
Variable options : Options.

(** One turn of the [for (const entry of entries)] loop of [scanDirectory],
    on the array [files] of the paths found so far. *)
Fixpoint scan_entry (dirPath : string) (entry : Dirent) (files : list string)
    {struct entry} : list string :=
  let fullPath := path_join paths dirPath (dirent_name entry) in
  let relativePath := path_relative paths repositoryPath fullPath in
  if passed_over options relativePath then files
  else match entry with
       | DirectoryDirent _ listing =>
           match listing with
           | Ok entries =>
               fold_left (fun files e => scan_entry fullPath e files)
                         entries files
           | Throw _ => files
           end
       | FileDirent _ => (files ++ [fullPath])%list
       | OtherDirent _ => files
       end.

(** [scanDirectory(dirPath)], given what [fs.readdir(dirPath)] does: an
    exception is caught and logged. *)
Definition scanDirectory (dirPath : string) (listing : result (list Dirent))
    (files : list string) : list string :=
  match listing with
  | Ok entries =>
      fold_left (fun files e => scan_entry dirPath e files) entries files
  | Throw _ => files
  end.

(** [getSourceFiles(repositoryPath, options = {})] on a repository whose
    root lists as [root]. *)
Definition getSourceFiles_scan (root : result (list Dirent)) : list string :=
  scanDirectory repositoryPath root [].

(** The files the scan is to find below a directory: the files listed in
    it, and those found below its subdirectories, as far as no entry on the
    way is passed over. *)
Inductive found_below (dirPath : string) : result (list Dirent) -> string -> Prop :=
| found_here (entries : list Dirent) (name : string) :
    In (FileDirent name) entries ->
    passed_over options
      (path_relative paths repositoryPath (path_join paths dirPath name)) = false ->
    found_below dirPath (Ok entries) (path_join paths dirPath name)
| found_deeper (entries : list Dirent) (name : string)
    (listing : result (list Dirent)) (file : string) :
    In (DirectoryDirent name listing) entries ->
    passed_over options
      (path_relative paths repositoryPath (path_join paths dirPath name)) = false ->
    found_below (path_join paths dirPath name) listing file ->
    found_below dirPath (Ok entries) file.
End Scan.

(** What one entry of a directory contributes to the scan. *)
Definition entry_finds (paths : Paths) (repositoryPath : string)
    (options : Options) (dirPath : string) (entry : Dirent) (file : string)
    : Prop :=
  let fullPath := path_join paths dirPath (dirent_name entry) in
  passed_over options (path_relative paths repositoryPath fullPath) = false
  /\ match entry with
     | FileDirent _ => file = fullPath
     | DirectoryDirent _ listing =>
         found_below paths repositoryPath options fullPath listing file
     | OtherDirent _ => False
     end.

(** ** The analysis record *)

Module DocSummary.
(** [results.summary] of the analysis schema; the counters default to 0. *)
Record t : Type := mk
  { totalIssues : Z;
    criticalIssues : Z;
    highIssues : Z;
    mediumIssues : Z;
    lowIssues : Z;
    filesAnalyzed : Z;
    linesAnalyzed : Z }.
End DocSummary.

(** [results] of an analysis document, as far as [addIssue] touches it. *)
Record AnalysisResults : Type := mkResults
  { doc_summary : DocSummary.t;
    doc_issues : list Issue.t }.

(** [summary[severity + 'Issues']++] when that field is defined: the
    summary has five fields of this form. *)
Definition bump_severity (s : DocSummary.t) (severity : string) : DocSummary.t :=
  if (severity =? "total")%string then
    DocSummary.mk (DocSummary.totalIssues s + 1) (DocSummary.criticalIssues s)
      (DocSummary.highIssues s) (DocSummary.mediumIssues s)
      (DocSummary.lowIssues s) (DocSummary.filesAnalyzed s)
      (DocSummary.linesAnalyzed s)
  else if (severity =? "critical")%string then
    DocSummary.mk (DocSummary.totalIssues s) (DocSummary.criticalIssues s + 1)
      (DocSummary.highIssues s) (DocSummary.mediumIssues s)
      (DocSummary.lowIssues s) (DocSummary.filesAnalyzed s)
      (DocSummary.linesAnalyzed s)
  else if (severity =? "high")%string then
    DocSummary.mk (DocSummary.totalIssues s) (DocSummary.criticalIssues s)
      (DocSummary.highIssues s + 1) (DocSummary.mediumIssues s)
      (DocSummary.lowIssues s) (DocSummary.filesAnalyzed s)
      (DocSummary.linesAnalyzed s)
  else if (severity =? "medium")%string then
    DocSummary.mk (DocSummary.totalIssues s) (DocSummary.criticalIssues s)
      (DocSummary.highIssues s) (DocSummary.mediumIssues s + 1)
      (DocSummary.lowIssues s) (DocSummary.filesAnalyzed s)
      (DocSummary.linesAnalyzed s)
  else if (severity =? "low")%string then
    DocSummary.mk (DocSummary.totalIssues s) (DocSummary.criticalIssues s)
      (DocSummary.highIssues s) (DocSummary.mediumIssues s)
      (DocSummary.lowIssues s + 1) (DocSummary.filesAnalyzed s)
      (DocSummary.linesAnalyzed s)
  else s.

(** [analysisSchema.methods.addIssue(issue)] *)
Definition addIssue (this : AnalysisResults) (issue : Issue.t) : AnalysisResults :=
  let s := bump_severity (doc_summary this) (Issue.severity issue) in
  {| doc_summary :=
       DocSummary.mk (DocSummary.totalIssues s + 1) (DocSummary.criticalIssues s)
         (DocSummary.highIssues s) (DocSummary.mediumIssues s)
         (DocSummary.lowIssues s) (DocSummary.filesAnalyzed s)
         (DocSummary.linesAnalyzed s);
     doc_issues := (doc_issues this ++ [issue])%list |}.

(** The counters of an analysis record agree with its issue list. *)
Definition counted (r : AnalysisResults) : Prop :=
  let s := doc_summary r in
  DocSummary.totalIssues s = Z.of_nat (List.length (doc_issues r))
  /\ DocSummary.criticalIssues s = count_severity "critical" (doc_issues r)
  /\ DocSummary.highIssues s = count_severity "high" (doc_issues r)
  /\ DocSummary.mediumIssues s = count_severity "medium" (doc_issues r)
  /\ DocSummary.lowIssues s = count_severity "low" (doc_issues r).

(** A fresh record: no issue, all counters at their default. *)
Definition fresh_results : AnalysisResults :=
  mkResults (DocSummary.mk 0 0 0 0 0 0 0) [].

(** ** A sample repository *)

Definition sample_paths : Paths :=
  {| path_join := fun dir name => dir ++ "/" ++ name;
     path_relative := fun root full =>
       String.substring (String.length root + 1)
                        (String.length full - String.length root - 1) full |}.

(** [node_modules/x.js], [src/a.js], [src/rebuild.js], a directory [tmp]
    that cannot be listed, and [README.md]. *)
Definition sample_root : result (list Dirent) :=
  Ok [ DirectoryDirent "node_modules" (Ok [FileDirent "x.js"]);
       DirectoryDirent "src" (Ok [FileDirent "a.js"; FileDirent "rebuild.js"]);
       DirectoryDirent "tmp" (Throw (mkError "EACCES: permission denied"));
       FileDirent "README.md" ].

(** ** Webhooks *)

(** What the webhook parser takes from Node: [crypto.createHmac('sha256',
    key).update(text).digest('hex')], [JSON.stringify] of a value that is
    not [undefined], and the errors its library calls raise when they are
    handed [undefined]: [createHmac] for the key, [update] for the data and
    [Buffer.from] for its argument.  Their texts are the library's. *)
Record Crypto : Type := mkCrypto
  { hmac_sha256_hex : string -> string -> string;
    JSON_stringify : value -> string;
    createHmac_undefined : Error;
    update_undefined : Error;
    Buffer_from_undefined : Error }.

(** The error of [crypto.timingSafeEqual] on buffers of different
    lengths. *)
Definition timing_safe_length : Error :=
  mkError "Input buffers must have the same byte length".

(** [verifyWebhookSignature(payload, signature)]: [None] stands for
    [undefined] (no secret in the environment, nothing to sign, no signature
    header).  [crypto.timingSafeEqual] throws on buffers of different
    lengths. *)
Definition verifyWebhookSignature (crypto : Crypto) (webhookSecret : option string)
    (payload signature : option string) : result bool :=
  match webhookSecret with
  | None => Throw (createHmac_undefined crypto)
  | Some key =>
      match payload with
      | None => Throw (update_undefined crypto)
      | Some text =>
          let expectedSignature := "sha256=" ++ hmac_sha256_hex crypto key text in
          match signature with
          | None => Throw (Buffer_from_undefined crypto)
          | Some given =>
              if (String.length given =? String.length expectedSignature)%nat
              then Ok (given =? expectedSignature)%string
              else Throw timing_safe_length
          end
      end
  end.

(** [headers[name]] of a request: a string, or [undefined]. *)
Fixpoint header (name : string) (headers : list (string * string))
    : option string :=
  match headers with
  | [] => None
  | (k, v) :: rest => if (k =? name)%string then Some v else header name rest
  end.

Definition value_of (o : option string) : value :=
  match o with
  | Some s => VStr s
  | None => VUndefined
  end.

(** [array.map(f)] for a throwing [f]. *)
Fixpoint map_result (f : value -> result value) (l : list value)
    : result (list value) :=
  match l with
  | [] => Ok []
  | x :: rest => y <- f x ;; ys <- map_result f rest ;; Ok (y :: ys)
  end.

(** [body.commits.map(commit => ({ ... }))] *)
Definition map_commits (commits : value) : result value :=
  match commits with
  | VArr l =>
      mapped <- map_result
                  (fun commit =>
                     id <- get commit "id" ;;
                     Ok (VObj [ ("id", id);
                                ("message", prop commit "message");
                                ("author", prop commit "author");
                                ("url", prop commit "url");
                                ("added", prop commit "added");
                                ("removed", prop commit "removed");
                                ("modified", prop commit "modified") ]))
                  l ;;
      Ok (VArr mapped)
  | VUndefined => Throw (cannot_read "undefined" "map")
  | VNull => Throw (cannot_read "null" "map")
  | _ => Throw (mkError "body.commits.map is not a function")
  end.

(** The [push] part of a payload. *)
Definition push_part (body : value) : result value :=
  commits <- map_commits (prop body "commits") ;;
  let head := prop body "head_commit" in
  Ok (VObj [ ("ref", prop body "ref");
             ("before", prop body "before");
             ("after", prop body "after");
             ("commits", commits);
             ("headCommit",
              if truthy head
              then VObj [ ("id", prop head "id");
                          ("message", prop head "message");
                          ("author", prop head "author");
                          ("url", prop head "url") ]
              else VNull) ]).

(** The [pullRequest] part of a payload. *)
Definition pull_request_part (body : value) : result value :=
  let pr := prop body "pull_request" in
  number <- get pr "number" ;;
  author <- get (prop pr "user") "login" ;;
  headRef <- get (prop pr "head") "ref" ;;
  baseRef <- get (prop pr "base") "ref" ;;
  Ok (VObj [ ("number", number);
             ("title", prop pr "title");
             ("body", prop pr "body");
             ("state", prop pr "state");
             ("author", author);
             ("url", prop pr "html_url");
             ("head", VObj [ ("ref", headRef);
                             ("sha", prop (prop pr "head") "sha") ]);
             ("base", VObj [ ("ref", baseRef);
                             ("sha", prop (prop pr "base") "sha") ]) ]).

(** [switch (event)] compares the header, which may be missing, with a
    case label by strict equality. *)
Definition is_event (event : option string) (label : string) : bool :=
  match event with
  | Some name => (name =? label)%string
  | None => false
  end.

(** [parseWebhookPayload(headers, body)] *)
Definition parseWebhookPayload (crypto : Crypto) (webhookSecret : option string)
    (headers : list (string * string)) (body : value) : result value :=
  let event := header "x-github-event" headers in
  let signature := header "x-hub-signature-256" headers in
  let delivery := header "x-github-delivery" headers in
  verified <- verifyWebhookSignature crypto webhookSecret
                (match body with
                 | VUndefined => None
                 | _ => Some (JSON_stringify crypto body)
                 end)
                signature ;;
  if negb verified then Throw (mkError "Invalid webhook signature")
  else
    action <- get body "action" ;;
    repository <-
      (let repo := prop body "repository" in
       if truthy repo
       then login <- get (prop repo "owner") "login" ;;
            Ok (VObj [ ("id", prop repo "id");
                       ("name", prop repo "name");
                       ("fullName", prop repo "full_name");
                       ("owner", login);
                       ("isPrivate", prop repo "private");
                       ("defaultBranch", prop repo "default_branch") ])
       else Ok VNull) ;;
    let payload := [ ("event", value_of event);
                     ("delivery", value_of delivery);
                     ("action", action);
                     ("repository", repository) ] in
    if is_event event "push"
    then part <- push_part body ;; Ok (VObj (payload ++ [("push", part)])%list)
    else if is_event event "pull_request"
    then part <- pull_request_part body ;;
         Ok (VObj (payload ++ [("pullRequest", part)])%list)
    else Ok (VObj payload).

(** A stand-in for the host's digest, serializer and errors. *)
Definition sample_crypto : Crypto :=
  {| hmac_sha256_hex := fun key text => "00ff";
     JSON_stringify := fun v => to_string v;
     createHmac_undefined := mkError "ERR_INVALID_ARG_TYPE (key)";
     update_undefined := mkError "ERR_INVALID_ARG_TYPE (data)";
     Buffer_from_undefined := mkError "ERR_INVALID_ARG_TYPE (first argument)" |}.

(** A visit in the list of a subtree either is its root or has a parent
    that stands before it in the list. *)
Definition parent_first (n : value) : Prop :=
  forall p h l1 r l2,
    visits n p h = (l1 ++ r :: l2)%list ->
    (l1 = [] /\ r = mkVisit n p h)
    \/ exists q, parent r = Some q /\ In q (map node l1).

(** The integers a JavaScript number counts without loss:
    [Number.MIN_SAFE_INTEGER] to [Number.MAX_SAFE_INTEGER].  The depth
    counter of [findNestedLoops] is such a number, and [depth++] is exact
    only within this range. *)
Definition safe_integer (z : Z) : bool :=
  (- (2 ^ 53 - 1) <=? z) && (z <=? 2 ^ 53 - 1).

(** ** The background run and the cancel route *)

Module AnalysisDoc.
(** The paths of an analysis document on which the background run and the
    cancel route decide: who may cancel it, [status],
    [configuration.excludePaths], [scope.files] and [results].  Progress,
    timing, logs and the score enter no decision and are left out. *)
Record t : Type := mk
  { triggeredBy : string;
    owner : string;
    status : string;
    excludePaths : list string;
    files : list string;
    results : AnalysisResults }.
End AnalysisDoc.

(** A document instance in memory: its fields, and the paths assigned
    since it was loaded or last saved.  Every [findById] makes a new
    instance; assigning to one instance changes neither the database nor
    any other instance. *)
Record Loaded : Type := mkLoaded
  { fields : AnalysisDoc.t;
    status_modified : bool;
    files_modified : bool;
    results_modified : bool }.

(** [analysis.status = s]: a path assigned the value it holds is not
    marked. *)
Definition set_status (s : string) (a : Loaded) : Loaded :=
  let d := fields a in
  if (AnalysisDoc.status d =? s)%string then a
  else mkLoaded (AnalysisDoc.mk (AnalysisDoc.triggeredBy d) (AnalysisDoc.owner d)
                   s (AnalysisDoc.excludePaths d) (AnalysisDoc.files d)
                   (AnalysisDoc.results d))
                true (files_modified a) (results_modified a).

(** [analysis.scope.files = paths] *)
Definition set_files (paths : list string) (a : Loaded) : Loaded :=
  let d := fields a in
  mkLoaded (AnalysisDoc.mk (AnalysisDoc.triggeredBy d) (AnalysisDoc.owner d)
              (AnalysisDoc.status d) (AnalysisDoc.excludePaths d) paths
              (AnalysisDoc.results d))
           (status_modified a) true (results_modified a).

(** An assignment below [analysis.results]. *)
Definition set_results (r : AnalysisResults) (a : Loaded) : Loaded :=
  let d := fields a in
  mkLoaded (AnalysisDoc.mk (AnalysisDoc.triggeredBy d) (AnalysisDoc.owner d)
              (AnalysisDoc.status d) (AnalysisDoc.excludePaths d)
              (AnalysisDoc.files d) r)
           (status_modified a) (files_modified a) true.

(** The collection of analysis documents, by [_id]. *)
Definition Store : Type := list (string * AnalysisDoc.t).

(** [Analysis.findById(id)]: a new instance of the stored document, or
    [null]. *)
Fixpoint findById (id : string) (db : Store) : option Loaded :=
  match db with
  | [] => None
  | (k, d) :: rest =>
      if (k =? id)%string then Some (mkLoaded d false false false)
      else findById id rest
  end.

(** What [save] leaves in the database: the modified paths of the
    instance, and the stored values of all others. *)
Definition written (a : Loaded) (stored : AnalysisDoc.t) : AnalysisDoc.t :=
  let d := fields a in
  AnalysisDoc.mk (AnalysisDoc.triggeredBy stored) (AnalysisDoc.owner stored)
    (if status_modified a then AnalysisDoc.status d
     else AnalysisDoc.status stored)
    (AnalysisDoc.excludePaths stored)
    (if files_modified a then AnalysisDoc.files d else AnalysisDoc.files stored)
    (if results_modified a then AnalysisDoc.results d
     else AnalysisDoc.results stored).

(** [analysis.save()] for the instance of the document [id]; no route of
    the server deletes an analysis. *)
Fixpoint save (id : string) (a : Loaded) (db : Store) : Store :=
  match db with
  | [] => []
  | (k, d) :: rest =>
      if (k =? id)%string then (k, written a d) :: rest
      else (k, d) :: save id a rest
  end.

(** The instance after [save]: nothing is modified any more. *)
Definition saved (a : Loaded) : Loaded :=
  mkLoaded (fields a) false false false.

(** [res.status(code).json({ message })] *)
Record Response : Type := mkResponse
  { code : Z;
    said : string }.

(** The server as the requests see it: the database, the number of clock
    readings made so far, the responses sent to cancel requests, and the
    cancel requests that passed their checks and wait for their [save],
    each with the document it loaded. *)
Record World : Type := mkWorld
  { database : Store;
    clock : nat;
    replies : list Response;
    cancelling : list (string * AnalysisDoc.t) }.

Definition respond (r : Response) (w : World) : World :=
  mkWorld (database w) (clock w) (replies w ++ [r])%list (cancelling w).

(** [n] more readings of the clock: [new Date()], [Date.now()] and the
    timestamps the database layer sets. *)
Definition read_clock (n : nat) (w : World) : World :=
  mkWorld (database w) (n + clock w) (replies w) (cancelling w).

(** The clock after a call that read it up to [tick] times in all. *)
Definition set_clock (tick : nat) (w : World) : World :=
  mkWorld (database w) tick (replies w) (cancelling w).

Definition store (db : Store) (w : World) : World :=
  mkWorld db (clock w) (replies w) (cancelling w).

(** [PUT /api/analysis/:id/cancel] by the user [user_id]. *)
Record CancelRequest : Type := mkCancelRequest
  { params_id : string;
    user_id : string }.

(** The handler of a cancel request up to its [save]: it loads the
    document and checks the access and the status. *)
Definition cancel_checks (req : CancelRequest) (w : World) : World :=
  match findById (params_id req) (database w) with
  | None => respond (mkResponse 404 "Analysis not found") w
  | Some analysis =>
      let d := fields analysis in
      if negb (AnalysisDoc.triggeredBy d =? user_id req)%string
         && negb (AnalysisDoc.owner d =? user_id req)%string
      then respond (mkResponse 403 "Access denied") w
      else if negb (AnalysisDoc.status d =? "pending")%string
              && negb (AnalysisDoc.status d =? "running")%string
      then respond (mkResponse 400 "Analysis cannot be cancelled") w
      else mkWorld (database w) (clock w) (replies w)
                   (cancelling w ++ [(params_id req, d)])%list
  end.

(** The rest of the handler, for the request at index [n] of those
    waiting: [analysis.status = 'cancelled'] on the instance it loaded, the
    [save], and the response. *)
Definition cancel_saves (n : nat) (w : World) : World :=
  match nth_error (cancelling w) n with
  | None => w
  | Some (id, d) =>
      let analysis := set_status "cancelled" (mkLoaded d false false false) in
      respond (mkResponse 200 "Analysis cancelled")
              (mkWorld (save id analysis (database w)) (clock w) (replies w)
                       (firstn n (cancelling w) ++ skipn (S n) (cancelling w))%list)
  end.

(** What the server does for others while the background run waits: a
    cancel request arrives and is checked, or the save of a checked one
    completes. *)
Inductive Event : Type :=
| Arrives (req : CancelRequest)
| Saves (n : nat).

Definition handle (e : Event) (w : World) : World :=
  match e with
  | Arrives req => cancel_checks req w
  | Saves n => cancel_saves n w
  end.

(** What the background run takes from [GitHubService]: the paths of the
    blobs of the repository tree, and the content of a file; either call
    may throw. *)
Record GitHub : Type := mkGitHub
  { getRepositoryTree : result (list string);
    getFileContent : string -> result string }.

(** The places where the background run waits for the database or for
    GitHub, in the order of the code; [Fetching k] and [Saving k] belong to
    the file at index [k], [Reloading] and [Failing] to the [catch] block.
    While the run waits, the server handles other requests. *)
Inductive Await : Type :=
| Loading
| Starting
| Listing
| Counting
| Scoping
| Fetching (k : nat)
| Saving (k : nat)
| Updating
| Finishing
| Reloading
| Failing.

(** [const analysisEngine = new AnalysisEngine()] of the analysis routes. *)
Definition analysisEngine : AnalysisEngine := new_AnalysisEngine.

(** The [language] argument of [analyzeFile], which may be [null]: the
    engine compares it with the names it knows, and [null] differs from
    each of them, as the name [null] does. *)
Definition language_name (language : option string) : string :=
  match language with
  | Some name => name
  | None => "null"
  end.

(** The locals of the loop of [startAnalysis] and the world around it. *)
Module Job.
Record t : Type := mk
  { analysis : Loaded;
    totalLines : Z;
    processedFiles : Z;
    world : World }.
End Job.

Section Background.
Variable host : Host.
Variable github : GitHub.

(** What the server does for others while the run waits at a place, and
    the number of clock readings made from the place before up to the end
    of this wait, by the run's own timestamps and by the requests
    handled. *)
Variable others : Await -> list Event.
Variable readings : Await -> nat.

Definition await (p : Await) (w : World) : World :=
  read_clock (readings p) (fold_left (fun w e => handle e w) (others p) w).

(** The predicate of [files.filter(...)]. *)
Definition source_file (analysis : Loaded) (path : string) : bool :=
  match getLanguageFromFile host analysisEngine path with
  | Some language =>
      negb (language =? "")%string
      && ((Z.of_nat (List.length (AnalysisDoc.excludePaths (fields analysis))) =? 0)
          || negb (existsb (includes path)
                           (AnalysisDoc.excludePaths (fields analysis))))
  | None => false
  end.

(** [results.summary.filesAnalyzed = processedFiles;
    results.summary.linesAnalyzed = totalLines] *)
Definition set_progress (processedFiles totalLines : Z) (r : AnalysisResults)
    : AnalysisResults :=
  let s := doc_summary r in
  mkResults (DocSummary.mk (DocSummary.totalIssues s) (DocSummary.criticalIssues s)
               (DocSummary.highIssues s) (DocSummary.mediumIssues s)
               (DocSummary.lowIssues s) processedFiles totalLines)
            (doc_issues r).

(** The body of the loop for the file at index [k], after the check of
    the status: an exception in its [try] block is logged and the loop
    goes on. *)
Definition analyze_file (analysisId : string) (k : nat) (path : string)
    (job : Job.t) : Job.t :=
  let analysis := Job.analysis job in
  let w := await (Fetching k) (Job.world job) in
  match getFileContent github path with
  | Throw _ =>
      Job.mk analysis (Job.totalLines job) (Job.processedFiles job) w
  | Ok content =>
      let language :=
        language_name (getLanguageFromFile host analysisEngine path) in
      match analyzeFile host analysisEngine path content language (clock w) with
      | (Throw _, tick) =>
          Job.mk analysis (Job.totalLines job) (Job.processedFiles job)
                 (set_clock tick w)
      | (Ok fileAnalysis, tick) =>
          let w := set_clock tick w in
          let results :=
            fold_left addIssue (found_issues fileAnalysis)
                      (AnalysisDoc.results (fields analysis)) in
          let totalLines :=
            Job.totalLines job + Metrics.lines (found_metrics fileAnalysis) in
          let processedFiles := Job.processedFiles job + 1 in
          let analysis :=
            set_results (set_progress processedFiles totalLines results)
                        analysis in
          if processedFiles mod 10 =? 0
          then Job.mk (saved analysis) totalLines processedFiles
                      (await (Saving k)
                             (store (save analysisId analysis (database w)) w))
          else Job.mk analysis totalLines processedFiles w
      end
  end.

(** [for (const file of sourceFiles) { if (analysis.status === 'cancelled')
    break; ... }]: the status read is that of the instance the run
    loaded. *)
Fixpoint analyze_files (analysisId : string) (k : nat) (sourceFiles : list string)
    (job : Job.t) : Job.t :=
  match sourceFiles with
  | [] => job
  | path :: rest =>
      if (AnalysisDoc.status (fields (Job.analysis job)) =? "cancelled")%string
      then job
      else analyze_files analysisId (S k) rest
                         (analyze_file analysisId k path job)
  end.

(** The [catch] block of [startAnalysis]. *)
Definition startAnalysis_catch (analysisId : string) (w : World) : World :=
  match findById analysisId (database w) with
  | None => await Reloading w
  | Some analysis =>
      let w := await Reloading w in
      let analysis := set_status "failed" analysis in
      await Failing (store (save analysisId analysis (database w)) w)
  end.

(** [startAnalysis(analysisId, user, repository)] *)
Definition startAnalysis (analysisId : string) (w : World) : World :=
  match findById analysisId (database w) with
  | None => await Loading w
  | Some analysis =>
      let w := await Loading w in
      let analysis := set_status "running" analysis in
      let w := await Starting (store (save analysisId analysis (database w)) w) in
      let analysis := saved analysis in
      match getRepositoryTree github with
      | Throw _ => startAnalysis_catch analysisId (await Listing w)
      | Ok files =>
          let w := await Listing w in
          let w :=
            await Counting (store (save analysisId analysis (database w)) w) in
          let analysis := saved analysis in
          let sourceFiles := filter (source_file analysis) files in
          let analysis := set_files sourceFiles analysis in
          let w :=
            await Scoping (store (save analysisId analysis (database w)) w) in
          let analysis := saved analysis in
          let job :=
            analyze_files analysisId 0 sourceFiles (Job.mk analysis 0 0 w) in
          let analysis := Job.analysis job in
          let w := Job.world job in
          if negb (AnalysisDoc.status (fields analysis) =? "cancelled")%string
          then
            let analysis := set_status "completed" analysis in
            let w := await Updating w in
            await Finishing (store (save analysisId analysis (database w)) w)
          else
            await Finishing (store (save analysisId analysis (database w)) w)
      end
  end.
End Background.

(** A database with one pending analysis [a1] that the user [u1] started,
    a repository of three script files and a readme, and the user's request
    to cancel [a1], which the server handles while the run waits for the
    content of the second script (the source file at index 1). *)
Definition sample_store : Store :=
  [("a1", AnalysisDoc.mk "u1" "u1" "pending" [] [] fresh_results)].

Definition sample_github : GitHub :=
  {| getRepositoryTree := Ok ["a.js"; "README.md"; "b.js"; "c.js"];
     getFileContent := fun _ => Ok "" |}.

Definition sample_world : World := mkWorld sample_store 0 [] [].

Definition cancel_during_second (p : Await) : list Event :=
  match p with
  | Fetching 1 => [Arrives (mkCancelRequest "a1" "u1"); Saves 0]
  | _ => []
  end.

(** Two stored documents that differ at most in their [status], which is
    all that a cancel request writes. *)
Definition same_but_status (d d' : AnalysisDoc.t) : Prop :=
  AnalysisDoc.triggeredBy d = AnalysisDoc.triggeredBy d'
  /\ AnalysisDoc.owner d = AnalysisDoc.owner d'
  /\ AnalysisDoc.excludePaths d = AnalysisDoc.excludePaths d'
  /\ AnalysisDoc.files d = AnalysisDoc.files d'
  /\ AnalysisDoc.results d = AnalysisDoc.results d'.

(** Two databases hold the analysis [id] up to its status, at the same
    time of the clock. *)
Definition alike (id : string) (w w' : World) : Prop :=
  clock w = clock w'
  /\ match findById id (database w), findById id (database w') with
     | Some a, Some a' => same_but_status (fields a) (fields a')
     | None, None => True
     | _, _ => False
     end.


(** The source files whose content GitHub returns. *)
Definition fetched (github : GitHub) (paths : list string) : list string :=
  filter (fun path => match getFileContent github path with
                      | Ok _ => true
                      | Throw _ => false
                      end)
         paths.

(** * Properties *)

(** ** Induction over trees *)

Lemma value_nested_ind (P : value -> Prop)
    (Hundef : P VUndefined) (Hnull : P VNull)
    (Hbool : forall b, P (VBool b)) (Hnum : forall n, P (VNum n))
    (Hstr : forall s, P (VStr s))
    (Harr : forall elems, Forall P elems -> P (VArr elems))
    (Hobj : forall props, Forall (fun kv => P (snd kv)) props -> P (VObj props))
    : forall v, P v.
Proof.
  exact (fix go (v : value) : P v :=
    match v with
    | VUndefined => Hundef
    | VNull => Hnull
    | VBool b => Hbool b
    | VNum n => Hnum n
    | VStr s => Hstr s
    | VArr elems =>
        Harr elems
          ((fix all (l : list value) : Forall P l :=
              match l with
              | [] => Forall_nil P
              | x :: l' => Forall_cons x (go x) (all l')
              end) elems)
    | VObj props =>
        Hobj props
          ((fix all (l : list (string * value))
              : Forall (fun kv => P (snd kv)) l :=
              match l with
              | [] => Forall_nil _
              | kv :: l' => Forall_cons kv (go (snd kv)) (all l')
              end) props)
    end).
Qed.

(** The values held by an array or by the properties of an object. *)
Definition held_by (c v : value) : Prop :=
  match v with
  | VArr elems => In c elems
  | VObj props => exists key, In (key, c) props
  | _ => False
  end.

(** The walker steps from a node to what it holds, and from an array held
    there to its elements: induction two levels deep. *)
Lemma value_walk_ind (P : value -> Prop) :
  (forall v,
      (forall c, held_by c v -> P c) ->
      (forall c d, held_by c v -> held_by d c -> P d) ->
      P v) ->
  forall v, P v.
Proof.
  intros step.
  assert (both : forall v, P v /\ (forall c, held_by c v -> P c)).
  { induction v using value_nested_ind;
      try (split; [apply step; simpl; tauto | simpl; tauto]).
    - rewrite Forall_forall in H.
      assert (below : forall c, held_by c (VArr elems) -> P c)
        by (intros c Hc; exact (proj1 (H c Hc))).
      split; [| exact below].
      apply step; [exact below |].
      intros c d Hc Hd. apply (proj2 (H c Hc) d Hd).
    - rewrite Forall_forall in H.
      assert (below : forall c, held_by c (VObj props) -> P c)
        by (intros c [key Hc]; exact (proj1 (H (key, c) Hc))).
      split; [| exact below].
      apply step; [exact below |].
      intros c d [key Hc] Hd. apply (proj2 (H (key, c) Hc) d Hd). }
  intros v. apply both.
Qed.

(** ** The walker runs the callback on [visits], in order *)

Section WalkerFacts.
Context {St : Type}.
Variable callback : Visit -> St -> result St.

Lemma run_callbacks_app (l1 l2 : list Visit) (s : St) :
  run_callbacks callback (l1 ++ l2) s =
  (s' <- run_callbacks callback l1 s ;; run_callbacks callback l2 s').
Proof.
  revert s. induction l1 as [| v l1 IH]; intros s; simpl; [reflexivity |].
  destruct (callback v s); simpl; [apply IH | reflexivity].
Qed.

Lemma for_of_visits (body : nat -> value -> St -> result St)
    (f : nat -> value -> list Visit) (arr : list value) :
  (forall i c s, In c arr -> body i c s = run_callbacks callback (f i c) s) ->
  forall i s, for_of body i arr s = run_callbacks callback (flat_mapi f i arr) s.
Proof.
  induction arr as [| c arr IH]; intros Hbody i s; simpl; [reflexivity |].
  rewrite run_callbacks_app, Hbody by (left; reflexivity).
  destruct (run_callbacks callback (f i c) s); simpl; [| reflexivity].
  apply IH. intros j d t Hd. apply Hbody. right; exact Hd.
Qed.

Lemma for_in_visits (body : string -> value -> St -> result St)
    (f : string -> value -> list Visit) (props : list (string * value)) :
  (forall key v s, In (key, v) props ->
                   body key v s = run_callbacks callback (f key v) s) ->
  forall s, for_in body props s =
            run_callbacks callback (flat_map (fun '(key, v) => f key v) props) s.
Proof.
  induction props as [| [key v] props IH]; intros Hbody s; simpl;
    [reflexivity |].
  rewrite run_callbacks_app, Hbody by (left; reflexivity).
  destruct (run_callbacks callback (f key v) s); simpl; [| reflexivity].
  apply IH. intros k w t Hw. apply Hbody. right; exact Hw.
Qed.

Lemma traverse_property_visits (n : value) (key : string) (v : value) :
  (forall c p h s, held_by c v ->
      traverseAST callback c p h s = run_callbacks callback (visits c p h) s) ->
  (forall p h s,
      traverseAST callback v p h s = run_callbacks callback (visits v p h) s) ->
  forall s,
    traverse_property (traverseAST callback) n key v s =
    run_callbacks callback (property_visits visits n key v) s.
Proof.
  intros Hbelow Hv s. unfold traverse_property, property_visits.
  destruct (key =? "parent")%string; [reflexivity |].
  destruct v; try reflexivity.
  - apply for_of_visits. intros i c t Hc.
    destruct (is_object c); [| reflexivity].
    apply Hbelow. exact Hc.
  - destruct (truthy (prop (VObj props) "type")); [apply Hv | reflexivity].
Qed.

(** [traverseAST] calls the callback on the nodes of [visits], first to
    last, threading the callback's state and stopping at its first throw. *)
Lemma traverseAST_visits (n : value) :
  forall p h s,
    traverseAST callback n p h s = run_callbacks callback (visits n p h) s.
Proof.
  induction n as [n IH1 IH2] using value_walk_ind.
  intros p h s. destruct n; try reflexivity.
  - simpl. destruct (callback _ s); simpl; [| reflexivity].
    apply for_of_visits. intros i c t Hc.
    apply traverse_property_visits.
    + intros d q k u Hd. apply (IH2 c d Hc Hd).
    + apply (IH1 c Hc).
  - simpl. destruct (callback _ s); simpl; [| reflexivity].
    apply (for_in_visits _ (property_visits visits (VObj props))).
    intros key v t Hv.
    apply traverse_property_visits.
    + intros d q k u Hd. apply (IH2 v d (ex_intro _ key Hv) Hd).
    + apply (IH1 v (ex_intro _ key Hv)).
Qed.
End WalkerFacts.

(** ** The shape of [visits] *)

Lemma in_flat_mapi {A B : Type} (f : nat -> A -> list B) (l : list A) (x : B) :
  forall i,
    In x (flat_mapi f i l) <->
    exists j a, nth_error l j = Some a /\ In x (f (i + j)%nat a).
Proof.
  induction l as [| a l IH]; intros i; simpl.
  - split; [contradiction |]. intros (j & b & Hj & _). destruct j; discriminate.
  - rewrite in_app_iff, IH. split.
    + intros [Hx | (j & b & Hj & Hx)].
      * exists 0%nat, a. rewrite Nat.add_0_r. split; [reflexivity | exact Hx].
      * exists (S j), b. rewrite Nat.add_succ_r. split; assumption.
    + intros (j & b & Hj & Hx). destruct j as [| j]; simpl in Hj.
      * injection Hj as ->. rewrite Nat.add_0_r in Hx. left; exact Hx.
      * right. exists j, b. rewrite Nat.add_succ_r in Hx. split; assumption.
Qed.

Lemma visits_head (c : value) (p : option value) (h : place) :
  is_object c = true -> In (mkVisit c p h) (visits c p h).
Proof. destruct c; simpl; intros H; try discriminate; left; reflexivity. Qed.

Lemma in_property_visits (r : Visit) (n : value) (key : string) (v : value) :
  In r (property_visits visits n key v) <->
  (key =? "parent")%string = false
  /\ ((exists children i c,
          v = VArr children /\ nth_error children i = Some c
          /\ is_object c = true
          /\ In r (visits c (Some n) (Some (key, Some i))))
      \/ (exists props,
             v = VObj props /\ truthy (prop v "type") = true
             /\ In r (visits v (Some n) (Some (key, None))))).
Proof.
  unfold property_visits.
  destruct (key =? "parent")%string.
  { split; [contradiction | intros [H _]; discriminate]. }
  split.
  - intros Hr. split; [reflexivity |]. destruct v; try contradiction.
    + left. apply in_flat_mapi in Hr as (j & c & Hj & Hr). simpl in Hr.
      destruct (is_object c) eqn:Hc; [| contradiction].
      exists elems, j, c. repeat split; assumption.
    + right. destruct (truthy (prop (VObj props) "type")) eqn:Ht;
        [| contradiction].
      exists props. repeat split; assumption.
  - intros [_ [(children & i & c & -> & Hi & Hc & Hr) | (props & -> & Ht & Hr)]].
    + apply in_flat_mapi. exists i, c. split; [exact Hi |].
      simpl. rewrite Hc. exact Hr.
    + rewrite Ht. exact Hr.
Qed.

Lemma in_visits (r : Visit) (n : value) (p : option value) (h : place) :
  In r (visits n p h) <->
  is_object n = true
  /\ (r = mkVisit n p h
      \/ exists key v, holds n key v /\ In r (property_visits visits n key v)).
Proof.
  destruct n; simpl; try (split; [contradiction | intros [H _]; discriminate]).
  - rewrite in_flat_mapi. split.
    + intros [<- | (j & v & Hj & Hr)]; (split; [reflexivity |]);
        [left; reflexivity |].
      right. exists (index_key j), v. split; [| exact Hr]. exists j. split; auto.
    + intros [_ [-> | (key & v & (j & Hj & ->) & Hr)]]; [left; reflexivity |].
      right. exists j, v. split; assumption.
  - rewrite in_flat_map. split.
    + intros [<- | ([key v] & Hin & Hr)]; (split; [reflexivity |]);
        [left; reflexivity |].
      right. exists key, v. split; assumption.
    + intros [_ [-> | (key & v & Hin & Hr)]]; [left; reflexivity |].
      right. exists (key, v). split; assumption.
Qed.

(** The visited nodes are closed under the child links. *)
Lemma visits_closed (n : value) :
  forall p h r0 r,
    In r0 (visits n p h) -> child_link r0 r -> In r (visits n p h).
Proof.
  induction n as [n IH1 IH2] using value_walk_ind.
  intros p h r0 r Hr0 Hlink.
  apply in_visits in Hr0 as [Hobj [-> | (key & v & Hholds & Hr0)]].
  - (* the link leaves the root itself *)
    apply in_visits. split; [exact Hobj |]. right.
    destruct Hlink as [key children i c Hholds Hkey Hi Hc
                      | key props Hholds Hkey Ht]; simpl in *.
    + exists key, (VArr children). split; [exact Hholds |].
      apply in_property_visits. split; [exact Hkey |]. left.
      exists children, i, c. repeat split; try assumption.
      apply visits_head, Hc.
    + exists key, (VObj props). split; [exact Hholds |].
      apply in_property_visits. split; [exact Hkey |]. right.
      exists props. repeat split; try assumption.
      apply visits_head. reflexivity.
  - (* the link lies below a property of the root *)
    apply in_visits. split; [exact Hobj |]. right. exists key, v.
    split; [exact Hholds |].
    assert (Hheld : held_by v n).
    { destruct n; simpl in *; try contradiction.
      - destruct Hholds as (j & Hj & _). eapply nth_error_In, Hj.
      - exists key. exact Hholds. }
    apply in_property_visits in Hr0
      as [Hkey [(children & i & c & -> & Hi & Hc & Hr0)
               | (props & -> & Ht & Hr0)]];
      apply in_property_visits; (split; [exact Hkey |]).
    + left. exists children, i, c. repeat split; try assumption.
      apply (IH2 (VArr children) c Hheld) with (r0 := r0);
        [| exact Hr0 | exact Hlink].
      simpl. eapply nth_error_In, Hi.
    + right. exists props. repeat split; try assumption.
      apply (IH1 _ Hheld) with (r0 := r0); assumption.
Qed.

Lemma reaches_trans (a b c : Visit) :
  reaches a b -> reaches b c -> reaches a c.
Proof.
  intros Hab Hbc. induction Hbc as [| r0 r _ IH Hlink]; [exact Hab |].
  apply (reach_step a r0 r IH Hlink).
Qed.

(** Every visited node is reached from the root by child links. *)
Lemma visits_reached (n : value) :
  forall p h r, In r (visits n p h) -> reaches (mkVisit n p h) r.
Proof.
  induction n as [n IH1 IH2] using value_walk_ind.
  intros p h r Hr.
  apply in_visits in Hr as [Hobj [-> | (key & v & Hholds & Hin)]];
    [apply reach_root |].
  assert (Hheld : held_by v n).
  { destruct n; simpl in *; try contradiction.
    - destruct Hholds as (j & Hj & _). eapply nth_error_In, Hj.
    - exists key. exact Hholds. }
  apply in_property_visits in Hin
    as [Hkey [(children & i & c & -> & Hi & Hc & Hin)
             | (props & -> & Ht & Hin)]].
  - apply (reaches_trans _ (mkVisit c (Some n) (Some (key, Some i)))).
    + apply (reach_step _ (mkVisit n p h)); [apply reach_root |].
      apply (link_element (mkVisit n p h) key children i c); assumption.
    + apply (IH2 (VArr children) c Hheld); [| exact Hin].
      simpl. eapply nth_error_In, Hi.
  - apply (reaches_trans _ (mkVisit (VObj props) (Some n) (Some (key, None)))).
    + apply (reach_step _ (mkVisit n p h)); [apply reach_root |].
      apply (link_direct (mkVisit n p h) key props); assumption.
    + apply (IH1 _ Hheld); exact Hin.
Qed.

(** The walker visits exactly the nodes the child links reach from the
    root. *)
Lemma walk_reaches (ast : value) (r : Visit) :
  In r (walk ast) <->
  is_object ast = true /\ reaches (mkVisit ast None None) r.
Proof.
  unfold walk. split.
  - intros Hr. split; [| apply visits_reached, Hr].
    apply in_visits in Hr as [Hobj _]. exact Hobj.
  - intros [Hobj Hreach].
    induction Hreach as [| r0 r _ IH Hlink]; [apply visits_head, Hobj |].
    apply (visits_closed ast None None r0 r IH Hlink).
Qed.

(** The [parent] of a visited node is a visited node. *)
Lemma parent_visited (ast : value) (r : Visit) (q : value) :
  In r (walk ast) -> parent r = Some q -> In q (nodes ast).
Proof.
  intros Hr Hq. pose proof Hr as Hwalk.
  apply walk_reaches in Hr as [Hobj Hreach].
  destruct Hreach as [| r0 r Hreach Hlink]; [discriminate |].
  unfold nodes. apply in_map_iff. exists r0. split.
  - destruct Hlink; simpl in Hq; congruence.
  - apply walk_reaches. split; assumption.
Qed.

(** ** Reading properties and positions *)

Lemma get_present (v : value) (key : string) :
  nullish v = false -> get v key = Ok (prop v key).
Proof. destruct v; simpl; intros H; try discriminate; reflexivity. Qed.

Lemma truthy_present (v : value) : truthy v = true -> nullish v = false.
Proof. destruct v; simpl; intros H; try discriminate; reflexivity. Qed.

Lemma falsy_has_no_property (v : value) (key : string) :
  truthy v = false -> (key =? "length")%string = false ->
  prop v key = VUndefined.
Proof.
  destruct v; simpl; intros H Hkey; try discriminate; try reflexivity.
  rewrite Hkey. reflexivity.
Qed.

Lemma located_start (n : value) :
  located n = true ->
  line_of n = Ok (line n) /\ column_of n = Ok (column n).
Proof.
  unfold located, line_of, column_of, start_of, line, column.
  intros H. apply andb_prop in H as [H Hstart]. apply andb_prop in H as [Hn Hloc].
  apply negb_true_iff in Hn, Hloc, Hstart.
  rewrite (get_present n "loc" Hn). simpl.
  rewrite (get_present _ "start" Hloc). simpl.
  rewrite !(get_present _ _ Hstart). split; reflexivity.
Qed.

(** ** Cyclomatic complexity *)

Lemma complexity_callback_decision (v : Visit) (c : Z) :
  complexity_callback v c = Ok (if decision_point (node v) then c + 1 else c).
Proof.
  unfold complexity_callback, decision_point. cbn [existsb].
  repeat match goal with
         | |- context [type_is (node v) ?lit] =>
             destruct (type_is (node v) lit); cbn [orb andb]; try reflexivity
         end.
  repeat match goal with
         | |- context [is_str ?x ?lit] =>
             destruct (is_str x lit); cbn [orb andb]; try reflexivity
         end.
Qed.

Lemma run_complexity_callbacks (vs : list Visit) (c : Z) :
  run_callbacks complexity_callback vs c =
  Ok (c + Z.of_nat (List.length (filter decision_point (map node vs)))).
Proof.
  revert c. induction vs as [| v vs IH]; intros c; simpl.
  - f_equal. lia.
  - rewrite complexity_callback_decision. simpl. rewrite IH.
    destruct (decision_point (node v)); simpl; f_equal; lia.
Qed.

Lemma calculateComplexity_total (ast : value) :
  calculateComplexity ast = Ok (complexity_of ast).
Proof.
  unfold calculateComplexity, complexity_of, nodes, walk.
  rewrite traverseAST_visits. apply run_complexity_callbacks.
Qed.

(** C2: the complexity [calculateComplexity] returns is 1 plus the number of
    nodes of the tree that are decision points (an [if], a ternary, a
    [switch] case, a loop of any kind, a [catch] clause, a logical
    expression with [&&] or [||]), the nodes of the tree being what the
    child links reach from its root; it is at least 1 for every tree; and
    twelve independent [if] statements give 13. *)
Theorem calculateComplexity_counts_decision_points :
  (forall ast,
      calculateComplexity ast =
      Ok (1 + Z.of_nat (List.length (filter decision_point (nodes ast)))))
  /\ (forall ast n,
         In n (nodes ast) <->
         is_object ast = true
         /\ exists r, reaches (mkVisit ast None None) r /\ node r = n)
  /\ (forall ast, exists c, calculateComplexity ast = Ok c /\ 1 <= c)
  /\ List.length (filter decision_point (nodes Sample.twelve_ifs)) = 12%nat
  /\ calculateComplexity Sample.twelve_ifs = Ok 13.
Proof.
  split; [exact calculateComplexity_total |].
  split.
  { intros ast n. unfold nodes. rewrite in_map_iff. split.
    - intros (r & Hn & Hr). apply walk_reaches in Hr as [Hobj Hreach].
      split; [exact Hobj |]. exists r. split; assumption.
    - intros (Hobj & r & Hreach & Hn). exists r. split; [exact Hn |].
      apply walk_reaches. split; assumption. }
  split.
  - intros ast. exists (complexity_of ast).
    split; [apply calculateComplexity_total | unfold complexity_of; lia].
  - split; reflexivity.
Qed.

(** ** The complexity analyzer *)

Lemma analyzeComplexity_run (host : Host) (this : AnalysisEngine)
    (ast : value) (filePath : string) (f : Frame) :
  analyzeComplexity host this ast filePath f =
  if above (complexity_of ast) (Rule.threshold (Rules.complexity (rules this)))
  then (Ok [complexity_issue this filePath (complexity_of ast)
                             (Date_now host (ticks f))],
        mkFrame (issues f) (metrics f) (S (ticks f)))
  else (Ok [], f).
Proof.
  unfold analyzeComplexity, then_, lift.
  rewrite calculateComplexity_total.
  destruct (above _ _); reflexivity.
Qed.

(** C3: the complexity of a tree is one more than the number of its
    decision points, and the complexity analyzer emits a complexity issue if
    and only if this number exceeds the threshold of the complexity rule,
    which is 10 in the engine as constructed; the emitted issue is the only
    one, reports this complexity, lies at line 1, and is of severity [high]
    above 20 and [medium] otherwise. *)
Theorem analyzeComplexity_emits_iff_above_threshold :
  Rule.threshold (Rules.complexity (rules new_AnalysisEngine)) = Some 10
  /\ forall host this ast filePath f,
      let c := 1 + Z.of_nat (List.length (filter decision_point (nodes ast))) in
      calculateComplexity ast = Ok c
      /\ exists found f',
          analyzeComplexity host this ast filePath f = (Ok found, f')
          /\ ((exists issue, In issue found)
              <-> above c (Rule.threshold (Rules.complexity (rules this))) = true)
          /\ (forall limit,
                 Rule.threshold (Rules.complexity (rules this)) = Some limit ->
                 (exists issue, In issue found) <-> limit < c)
          /\ (List.length found <= 1)%nat
          /\ (forall issue,
                 In issue found ->
                 issue = complexity_issue this filePath c (Date_now host (ticks f))
                 /\ Issue.type issue = "complexity"
                 /\ Location.line (Issue.file issue) = VNum 1
                 /\ Issue.severity issue = (if 20 <? c then "high" else "medium"))
          /\ issues f' = issues f /\ metrics f' = metrics f.
Proof.
  split; [reflexivity |].
  intros host this ast filePath f c.
  assert (Hc : c = complexity_of ast) by reflexivity.
  split; [rewrite Hc; apply calculateComplexity_total |].
  pose proof (analyzeComplexity_run host this ast filePath f) as Hrun.
  rewrite <- Hc in Hrun. clearbody c.
  destruct (above c _) eqn:Habove.
  - eexists _, _. split; [exact Hrun |].
    split; [split; [reflexivity | intros _; eexists; left; reflexivity] |].
    split.
    { intros limit Hlimit. rewrite Hlimit in Habove. simpl in Habove.
      apply Z.ltb_lt in Habove.
      split; [intros _; exact Habove | intros _; eexists; left; reflexivity]. }
    split; [simpl; lia |].
    split; [| split; reflexivity].
    intros issue [<- | []]. repeat split.
  - eexists _, _. split; [exact Hrun |].
    split; [split; [intros [issue []] | discriminate] |].
    split.
    { intros limit Hlimit. rewrite Hlimit in Habove. simpl in Habove.
      apply Z.ltb_ge in Habove.
      split; [intros [issue []] | lia]. }
    split; [simpl; lia |].
    split; [| split; reflexivity].
    intros issue [].
Qed.

(** ** The file orchestrator *)

Lemma run_counting (p : value -> bool) (vs : list Visit) (c : Z) :
  run_callbacks (fun v count => if p (node v) then Ok (count + 1) else Ok count)
                vs c =
  Ok (c + Z.of_nat (List.length (filter p (map node vs)))).
Proof.
  revert c. induction vs as [| v vs IH]; intros c; simpl.
  - f_equal. lia.
  - destruct (p (node v)); simpl; rewrite IH; f_equal; simpl; lia.
Qed.

Lemma countFunctions_total (ast : value) :
  countFunctions ast = Ok (count_of function_like ast).
Proof.
  unfold countFunctions. rewrite traverseAST_visits.
  apply (run_counting function_like).
Qed.

Lemma countClasses_total (ast : value) :
  countClasses ast = Ok (count_of class_like ast).
Proof.
  unfold countClasses. rewrite traverseAST_visits.
  apply (run_counting class_like).
Qed.

(** What a call of [analyzeFile] does, case by case: the parser throws; it
    returns a falsy tree; an analyzer throws after others have pushed their
    issues; nothing throws. *)
Lemma analyzeFile_run_cases (host : Host) (this : AnalysisEngine)
    (filePath content language : string) (tick : nat) :
  analyzeFile_run host this filePath content language tick =
  match parseFile host content language with
  | Throw e =>
      (Ok tt, mkFrame [parse_error_issue filePath e (Date_now host tick)]
                      (initial_metrics content) (S tick))
  | Ok ast =>
      if truthy ast
      then
        let (first, tick1) := complexity_findings host this ast filePath tick in
        match until_throw [ analyzeSecurity ast filePath language;
                            analyzePerformance host ast filePath language;
                            analyzeBugs ast filePath language ] with
        | (found, Some e) =>
            (Ok tt,
             mkFrame (first ++ found
                      ++ [parse_error_issue filePath e (Date_now host tick1)])%list
                     (initial_metrics content) (S tick1))
        | (found, None) =>
            (Ok tt,
             mkFrame (first ++ found)%list
                     (Metrics.mk (complexity_of ast)
                                 (Metrics.lines (initial_metrics content))
                                 (count_of function_like ast)
                                 (count_of class_like ast))
                     tick1)
        end
      else (Ok tt, mkFrame [] (initial_metrics content) tick)
  end.
Proof.
  unfold analyzeFile_run, try_catch, analyzeFile_try, analyzeFile_catch,
    complexity_findings, then_, lift, now, push, set_metrics, ret.
  destruct (parseFile host content language) as [ast | e]; [| reflexivity].
  destruct (truthy ast); [| reflexivity].
  rewrite analyzeComplexity_run.
  rewrite calculateComplexity_total, countFunctions_total, countClasses_total.
  destruct (above _ _);
    destruct (analyzeSecurity ast filePath language);
    destruct (analyzePerformance host ast filePath language);
    destruct (analyzeBugs ast filePath language);
    cbn; rewrite ?app_nil_r, <- ?app_assoc; reflexivity.
Qed.

(** [analyzeFile] returns for every input: no exception leaves it. *)
Lemma analyzeFile_returns (host : Host) (this : AnalysisEngine)
    (filePath content language : string) (tick : nat) :
  exists f,
    analyzeFile_run host this filePath content language tick = (Ok tt, f)
    /\ analyzeFile host this filePath content language tick =
       (Ok (mkAnalysis (issues f) (metrics f)), ticks f).
Proof.
  unfold analyzeFile. rewrite analyzeFile_run_cases.
  destruct (parseFile host content language) as [ast | e];
    [| eexists; split; reflexivity].
  destruct (truthy ast); [| eexists; split; reflexivity].
  destruct (complexity_findings host this ast filePath tick) as [first tick1].
  destruct (until_throw _) as [found [e |]]; eexists; split; reflexivity.
Qed.

Lemma split_lines_length (s : string) :
  List.length (split_lines s) = S (count_newlines s).
Proof.
  induction s as [| c s IH]; [reflexivity |].
  simpl. destruct (Ascii.eqb c "010"%char); simpl.
  - rewrite IH. reflexivity.
  - destruct (split_lines s); simpl in *; [discriminate | exact IH].
Qed.

(** C1: when the parser throws, [analyzeFile] returns exactly one issue, of
    type [bug], severity [high] and rule [parse-error], at line 1 column 1,
    whose description ends with the message of the error; the metrics
    report zero complexity, functions and classes, and the number of
    newline-separated lines of the content. *)
Theorem analyzeFile_parse_failure (host : Host) (this : AnalysisEngine)
    (filePath content language : string) (tick : nat) (error : Error) :
  parseFile host content language = Throw error ->
  exists issue analysis tick',
    analyzeFile host this filePath content language tick = (Ok analysis, tick')
    /\ found_issues analysis = [issue]
    /\ Issue.type issue = "bug"
    /\ Issue.severity issue = "high"
    /\ Rule.id (Issue.rule issue) = "parse-error"
    /\ Location.path (Issue.file issue) = filePath
    /\ Location.line (Issue.file issue) = VNum 1
    /\ Location.column (Issue.file issue) = VNum 1
    /\ Issue.description issue = "Failed to parse file: " ++ message error
    /\ Metrics.complexity (found_metrics analysis) = 0
    /\ Metrics.functions (found_metrics analysis) = 0
    /\ Metrics.classes (found_metrics analysis) = 0
    /\ Metrics.lines (found_metrics analysis)
       = Z.of_nat (List.length (split_lines content))
    /\ Metrics.lines (found_metrics analysis)
       = Z.of_nat (count_newlines content) + 1.
Proof.
  intros Hparse.
  unfold analyzeFile. rewrite analyzeFile_run_cases, Hparse.
  eexists _, _, _. split; [reflexivity |].
  cbn. repeat (split; [reflexivity |]).
  rewrite split_lines_length. lia.
Qed.

Lemma analyzeFile_parse_failure_witness :
  exists issue analysis tick',
    analyzeFile (Sample.host_rejecting "Unexpected token") new_AnalysisEngine
                "a.js" "let = ;" "javascript" 0 = (Ok analysis, tick')
    /\ found_issues analysis = [issue]
    /\ Issue.type issue = "bug"
    /\ Issue.severity issue = "high"
    /\ Rule.id (Issue.rule issue) = "parse-error"
    /\ Location.path (Issue.file issue) = "a.js"
    /\ Location.line (Issue.file issue) = VNum 1
    /\ Location.column (Issue.file issue) = VNum 1
    /\ Issue.description issue = "Failed to parse file: Unexpected token"
    /\ Metrics.complexity (found_metrics analysis) = 0
    /\ Metrics.functions (found_metrics analysis) = 0
    /\ Metrics.classes (found_metrics analysis) = 0
    /\ Metrics.lines (found_metrics analysis)
       = Z.of_nat (List.length (split_lines "let = ;"))
    /\ Metrics.lines (found_metrics analysis)
       = Z.of_nat (count_newlines "let = ;") + 1.
Proof.
  apply (analyzeFile_parse_failure
           (Sample.host_rejecting "Unexpected token") new_AnalysisEngine
           "a.js" "let = ;" "javascript" 0 (mkError "Unexpected token")).
  reflexivity.
Defined.

(** ** Languages without expression-level detail *)

Lemma language_without_detail (language : string) :
  language <> "javascript" -> language <> "typescript" ->
  language_has_detail language = false.
Proof.
  intros Hjs Hts. unfold language_has_detail.
  apply String.eqb_neq in Hjs, Hts. rewrite Hjs, Hts. reflexivity.
Qed.

Lemma gated_analyzers_silent (host : Host) (ast : value)
    (filePath language : string) :
  language_has_detail language = false ->
  analyzeSecurity ast filePath language = Ok []
  /\ analyzePerformance host ast filePath language = Ok []
  /\ analyzeBugs ast filePath language = Ok [].
Proof.
  intros Hgate. unfold analyzeSecurity, analyzePerformance, analyzeBugs.
  rewrite Hgate. repeat split.
Qed.

(** Outside javascript and typescript a file yields no issue as long as the
    complexity threshold is not below the complexity 1 of the Python stub. *)
Lemma analyzeFile_without_detail (host : Host) (this : AnalysisEngine)
    (filePath content language : string) (tick : nat) :
  language <> "javascript" -> language <> "typescript" ->
  above 1 (Rule.threshold (Rules.complexity (rules this))) = false ->
  exists m,
    analyzeFile host this filePath content language tick =
    (Ok (mkAnalysis [] m), tick)
    /\ (language <> "python" -> Metrics.complexity m = 0).
Proof.
  intros Hjs Hts Hlimit.
  pose proof (language_without_detail language Hjs Hts) as Hgate.
  unfold analyzeFile. rewrite analyzeFile_run_cases.
  unfold parseFile.
  apply String.eqb_neq in Hjs, Hts. rewrite Hjs, Hts.
  destruct (language =? "python")%string eqn:Hpy.
  - cbn [truthy parsePython]. unfold complexity_findings.
    change (complexity_of (parsePython content)) with 1.
    rewrite Hlimit.
    destruct (gated_analyzers_silent host (parsePython content) filePath
                language Hgate) as (-> & -> & ->).
    eexists. split; [reflexivity |].
    apply String.eqb_eq in Hpy. intros Hne. contradiction.
  - cbn. eexists. split; [reflexivity |]. intros _. reflexivity.
Qed.

(** C10: for every language other than javascript and typescript,
    [analyzeFile] returns no issue whatever the content: Python parses to a
    fixed empty [Module], every other language to [null], for which no
    analyzer runs and the complexity stays 0.  The language resolver maps
    the extensions of python, java, go, rust and cpp to these languages. *)
Theorem analyzeFile_silent_outside_javascript (host : Host)
    (filePath content language : string) (tick : nat) :
  language <> "javascript" -> language <> "typescript" ->
  (exists m,
      analyzeFile host new_AnalysisEngine filePath content language tick =
      (Ok (mkAnalysis [] m), tick)
      /\ (language <> "python" -> Metrics.complexity m = 0))
  /\ (language = "python" ->
      parseFile host content language = Ok (parsePython "")
      /\ prop (parsePython "") "type" = VStr "Module"
      /\ prop (parsePython "") "body" = VArr [])
  /\ (language <> "python" -> parseFile host content language = Ok VNull)
  /\ (forall ext resolved,
         In (ext, resolved)
            [ (".py", "python"); (".java", "java"); (".go", "go");
              (".rs", "rust"); (".cpp", "cpp"); (".cc", "cpp");
              (".cxx", "cpp"); (".hpp", "cpp"); (".h", "cpp") ] ->
         toLowerCase host (path_extname host filePath) = ext ->
         getLanguageFromFile host new_AnalysisEngine filePath = Some resolved).
Proof.
  intros Hjs Hts.
  split; [apply analyzeFile_without_detail; [assumption | assumption | reflexivity] |].
  unfold parseFile.
  pose proof Hjs as Hjs'. pose proof Hts as Hts'.
  apply String.eqb_neq in Hjs', Hts'. rewrite Hjs', Hts'.
  split; [intros ->; repeat split |].
  split.
  - intros Hpy. apply String.eqb_neq in Hpy. rewrite Hpy. reflexivity.
  - intros ext resolved Hin Hext. unfold getLanguageFromFile. rewrite Hext.
    cbn in Hin.
    repeat (destruct Hin as [Hin | Hin];
            [injection Hin as <- <-; reflexivity |]).
    contradiction.
Qed.

Lemma analyzeFile_silent_outside_javascript_witness :
  (exists m,
      analyzeFile (Sample.host_parsing VNull [] "") new_AnalysisEngine
                  "main.go" "package main" "go" 0 =
      (Ok (mkAnalysis [] m), 0%nat)
      /\ ("go" <> "python" -> Metrics.complexity m = 0))
  /\ ("go" = "python" ->
      parseFile (Sample.host_parsing VNull [] "") "package main" "go"
      = Ok (parsePython "")
      /\ prop (parsePython "") "type" = VStr "Module"
      /\ prop (parsePython "") "body" = VArr [])
  /\ ("go" <> "python" ->
      parseFile (Sample.host_parsing VNull [] "") "package main" "go" = Ok VNull)
  /\ (forall ext resolved,
         In (ext, resolved)
            [ (".py", "python"); (".java", "java"); (".go", "go");
              (".rs", "rust"); (".cpp", "cpp"); (".cc", "cpp");
              (".cxx", "cpp"); (".hpp", "cpp"); (".h", "cpp") ] ->
         toLowerCase (Sample.host_parsing VNull [] "")
                     (path_extname (Sample.host_parsing VNull [] "") "main.go")
         = ext ->
         getLanguageFromFile (Sample.host_parsing VNull [] "")
                             new_AnalysisEngine "main.go" = Some resolved).
Proof.
  apply (analyzeFile_silent_outside_javascript
           (Sample.host_parsing VNull [] "") "main.go" "package main" "go" 0);
    discriminate.
Defined.

(** ** The security analyzer *)

Lemma security_callback_issues (filePath : string) (v : Visit)
    (issues : list Issue.t) :
  (eval_call (node v) || innerHTML_access (node v) = true ->
   located (node v) = true) ->
  security_callback filePath v issues =
  Ok (issues ++ security_issues filePath (node v))%list.
Proof.
  unfold security_callback, security_issues, eval_call, innerHTML_access.
  set (n := node v). intros Hloc.
  assert (step : forall (kind key lit : string) (mk : value -> value -> Issue.t)
                        (acc : list Issue.t),
             (type_is n kind && is_str (prop (prop n key) "name") lit = true ->
              located n = true) ->
             (if type_is n kind && truthy (prop n key)
              then name <- get (prop n key) "name" ;;
                   if is_str name lit
                   then line <- line_of n ;;
                        column <- column_of n ;;
                        Ok (acc ++ [mk line column])%list
                   else Ok acc
              else Ok acc)
             = Ok (acc ++ (if type_is n kind
                                && is_str (prop (prop n key) "name") lit
                           then [mk (line n) (column n)] else []))%list).
  { intros kind key lit mk acc Hl.
    destruct (type_is n kind); cbn [andb] in *;
      [| rewrite app_nil_r; reflexivity].
    destruct (truthy (prop n key)) eqn:Ht.
    - rewrite (get_present _ "name" (truthy_present _ Ht)). cbn [bind].
      destruct (is_str (prop (prop n key) "name") lit);
        [| rewrite app_nil_r; reflexivity].
      destruct (located_start n (Hl eq_refl)) as [-> ->]. reflexivity.
    - rewrite (falsy_has_no_property _ "name" Ht eq_refl).
      cbn. rewrite app_nil_r. reflexivity. }
  rewrite (step "CallExpression" "callee" "eval" (eval_issue filePath)).
  - cbn [bind].
    rewrite (step "MemberExpression" "property" "innerHTML"
                  (innerHTML_issue filePath)).
    + rewrite <- app_assoc. reflexivity.
    + intros H. apply Hloc. rewrite H. apply orb_true_r.
  - intros H. apply Hloc. rewrite H. reflexivity.
Qed.

Lemma run_security_callbacks (filePath : string) (vs : list Visit)
    (issues : list Issue.t) :
  (forall v, In v vs ->
             eval_call (node v) || innerHTML_access (node v) = true ->
             located (node v) = true) ->
  run_callbacks (security_callback filePath) vs issues =
  Ok (issues ++ flat_map (security_issues filePath) (map node vs))%list.
Proof.
  revert issues. induction vs as [| v vs IH]; intros issues Hloc; simpl.
  - rewrite app_nil_r. reflexivity.
  - rewrite security_callback_issues by (apply Hloc; left; reflexivity).
    cbn [bind]. rewrite IH by (intros w Hw; apply Hloc; right; exact Hw).
    rewrite <- app_assoc. reflexivity.
Qed.

Lemma eval_issues_of_security_issues (filePath : string) (ns : list value) :
  filter (has_rule "no-eval") (flat_map (security_issues filePath) ns) =
  map (fun n => eval_issue filePath (line n) (column n)) (filter eval_call ns).
Proof.
  induction ns as [| n ns IH]; [reflexivity |].
  simpl. rewrite filter_app, IH. unfold security_issues.
  destruct (eval_call n), (innerHTML_access n); reflexivity.
Qed.

(** C4: for javascript and typescript the security analyzer produces, for
    the call expressions whose callee is named [eval], exactly one issue per
    occurrence, in order, each of severity [critical] with rule [no-eval]
    and CWE-95, at the line of the call; for every other language it
    produces no issue at all. *)
Theorem analyzeSecurity_one_issue_per_eval (ast : value) (filePath : string) :
  (forall language,
      language <> "javascript" -> language <> "typescript" ->
      analyzeSecurity ast filePath language = Ok [])
  /\ (forall language,
         language = "javascript" \/ language = "typescript" ->
         (forall n, In n (nodes ast) ->
                    eval_call n || innerHTML_access n = true ->
                    located n = true) ->
         exists found,
           analyzeSecurity ast filePath language = Ok found
           /\ filter (has_rule "no-eval") found =
              map (fun n => eval_issue filePath (line n) (column n))
                  (filter eval_call (nodes ast))
           /\ forall issue,
               In issue found -> has_rule "no-eval" issue = true ->
               Issue.severity issue = "critical"
               /\ Issue.type issue = "security"
               /\ Issue.cwe issue = Some ["CWE-95"]
               /\ exists n,
                   In n (nodes ast) /\ eval_call n = true
                   /\ Location.line (Issue.file issue) = line n
                   /\ line_of n = Ok (line n)).
Proof.
  split.
  - intros language Hjs Hts.
    unfold analyzeSecurity.
    rewrite (language_without_detail language Hjs Hts). reflexivity.
  - intros language Hlang Hloc.
    assert (Hgate : language_has_detail language = true)
      by (destruct Hlang as [-> | ->]; reflexivity).
    unfold analyzeSecurity. rewrite Hgate, traverseAST_visits.
    rewrite run_security_callbacks.
    + eexists. split; [reflexivity |]. cbn [app].
      split; [apply eval_issues_of_security_issues |].
      intros issue Hin Hrule.
      assert (Hfilter : In issue (filter (has_rule "no-eval")
                                   (flat_map (security_issues filePath)
                                             (map node (walk ast)))))
        by (apply filter_In; split; assumption).
      rewrite eval_issues_of_security_issues in Hfilter.
      apply in_map_iff in Hfilter as (n & <- & Hn).
      apply filter_In in Hn as [Hn Heval].
      repeat split. exists n. repeat split; try assumption.
      apply located_start, Hloc; [exact Hn |].
      rewrite Heval. reflexivity.
    + intros v Hv. apply Hloc. unfold nodes. apply in_map. exact Hv.
Qed.

Lemma analyzeSecurity_one_issue_per_eval_witness :
  analyzeSecurity Sample.two_evals_one_line "a.js" "python" = Ok []
  /\ exists found,
      analyzeSecurity Sample.two_evals_one_line "a.js" "javascript" = Ok found
      /\ List.length (filter (has_rule "no-eval") found) = 2%nat.
Proof.
  destruct (analyzeSecurity_one_issue_per_eval Sample.two_evals_one_line "a.js")
    as [Hother Hjs].
  split; [apply Hother; discriminate |].
  destruct (Hjs "javascript") as (found & Hrun & Heach & _).
  - left; reflexivity.
  - intros n Hn _.
    assert (Hall : forallb located (nodes Sample.two_evals_one_line) = true)
      by reflexivity.
    rewrite forallb_forall in Hall. apply Hall, Hn.
  - exists found. split; [exact Hrun |]. rewrite Heach. reflexivity.
Defined.

(** ** The bug analyzer *)

Lemma is_str_eq (v : value) (lit : string) : is_str v lit = true -> v = VStr lit.
Proof.
  destruct v; simpl; try discriminate.
  intros H. apply String.eqb_eq in H. congruence.
Qed.

Lemma typed_located (n : value) (lit : string) :
  node_ready n = true -> type_is n lit = true -> lit <> "" ->
  located n = true.
Proof.
  unfold node_ready, type_is. intros Hready Htype Hlit.
  apply is_str_eq in Htype.
  apply andb_prop in Hready as [Hready _].
  apply andb_prop in Hready as [Hready _].
  rewrite Htype in Hready. simpl in Hready.
  apply String.eqb_neq in Hlit. rewrite Hlit in Hready. exact Hready.
Qed.

Lemma block_body_located (q : value) :
  node_ready q = true -> type_is q "BlockStatement" = true ->
  exists stmts, prop q "body" = VArr stmts /\ forallb located stmts = true.
Proof.
  unfold node_ready. intros Hready Htype.
  apply andb_prop in Hready as [Hready _].
  apply andb_prop in Hready as [_ Hready].
  rewrite Htype in Hready.
  destruct (prop q "body"); try discriminate.
  exists elems. split; [reflexivity | exact Hready].
Qed.

Lemma test_located (n : value) :
  node_ready n = true ->
  is_str (prop (prop n "test") "type") "AssignmentExpression" = true ->
  located (prop n "test") = true.
Proof.
  unfold node_ready. intros Hready Htype.
  apply andb_prop in Hready as [_ Hready].
  apply is_str_eq in Htype. rewrite Htype in Hready. exact Hready.
Qed.

Lemma index_in_body_lower (v : Visit) : -1 <= index_in_body v.
Proof.
  unfold index_in_body.
  destruct (hangs v) as [[key [i |]] |]; try lia.
  destruct (key =? "body")%string; lia.
Qed.

Lemma element_located (stmts : list value) (i : Z) :
  forallb located stmts = true ->
  0 <= i < Z.of_nat (List.length stmts) ->
  located (element (VArr stmts) i) = true.
Proof.
  intros Hall Hi. simpl. rewrite forallb_forall in Hall.
  apply Hall, nth_In. lia.
Qed.

Lemma bugs_callback_issues (filePath : string) (v : Visit)
    (issues : list Issue.t) :
  node_ready (node v) = true ->
  (forall q, parent v = Some q -> node_ready q = true) ->
  bugs_callback filePath v issues =
  Ok (issues ++ bugs_issues filePath v)%list.
Proof.
  intros Hready Hparent.
  unfold bugs_callback, bugs_issues. rewrite app_assoc.
  set (n := node v) in *.
  assert (Hfirst :
            (if type_is n "ReturnStatement"
             then match parent v with
                  | Some q =>
                      if type_is q "BlockStatement"
                      then index <- indexOf_in_body (prop q "body") v ;;
                           if index <? length_of (prop q "body") - 1
                           then returnLine <- line_of n ;;
                                line <- line_of (element (prop q "body") (index + 1)) ;;
                                column <- column_of (element (prop q "body") (index + 1)) ;;
                                Ok (issues ++ [unreachable_issue filePath returnLine
                                                                 line column])%list
                           else Ok issues
                      else Ok issues
                  | None => Ok issues
                  end
             else Ok issues)
            = Ok (issues ++ unreachable_issues filePath v)%list).
  { unfold unreachable_issues. fold n.
    destruct (type_is n "ReturnStatement") eqn:Hret;
      [| rewrite app_nil_r; reflexivity].
    destruct (parent v) as [q |] eqn:Hq; [| rewrite app_nil_r; reflexivity].
    destruct (type_is q "BlockStatement") eqn:Hblock;
      [| rewrite app_nil_r; reflexivity].
    destruct (block_body_located q (Hparent q eq_refl) Hblock)
      as (stmts & -> & Hall).
    cbn [indexOf_in_body bind].
    destruct (index_in_body v <? length_of (VArr stmts) - 1) eqn:Hlt;
      [| rewrite app_nil_r; reflexivity].
    apply Z.ltb_lt in Hlt. simpl length_of in Hlt.
    pose proof (index_in_body_lower v) as Hlow.
    destruct (located_start n) as [-> _];
      [apply (typed_located n "ReturnStatement"); [assumption .. | discriminate] |].
    destruct (located_start (element (VArr stmts) (index_in_body v + 1)))
      as [-> ->]; [apply element_located; [exact Hall | lia] |].
    reflexivity. }
  rewrite Hfirst. cbn [bind]. clear Hfirst.
  generalize (issues ++ unreachable_issues filePath v)%list. intros acc.
  unfold assignment_issues. fold n.
  destruct (type_is n "IfStatement" || type_is n "WhileStatement") eqn:Hkind;
    cbn [andb]; [| rewrite app_nil_r; reflexivity].
  destruct (truthy (prop n "test")) eqn:Htest.
  - rewrite (get_present _ "type" (truthy_present _ Htest)). cbn [bind].
    destruct (is_str (prop (prop n "test") "type") "AssignmentExpression")
      eqn:Hassign; [| rewrite app_nil_r; reflexivity].
    assert (Hn : located n = true).
    { apply orb_prop in Hkind as [Hk | Hk];
        [apply (typed_located n "IfStatement")
        | apply (typed_located n "WhileStatement")];
        first [assumption | discriminate]. }
    destruct (located_start n Hn) as [-> _].
    destruct (located_start _ (test_located n Hready Hassign)) as [-> ->].
    reflexivity.
  - rewrite (falsy_has_no_property _ "type" Htest eq_refl).
    cbn. rewrite app_nil_r. reflexivity.
Qed.

Lemma run_bugs_callbacks (filePath : string) (vs : list Visit)
    (issues : list Issue.t) :
  (forall v, In v vs ->
             node_ready (node v) = true
             /\ forall q, parent v = Some q -> node_ready q = true) ->
  run_callbacks (bugs_callback filePath) vs issues =
  Ok (issues ++ flat_map (bugs_issues filePath) vs)%list.
Proof.
  revert issues. induction vs as [| v vs IH]; intros issues Hready; simpl.
  - rewrite app_nil_r. reflexivity.
  - destruct (Hready v (or_introl eq_refl)) as [Hv Hq].
    rewrite (bugs_callback_issues filePath v issues Hv Hq). cbn [bind].
    rewrite IH by (intros w Hw; apply Hready; right; exact Hw).
    rewrite <- app_assoc. reflexivity.
Qed.

(** On a tree whose nodes are in place the bug analyzer returns, with the
    issues of its callback at every visited node, in order. *)
Lemma analyzeBugs_ready (ast : value) (filePath language : string) :
  language_has_detail language = true ->
  tree_ready ast = true ->
  analyzeBugs ast filePath language =
  Ok (flat_map (bugs_issues filePath) (walk ast)).
Proof.
  intros Hgate Hready. unfold analyzeBugs. rewrite Hgate, traverseAST_visits.
  unfold tree_ready in Hready. rewrite forallb_forall in Hready.
  apply run_bugs_callbacks. intros v Hv. split.
  - apply Hready. unfold nodes. apply in_map, Hv.
  - intros q Hq. apply Hready. apply (parent_visited ast v q Hv Hq).
Qed.

Lemma lookup_In (key : string) (props : list (string * value)) (v : value) :
  lookup key props = v -> v <> VUndefined -> In (key, v) props.
Proof.
  induction props as [| [k w] props IH]; simpl; intros Hv Hdef.
  - congruence.
  - destruct (k =? key)%string eqn:Hk.
    + apply String.eqb_eq in Hk. left. congruence.
    + right. apply IH; assumption.
Qed.

Lemma typed_is_object (n : value) (lit : string) :
  type_is n lit = true ->
  exists props, n = VObj props /\ is_object n = true.
Proof.
  unfold type_is. destruct n; cbn; try discriminate.
  intros _. exists props. split; reflexivity.
Qed.

(** C8: in javascript and typescript, a [return] statement followed by a
    further statement in the body of the same block makes the bug analyzer
    emit an issue of type [bug] and severity [medium] whose location is the
    line (and column) of the statement right after the [return], not that
    of the [return], which only enters the id. *)
Theorem analyzeBugs_locates_statement_after_return
    (ast : value) (filePath language : string)
    (blk : value) (stmts : list value) (i : nat) (ret next : value) :
  language = "javascript" \/ language = "typescript" ->
  tree_ready ast = true ->
  In blk (nodes ast) ->
  type_is blk "BlockStatement" = true ->
  prop blk "body" = VArr stmts ->
  nth_error stmts i = Some ret ->
  type_is ret "ReturnStatement" = true ->
  nth_error stmts (S i) = Some next ->
  exists found issue,
    analyzeBugs ast filePath language = Ok found
    /\ In issue found
    /\ Issue.type issue = "bug"
    /\ Issue.severity issue = "medium"
    /\ Rule.id (Issue.rule issue) = "no-unreachable"
    /\ Location.line (Issue.file issue) = line next
    /\ Location.column (Issue.file issue) = column next
    /\ line_of next = Ok (line next)
    /\ Issue.id issue =
       "bug-unreachable-" ++ filePath ++ "-" ++ to_string (line ret).
Proof.
  intros Hlang Hready Hblk Hblock Hbody Hret Hreturn Hnext.
  assert (Hgate : language_has_detail language = true)
    by (destruct Hlang as [-> | ->]; reflexivity).
  exists (flat_map (bugs_issues filePath) (walk ast)),
         (unreachable_issue filePath (line ret) (line next) (column next)).
  split; [apply analyzeBugs_ready; assumption |].
  assert (Hlen : (S i < List.length stmts)%nat)
    by (apply nth_error_Some; congruence).
  assert (Helem : element (VArr stmts) (Z.of_nat i + 1) = next).
  { simpl. replace (Z.to_nat (Z.of_nat i + 1)) with (S i) by lia.
    apply nth_error_nth, Hnext. }
  split.
  - (* the visit of the [return] statement below its block *)
    unfold nodes in Hblk. apply in_map_iff in Hblk as (r0 & Hnode & Hr0).
    destruct (typed_is_object blk _ Hblock) as (props & -> & _).
    destruct (typed_is_object ret _ Hreturn) as (rprops & Hreq & Hobj).
    set (target := mkVisit ret (Some (VObj props)) (Some ("body", Some i))).
    assert (Htarget : In target (walk ast)).
    { apply (visits_closed ast None None r0 target Hr0).
      unfold target. rewrite <- Hnode.
      apply (link_element r0 "body" stmts i ret); try assumption;
        try reflexivity.
      rewrite Hnode. simpl. apply lookup_In; [exact Hbody | discriminate]. }
    apply in_flat_map. exists target. split; [exact Htarget |].
    unfold bugs_issues. apply in_or_app. left.
    unfold unreachable_issues, target. cbn [node parent].
    rewrite Hreturn, Hblock, Hbody.
    unfold index_in_body. cbn [hangs String.eqb Ascii.eqb Bool.eqb].
    replace (Z.of_nat i <? length_of (VArr stmts) - 1) with true
      by (symmetry; apply Z.ltb_lt; simpl; lia).
    rewrite Helem. left. reflexivity.
  - repeat split.
    apply located_start.
    unfold tree_ready in Hready. rewrite forallb_forall in Hready.
    destruct (block_body_located blk (Hready blk Hblk) Hblock)
      as (stmts' & Hbody' & Hall).
    rewrite Hbody in Hbody'. injection Hbody' as <-.
    rewrite forallb_forall in Hall. apply Hall.
    eapply nth_error_In, Hnext.
Qed.

Lemma analyzeBugs_locates_statement_after_return_witness :
  exists found issue,
    analyzeBugs Sample.return_then_call "a.js" "javascript" = Ok found
    /\ In issue found
    /\ Issue.type issue = "bug"
    /\ Issue.severity issue = "medium"
    /\ Rule.id (Issue.rule issue) = "no-unreachable"
    /\ Location.line (Issue.file issue) = VNum 3
    /\ Location.column (Issue.file issue) = VNum 2
    /\ line_of (Sample.expression_statement
                  (Sample.call (Sample.identifier "g" 3 2) [] 3 2) 3 2)
       = Ok (VNum 3)
    /\ Issue.id issue = "bug-unreachable-a.js-2".
Proof.
  apply (analyzeBugs_locates_statement_after_return
           Sample.return_then_call "a.js" "javascript"
           (Sample.block
              [ Sample.return_statement 2 2;
                Sample.expression_statement
                  (Sample.call (Sample.identifier "g" 3 2) [] 3 2) 3 2 ]
              1 13)
           [ Sample.return_statement 2 2;
             Sample.expression_statement
               (Sample.call (Sample.identifier "g" 3 2) [] 3 2) 3 2 ]
           0 (Sample.return_statement 2 2)
           (Sample.expression_statement
              (Sample.call (Sample.identifier "g" 3 2) [] 3 2) 3 2)).
  - left; reflexivity.
  - reflexivity.
  - vm_compute. tauto.
  - reflexivity.
  - reflexivity.
  - reflexivity.
  - reflexivity.
  - reflexivity.
Defined.

(** ** One [try] around all analyzers *)

(** C5, as the code has it: no exception leaves [analyzeFile]; when an
    analyzer throws, the one [catch] of [analyzeFile] takes it: the issues
    pushed by the analyzers that ran before it stay, the analyzers after it
    and the metrics do not run (complexity, functions and classes stay 0),
    and one [parse-error] issue with the message of the error is appended. *)
Theorem analyzeFile_single_catch (host : Host) (this : AnalysisEngine)
    (filePath content language : string) (tick : nat) :
  (exists analysis tick',
      analyzeFile host this filePath content language tick
      = (Ok analysis, tick'))
  /\ forall ast found error,
      parseFile host content language = Ok ast ->
      truthy ast = true ->
      until_throw [ analyzeSecurity ast filePath language;
                    analyzePerformance host ast filePath language;
                    analyzeBugs ast filePath language ] = (found, Some error) ->
      let (first, tick1) := complexity_findings host this ast filePath tick in
      analyzeFile host this filePath content language tick =
      (Ok (mkAnalysis
             (first ++ found
              ++ [parse_error_issue filePath error (Date_now host tick1)])%list
             (initial_metrics content)),
       S tick1).
Proof.
  split.
  - destruct (analyzeFile_returns host this filePath content language tick)
      as (f & _ & Hf).
    eexists _, _. exact Hf.
  - intros ast found error Hparse Htruthy Hthrow.
    unfold analyzeFile. rewrite analyzeFile_run_cases, Hparse, Htruthy.
    destruct (complexity_findings host this ast filePath tick) as [first tick1].
    rewrite Hthrow. reflexivity.
Qed.

Lemma analyzeFile_single_catch_witness :
  exists error,
    analyzeSecurity Sample.eval_without_loc "a.js" "javascript" = Throw error
    /\ analyzeFile (Sample.host_parsing Sample.eval_without_loc [] "")
                   new_AnalysisEngine "a.js" "" "javascript" 0
       = (Ok (mkAnalysis
                [parse_error_issue "a.js" error 1700000000000]
                (initial_metrics "")),
          1%nat).
Proof.
  exists (cannot_read "undefined" "start").
  split; [reflexivity |].
  pose proof (analyzeFile_single_catch
                (Sample.host_parsing Sample.eval_without_loc [] "")
                new_AnalysisEngine "a.js" "" "javascript" 0) as [_ Hcatch].
  apply (Hcatch Sample.eval_without_loc [] (cannot_read "undefined" "start"));
    reflexivity.
Defined.

(** An analyzer that throws takes the later analyzers with it: on a tree
    whose [eval] call has no [loc] the security analyzer throws, the bug
    analyzer alone would report the dead code after [return], and
    [analyzeFile] returns neither that issue nor an empty list. *)
Lemma analyzer_failure_not_isolated :
  (exists error,
      analyzeSecurity Sample.eval_without_loc "a.js" "javascript" = Throw error)
  /\ (exists issue,
         analyzeBugs Sample.eval_without_loc "a.js" "javascript" = Ok [issue])
  /\ ~ analyzer_failures_isolated
         (Sample.host_parsing Sample.eval_without_loc [] "")
         new_AnalysisEngine "a.js" "" "javascript" 0.
Proof.
  split; [eexists; reflexivity |].
  split; [eexists; reflexivity |].
  intros Hiso.
  destruct (Hiso Sample.eval_without_loc eq_refl eq_refl)
    as (analysis & tick' & Hrun & Hissues).
  vm_compute in Hrun. injection Hrun as <- _.
  vm_compute in Hissues. discriminate.
Qed.

(** ** The repository loop *)

Lemma count_issue_keeps_files (s : Summary.t) (found : list Issue.t) :
  Summary.analyzedFiles (fold_left count_issue found s) = Summary.analyzedFiles s
  /\ Summary.totalFiles (fold_left count_issue found s) = Summary.totalFiles s.
Proof.
  revert s. induction found as [| issue found IH]; intros s; simpl;
    [split; reflexivity |].
  destruct (IH (count_issue s issue)) as [-> ->]. split; reflexivity.
Qed.

Lemma process_file_step (host : Host) (this : AnalysisEngine)
    (results : Results.t) (tick : nat) (filePath : string) :
  exists results' tick',
    process_file host this (results, tick) filePath = (results', tick')
    /\ Summary.totalFiles (Results.summary results')
       = Summary.totalFiles (Results.summary results)
    /\ Summary.analyzedFiles (Results.summary results')
       = Summary.analyzedFiles (Results.summary results)
         + (if analyzable host this filePath then 1 else 0)
    /\ map FileEntry.path (Results.files results')
       = (map FileEntry.path (Results.files results)
          ++ (if analyzable host this filePath then [filePath] else []))%list.
Proof.
  unfold process_file, analyzable.
  destruct (fs_readFile host filePath) as [content | e].
  2: { eexists _, _. split; [reflexivity |].
       rewrite app_nil_r. repeat split; lia. }
  destruct (getLanguageFromFile host this filePath) as [language |].
  2: { eexists _, _. split; [reflexivity |].
       rewrite app_nil_r. repeat split; lia. }
  destruct (language =? "")%string; cbn [negb].
  { eexists _, _. split; [reflexivity |].
    rewrite app_nil_r. repeat split; lia. }
  destruct (analyzeFile_returns host this filePath content language tick)
    as (f & _ & ->).
  eexists _, _. split; [reflexivity |].
  unfold record_analysis. cbn [Results.summary Results.files].
  destruct (count_issue_keeps_files
              {| Summary.totalFiles := Summary.totalFiles (Results.summary results);
                 Summary.analyzedFiles :=
                   Summary.analyzedFiles (Results.summary results) + 1;
                 Summary.totalIssues := Summary.totalIssues (Results.summary results);
                 Summary.criticalIssues :=
                   Summary.criticalIssues (Results.summary results);
                 Summary.highIssues := Summary.highIssues (Results.summary results);
                 Summary.mediumIssues :=
                   Summary.mediumIssues (Results.summary results);
                 Summary.lowIssues := Summary.lowIssues (Results.summary results);
                 Summary.totalLines :=
                   Summary.totalLines (Results.summary results)
                   + Metrics.lines (found_metrics (mkAnalysis (issues f) (metrics f))) |}
              (found_issues (mkAnalysis (issues f) (metrics f)))) as [Ha Ht].
  rewrite Ha, Ht. rewrite map_app. repeat split.
Qed.

Lemma process_files (host : Host) (this : AnalysisEngine) (files : list string) :
  forall results tick,
  exists results' tick',
    fold_left (process_file host this) files (results, tick) = (results', tick')
    /\ Summary.totalFiles (Results.summary results')
       = Summary.totalFiles (Results.summary results)
    /\ Summary.analyzedFiles (Results.summary results')
       = Summary.analyzedFiles (Results.summary results)
         + Z.of_nat (List.length (filter (analyzable host this) files))
    /\ map FileEntry.path (Results.files results')
       = (map FileEntry.path (Results.files results)
          ++ filter (analyzable host this) files)%list.
Proof.
  induction files as [| filePath files IH]; intros results tick;
    cbn [fold_left filter].
  - eexists _, _. split; [reflexivity |].
    rewrite app_nil_r. repeat split; simpl; lia.
  - destruct (process_file_step host this results tick filePath)
      as (r1 & t1 & -> & Ht1 & Ha1 & Hp1).
    destruct (IH r1 t1) as (r2 & t2 & -> & Ht2 & Ha2 & Hp2).
    eexists _, _. split; [reflexivity |].
    rewrite Ht2, Ha2, Hp2, Ht1, Ha1, Hp1.
    destruct (analyzable host this filePath); simpl;
      rewrite <- ?app_assoc; repeat split; simpl; lia.
Qed.

(** X18: [analyzeRepository] works through every listed file in order:
    [totalFiles] is the length of the listing, [analyzedFiles] is the number
    of listed files that can be read and have a resolved language, and
    exactly these files appear, in the order of the listing, in the per-file
    results.  Nothing can stop the loop between two files. *)
Theorem analyzeRepository_processes_every_file (host : Host)
    (this : AnalysisEngine) (repositoryPath : string) (options : Options)
    (tick : nat) (files : list string) :
  getSourceFiles host repositoryPath options = Ok files ->
  exists results tick',
    analyzeRepository host this repositoryPath options tick
    = Ok (results, tick')
    /\ Summary.totalFiles (Results.summary results)
       = Z.of_nat (List.length files)
    /\ Summary.analyzedFiles (Results.summary results)
       = Z.of_nat (List.length (filter (analyzable host this) files))
    /\ map FileEntry.path (Results.files results)
       = filter (analyzable host this) files.
Proof.
  intros Hscan. unfold analyzeRepository. rewrite Hscan. cbn [bind].
  destruct (process_files host this files
              (empty_results (Z.of_nat (List.length files))) tick)
    as (results & tick' & -> & Ht & Ha & Hp).
  exists results, tick'. split; [reflexivity |].
  rewrite Ht, Ha, Hp. repeat split.
Qed.

Lemma analyzeRepository_processes_every_file_witness :
  exists results tick',
    analyzeRepository
      (Sample.host_parsing Sample.twelve_ifs ["a.js"; "notes.txt"; "b.js"] "")
      new_AnalysisEngine "repo" (mkOptions None None) 0
    = Ok (results, tick')
    /\ Summary.totalFiles (Results.summary results) = 3
    /\ Summary.analyzedFiles (Results.summary results) = 2
    /\ map FileEntry.path (Results.files results) = ["a.js"; "b.js"].
Proof.
  apply (analyzeRepository_processes_every_file
           (Sample.host_parsing Sample.twelve_ifs
                                ["a.js"; "notes.txt"; "b.js"] "")
           new_AnalysisEngine "repo" (mkOptions None None) 0
           ["a.js"; "notes.txt"; "b.js"]).
  reflexivity.
Defined.


(** ** Colliding ids *)

(** C7 at [eval(a); eval(b);] on one line: the security analyzer returns
    two distinct issues that carry the same id. *)
Theorem analyzeSecurity_ids_collide :
  exists first second,
    analyzeSecurity Sample.two_evals_one_line "a.js" "javascript"
    = Ok [first; second]
    /\ first <> second
    /\ Location.line (Issue.file first) = Location.line (Issue.file second)
    /\ Issue.id first = Issue.id second
    /\ ~ NoDup (map Issue.id [first; second]).
Proof.
  eexists _, _. split; [reflexivity |].
  split; [discriminate |].
  split; [reflexivity |].
  split; [reflexivity |].
  intros Hnodup. inversion Hnodup as [| id ids Hnotin _]; subst.
  apply Hnotin. left. reflexivity.
Qed.

(** ** Nested loops *)

(** C9 at three nested [for] loops, and at a [do ... while] around two
    nested [for] loops: the first yields exactly one issue, at the outermost
    loop, citing 3 levels; the second, whose outermost loop also has depth
    3 by [findNestedLoops], yields none, for the callback only looks at
    [for] and [while] nodes. *)
Theorem analyzePerformance_skips_do_while (host : Host) :
  (exists issue,
      analyzePerformance host Sample.three_fors "a.js" "javascript" = Ok [issue]
      /\ Issue.severity issue = "medium"
      /\ Issue.title issue = "Deeply nested loops (3 levels)"
      /\ Location.line (Issue.file issue) = VNum 1)
  /\ (exists loop,
         In loop (nodes Sample.do_while_around_two_fors)
         /\ type_is loop "DoWhileStatement" = true
         /\ is_loop loop = true
         /\ findNestedLoops loop 0 = 3
         /\ analyzePerformance host Sample.do_while_around_two_fors
                               "a.js" "javascript" = Ok []).
Proof.
  split.
  - eexists. split; [reflexivity |]. repeat split.
  - exists (Sample.do_while_statement
              (Sample.block
                 [ Sample.for_statement
                     (Sample.block
                        [ Sample.for_statement (Sample.block [] 3 13) 3 4 ] 2 11)
                     2 2 ]
                 1 3)
              1 0).
    split; [vm_compute; tauto |].
    repeat split.
Qed.

(** ** The performance analyzer, node by node *)

Lemma performance_callback_issues (host : Host) (filePath : string) (v : Visit)
    (issues : list Issue.t) :
  performance_ready host (node v) = true ->
  performance_callback host filePath v issues =
  Ok (issues ++ performance_issues host filePath (node v))%list.
Proof.
  unfold performance_callback, performance_issues, performance_ready,
    deep_loop, large_array.
  set (n := node v). intros Hready.
  apply andb_prop in Hready as [Hloc Helems].
  destruct (type_is n "ForStatement" || type_is n "WhileStatement");
    cbn [andb] in *.
  - destruct (2 <? findNestedLoops n 0); cbn [orb] in *.
    + destruct (located_start n Hloc) as [-> ->]. cbn [bind].
      destruct (type_is n "ArrayExpression"); cbn [andb];
        [| rewrite app_nil_r; reflexivity].
      apply negb_true_iff in Helems.
      rewrite (get_present _ "length" Helems). cbn [bind].
      destruct (exceeds _ _ 1000); [| rewrite app_nil_r; reflexivity].
      rewrite <- app_assoc. reflexivity.
    + cbn [bind].
      destruct (type_is n "ArrayExpression"); cbn [andb] in *;
        [| rewrite app_nil_r; reflexivity].
      apply negb_true_iff in Helems.
      rewrite (get_present _ "length" Helems). cbn [bind].
      destruct (exceeds _ _ 1000); [| rewrite app_nil_r; reflexivity].
      destruct (located_start n Hloc) as [-> ->]. reflexivity.
  - cbn [bind orb] in *.
    destruct (type_is n "ArrayExpression"); cbn [andb] in *;
      [| rewrite app_nil_r; reflexivity].
    apply negb_true_iff in Helems.
    rewrite (get_present _ "length" Helems). cbn [bind].
    destruct (exceeds _ _ 1000); [| rewrite app_nil_r; reflexivity].
    destruct (located_start n Hloc) as [-> ->]. reflexivity.
Qed.

Lemma run_performance_callbacks (host : Host) (filePath : string)
    (vs : list Visit) (issues : list Issue.t) :
  (forall v, In v vs -> performance_ready host (node v) = true) ->
  run_callbacks (performance_callback host filePath) vs issues =
  Ok (issues ++ flat_map (performance_issues host filePath) (map node vs))%list.
Proof.
  revert issues. induction vs as [| v vs IH]; intros issues Hready; simpl.
  - rewrite app_nil_r. reflexivity.
  - rewrite performance_callback_issues by (apply Hready; left; reflexivity).
    cbn [bind]. rewrite IH by (intros w Hw; apply Hready; right; exact Hw).
    rewrite <- app_assoc. reflexivity.
Qed.

(** X1: on a tree whose flagged nodes are located, the performance
    analyzer returns, in visiting order, one [medium] issue per [for] or
    [while] node whose loops nest more than two deep and one [low] issue per
    array literal with more than 1000 elements, and nothing else; an array
    literal of [k] elements is flagged exactly when [k > 1000]. *)
Theorem analyzePerformance_node_by_node (host : Host) (ast : value)
    (filePath language : string) :
  language = "javascript" \/ language = "typescript" ->
  forallb (performance_ready host) (nodes ast) = true ->
  analyzePerformance host ast filePath language =
  Ok (flat_map (performance_issues host filePath) (nodes ast))
  /\ (forall n issue,
         In issue (performance_issues host filePath n) ->
         (Issue.severity issue = "medium" /\ deep_loop n = true
          /\ has_rule "max-nested-loops" issue = true)
         \/ (Issue.severity issue = "low" /\ large_array host n = true
             /\ has_rule "max-array-size" issue = true))
  /\ (forall n elems,
         type_is n "ArrayExpression" = true ->
         prop n "elements" = VArr elems ->
         (large_array host n = true <-> (1000 < List.length elems)%nat)).
Proof.
  intros Hlang Hready.
  assert (Hgate : language_has_detail language = true)
    by (destruct Hlang as [-> | ->]; reflexivity).
  split; [| split].
  - unfold analyzePerformance. rewrite Hgate, traverseAST_visits.
    rewrite forallb_forall in Hready.
    rewrite run_performance_callbacks; [reflexivity |].
    intros v Hv. apply Hready. unfold nodes. apply in_map, Hv.
  - intros n issue Hin. unfold performance_issues in Hin.
    apply in_app_or in Hin as [Hin | Hin].
    + destruct (deep_loop n); [| contradiction].
      destruct Hin as [<- | []]. left. repeat split.
    + destruct (large_array host n); [| contradiction].
      destruct Hin as [<- | []]. right. repeat split.
  - intros n elems Htype Helems. unfold large_array.
    rewrite Htype, Helems. cbn [andb prop exceeds String.eqb Ascii.eqb Bool.eqb].
    rewrite Z.ltb_lt. lia.
Qed.

Lemma analyzePerformance_node_by_node_witness :
  analyzePerformance (Sample.host_parsing VNull [] "") Sample.three_fors
                     "a.js" "javascript" =
  Ok (flat_map (performance_issues (Sample.host_parsing VNull [] "") "a.js")
               (nodes Sample.three_fors)).
Proof.
  apply (analyzePerformance_node_by_node
           (Sample.host_parsing VNull [] "") Sample.three_fors
           "a.js" "javascript").
  - left; reflexivity.
  - reflexivity.
Defined.

(** ** The security analyzer, node by node *)

Lemma innerHTML_issues_of_security_issues (filePath : string) (ns : list value) :
  filter (has_rule "no-innerHTML") (flat_map (security_issues filePath) ns) =
  map (fun n => innerHTML_issue filePath (line n) (column n))
      (filter innerHTML_access ns).
Proof.
  induction ns as [| n ns IH]; [reflexivity |].
  simpl. rewrite filter_app, IH. unfold security_issues.
  destruct (eval_call n), (innerHTML_access n); reflexivity.
Qed.

Lemma security_issues_length (filePath : string) (ns : list value) :
  List.length (flat_map (security_issues filePath) ns) =
  (List.length (filter eval_call ns)
   + List.length (filter innerHTML_access ns))%nat.
Proof.
  induction ns as [| n ns IH]; [reflexivity |].
  simpl. rewrite length_app, IH. unfold security_issues.
  destruct (eval_call n), (innerHTML_access n); simpl; lia.
Qed.

(** X2: for javascript and typescript the security analyzer reports each
    member access whose property is named [innerHTML] once, in visiting
    order, with severity [high], rule [no-innerHTML] and CWE-79 at the
    position of the access; together with the [eval] calls these are all
    its issues. *)
Theorem analyzeSecurity_node_by_node (ast : value) (filePath language : string) :
  language = "javascript" \/ language = "typescript" ->
  (forall n, In n (nodes ast) ->
             eval_call n || innerHTML_access n = true -> located n = true) ->
  exists found,
    analyzeSecurity ast filePath language = Ok found
    /\ found = flat_map (security_issues filePath) (nodes ast)
    /\ filter (has_rule "no-innerHTML") found =
       map (fun n => innerHTML_issue filePath (line n) (column n))
           (filter innerHTML_access (nodes ast))
    /\ List.length found =
       (List.length (filter eval_call (nodes ast))
        + List.length (filter innerHTML_access (nodes ast)))%nat
    /\ forall n,
        Issue.severity (innerHTML_issue filePath (line n) (column n)) = "high"
        /\ Issue.cwe (innerHTML_issue filePath (line n) (column n))
           = Some ["CWE-79"]
        /\ Location.line (Issue.file (innerHTML_issue filePath (line n) (column n)))
           = line n.
Proof.
  intros Hlang Hloc.
  assert (Hgate : language_has_detail language = true)
    by (destruct Hlang as [-> | ->]; reflexivity).
  unfold analyzeSecurity. rewrite Hgate, traverseAST_visits.
  rewrite run_security_callbacks
    by (intros v Hv; apply Hloc; unfold nodes; apply in_map; exact Hv).
  eexists. split; [reflexivity |]. cbn [app].
  split; [reflexivity |].
  split; [apply innerHTML_issues_of_security_issues |].
  split; [apply security_issues_length |].
  intros n. repeat split.
Qed.

Lemma analyzeSecurity_node_by_node_witness :
  exists found,
    analyzeSecurity sample_innerHTML_of_eval "a.js" "javascript" = Ok found
    /\ List.length (filter (has_rule "no-innerHTML") found) = 1%nat
    /\ List.length found = 2%nat.
Proof.
  destruct (analyzeSecurity_node_by_node sample_innerHTML_of_eval
              "a.js" "javascript") as (found & Hrun & Hall & Hinner & Hlen & _).
  - left; reflexivity.
  - intros n Hn _.
    assert (Hloc : forallb located (nodes sample_innerHTML_of_eval) = true)
      by reflexivity.
    rewrite forallb_forall in Hloc. apply Hloc, Hn.
  - exists found. split; [exact Hrun |].
    rewrite Hinner, Hlen. split; reflexivity.
Defined.

(** ** The bug analyzer, node by node *)

(** X3: in javascript and typescript an [if] or [while] whose test is an
    assignment expression gets an issue of type [bug], severity [high] and
    rule [no-assignment-in-condition], located at the test (not at the
    statement, whose line only enters the id). *)
Theorem analyzeBugs_flags_assignment_in_condition
    (ast : value) (filePath language : string) (n : value) :
  language = "javascript" \/ language = "typescript" ->
  tree_ready ast = true ->
  In n (nodes ast) ->
  type_is n "IfStatement" || type_is n "WhileStatement" = true ->
  type_is (prop n "test") "AssignmentExpression" = true ->
  exists found issue,
    analyzeBugs ast filePath language = Ok found
    /\ In issue found
    /\ Issue.type issue = "bug"
    /\ Issue.severity issue = "high"
    /\ Rule.id (Issue.rule issue) = "no-assignment-in-condition"
    /\ Location.line (Issue.file issue) = line (prop n "test")
    /\ Location.column (Issue.file issue) = column (prop n "test")
    /\ Issue.id issue =
       "bug-assignment-condition-" ++ filePath ++ "-" ++ to_string (line n).
Proof.
  intros Hlang Hready Hn Hkind Htest.
  assert (Hgate : language_has_detail language = true)
    by (destruct Hlang as [-> | ->]; reflexivity).
  exists (flat_map (bugs_issues filePath) (walk ast)),
         (assignment_issue filePath (line n) (line (prop n "test"))
                           (column (prop n "test"))).
  split; [apply analyzeBugs_ready; assumption |].
  split; [| repeat split].
  unfold nodes in Hn. apply in_map_iff in Hn as (v & <- & Hv).
  apply in_flat_map. exists v. split; [exact Hv |].
  unfold bugs_issues. apply in_or_app. right.
  unfold assignment_issues. unfold type_is in Htest.
  rewrite Hkind, Htest. left. reflexivity.
Qed.

Lemma analyzeBugs_flags_assignment_in_condition_witness :
  exists found issue,
    analyzeBugs sample_assignment_in_if "a.js" "javascript" = Ok found
    /\ In issue found
    /\ Issue.type issue = "bug"
    /\ Issue.severity issue = "high"
    /\ Rule.id (Issue.rule issue) = "no-assignment-in-condition"
    /\ Location.line (Issue.file issue) = VNum 2
    /\ Location.column (Issue.file issue) = VNum 6
    /\ Issue.id issue = "bug-assignment-condition-a.js-2".
Proof.
  apply (analyzeBugs_flags_assignment_in_condition
           sample_assignment_in_if "a.js" "javascript"
           (Sample.estree "IfStatement"
              [ ("test",
                 Sample.estree "AssignmentExpression"
                   [ ("operator", VStr "=");
                     ("left", Sample.identifier "a" 2 6);
                     ("right",
                      Sample.estree "Literal" [("value", VNum 1)] 2 10) ]
                   2 6);
                ("consequent", Sample.block [Sample.return_statement 2 15] 2 13);
                ("alternate", VNull) ]
              2 2)).
  - left; reflexivity.
  - reflexivity.
  - vm_compute. tauto.
  - reflexivity.
  - reflexivity.
Defined.

Lemma unreachable_issues_of_bugs_issues (filePath : string) (vs : list Visit) :
  filter (has_rule "no-unreachable") (flat_map (bugs_issues filePath) vs) =
  flat_map (unreachable_issues filePath) vs.
Proof.
  induction vs as [| v vs IH]; [reflexivity |].
  simpl. rewrite filter_app, IH. f_equal.
  unfold bugs_issues, unreachable_issues, assignment_issues.
  rewrite filter_app.
  repeat match goal with
         | |- context [if ?b then _ else _] => destruct b; cbn
         | |- context [match ?o with Some _ => _ | None => _ end] =>
             destruct o; cbn
         end; reflexivity.
Qed.

(** X4: the bug analyzer reports unreachable code only at a [return] that
    hangs in a block statement and stands before the last place of its
    [body]: a [return] that ends its block, or that hangs in a program, a
    [switch] case or anything else that is not a block statement, is never
    reported, even when statements follow it. *)
Theorem analyzeBugs_unreachable_only_inside_blocks
    (ast : value) (filePath language : string) :
  language = "javascript" \/ language = "typescript" ->
  tree_ready ast = true ->
  exists found,
    analyzeBugs ast filePath language = Ok found
    /\ filter (has_rule "no-unreachable") found =
       flat_map (unreachable_issues filePath) (walk ast)
    /\ (forall issue,
           In issue found -> has_rule "no-unreachable" issue = true ->
           exists v q stmts,
             In v (walk ast)
             /\ type_is (node v) "ReturnStatement" = true
             /\ parent v = Some q
             /\ type_is q "BlockStatement" = true
             /\ prop q "body" = VArr stmts
             /\ index_in_body v + 1 < Z.of_nat (List.length stmts)
             /\ Location.line (Issue.file issue) =
                line (nth (Z.to_nat (index_in_body v + 1)) stmts VUndefined))
    /\ (forall v,
           (forall q, parent v = Some q -> type_is q "BlockStatement" = false) ->
           unreachable_issues filePath v = [])
    /\ (forall v q stmts i,
           parent v = Some q -> prop q "body" = VArr stmts ->
           hangs v = Some ("body", Some i) -> List.length stmts = S i ->
           unreachable_issues filePath v = []).
Proof.
  intros Hlang Hready.
  assert (Hgate : language_has_detail language = true)
    by (destruct Hlang as [-> | ->]; reflexivity).
  exists (flat_map (bugs_issues filePath) (walk ast)).
  split; [apply analyzeBugs_ready; assumption |].
  split; [apply unreachable_issues_of_bugs_issues |].
  split; [| split].
  - intros issue Hin Hrule.
    assert (Hfilter : In issue (filter (has_rule "no-unreachable")
                                  (flat_map (bugs_issues filePath) (walk ast))))
      by (apply filter_In; split; assumption).
    rewrite unreachable_issues_of_bugs_issues in Hfilter.
    apply in_flat_map in Hfilter as (v & Hv & Hissue).
    unfold unreachable_issues in Hissue.
    destruct (type_is (node v) "ReturnStatement") eqn:Hret; [| contradiction].
    destruct (parent v) as [q |] eqn:Hq; [| contradiction].
    destruct (type_is q "BlockStatement") eqn:Hblock; [| contradiction].
    unfold tree_ready in Hready. rewrite forallb_forall in Hready.
    destruct (block_body_located q (Hready q (parent_visited ast v q Hv Hq))
                Hblock) as (stmts & Hbody & _).
    rewrite Hbody in Hissue. cbn [length_of] in Hissue.
    destruct (index_in_body v <? Z.of_nat (List.length stmts) - 1) eqn:Hlt;
      [| contradiction].
    destruct Hissue as [<- | []].
    apply Z.ltb_lt in Hlt.
    exists v, q, stmts. repeat split; try assumption. lia.
  - intros v Hparent. unfold unreachable_issues.
    destruct (type_is (node v) "ReturnStatement"); [| reflexivity].
    destruct (parent v) as [q |]; [| reflexivity].
    rewrite (Hparent q eq_refl). reflexivity.
  - intros v q stmts i Hq Hbody Hhangs Hlen. unfold unreachable_issues.
    destruct (type_is (node v) "ReturnStatement"); [| reflexivity].
    rewrite Hq. destruct (type_is q "BlockStatement"); [| reflexivity].
    rewrite Hbody. unfold index_in_body. rewrite Hhangs.
    cbn [String.eqb Ascii.eqb Bool.eqb length_of]. rewrite Hlen.
    replace (Z.of_nat i <? Z.of_nat (S i) - 1) with false
      by (symmetry; apply Z.ltb_ge; lia).
    reflexivity.
Qed.

Lemma analyzeBugs_unreachable_only_inside_blocks_witness :
  exists found,
    analyzeBugs sample_assignment_in_if "a.js" "javascript" = Ok found
    /\ filter (has_rule "no-unreachable") found = [].
Proof.
  destruct (analyzeBugs_unreachable_only_inside_blocks
              sample_assignment_in_if "a.js" "javascript")
    as (found & Hrun & Hexact & _).
  - left; reflexivity.
  - reflexivity.
  - exists found. split; [exact Hrun |]. rewrite Hexact. reflexivity.
Defined.

(** ** Loop nesting *)

Lemma nested_in_property_shift (below : value -> Z -> Z) (e d : Z)
    (key : string) (m : Z) (v : value) :
  (forall c, held_by c v -> below c (e + d) = below c e + d) ->
  below v (e + d) = below v e + d ->
  nested_in_property below (e + d) key (m + d) v =
  nested_in_property below e key m v + d.
Proof.
  intros Hbelow Hv. unfold nested_in_property.
  destruct (key =? "parent")%string; [reflexivity |].
  destruct v; try reflexivity.
  - simpl in Hbelow. clear Hv. revert m.
    induction elems as [| c elems IH]; intros m; [reflexivity |].
    cbn [fold_left].
    replace (if is_object c then Z.max (m + d) (below c (e + d)) else m + d)
      with ((if is_object c then Z.max m (below c e) else m) + d).
    + apply IH. intros c' Hc'. apply Hbelow. right; exact Hc'.
    + destruct (is_object c); [| reflexivity].
      rewrite (Hbelow c (or_introl eq_refl)). lia.
  - destruct (truthy (prop (VObj props) "type")); [| reflexivity].
    rewrite Hv. lia.
Qed.

Lemma nested_in_property_lower (below : value -> Z -> Z) (e : Z) (key : string)
    (m : Z) (v : value) :
  m <= nested_in_property below e key m v.
Proof.
  unfold nested_in_property.
  destruct (key =? "parent")%string; [lia |].
  destruct v; try lia.
  - revert m. induction elems as [| c elems IH]; intros m; cbn [fold_left];
      [lia |].
    etransitivity; [| apply IH]. destruct (is_object c); lia.
  - destruct (truthy (prop (VObj props) "type")); lia.
Qed.

Lemma findNestedLoops_shift (n : value) :
  forall d, findNestedLoops n d = findNestedLoops n 0 + d.
Proof.
  induction n as [n IH1 IH2] using value_walk_ind. intros d.
  assert (Hstep : forall v key e m,
             held_by v n ->
             nested_in_property findNestedLoops (e + d) key (m + d) v =
             nested_in_property findNestedLoops e key m v + d).
  { intros v key e m Hv. apply nested_in_property_shift.
    - intros c Hc. rewrite (IH2 v c Hv Hc (e + d)), (IH2 v c Hv Hc e). lia.
    - rewrite (IH1 v Hv (e + d)), (IH1 v Hv e). lia. }
  destruct n; try (cbn; lia).
  - (* an array as a node *)
    assert (Hfold : forall i m,
               fold_lefti
                 (fun i m v =>
                    nested_in_property findNestedLoops (0 + d) (index_key i) m v)
                 i elems (m + d) =
               fold_lefti
                 (fun i m v =>
                    nested_in_property findNestedLoops 0 (index_key i) m v)
                 i elems m + d).
    { simpl in Hstep. clear IH1 IH2.
      induction elems as [| v elems IH]; intros i m; [reflexivity |].
      cbn [fold_lefti].
      rewrite (Hstep v (index_key i) 0 m (or_introl eq_refl)).
      apply IH. intros w key e m' Hw. apply Hstep. right; exact Hw. }
    exact (Hfold 0%nat 0).
  - (* an object *)
    assert (Hfold : forall e m,
               fold_left
                 (fun m '(key, v) =>
                    nested_in_property findNestedLoops (e + d) key m v)
                 props (m + d) =
               fold_left
                 (fun m '(key, v) =>
                    nested_in_property findNestedLoops e key m v)
                 props m + d).
    { simpl in Hstep. clear IH1 IH2. intros e.
      induction props as [| [key v] props IH]; intros m; [reflexivity |].
      cbn [fold_left].
      rewrite (Hstep v key e m (ex_intro _ key (or_introl eq_refl))).
      apply IH. intros w k e' m' [k' Hw]. apply Hstep. exists k'.
      right; exact Hw. }
    cbn [findNestedLoops]. destruct (is_loop (VObj props)).
    + replace (d + 1) with (1 + d) by lia.
      replace (Z.max d (1 + d)) with (1 + d) by lia.
      exact (Hfold 1 1).
    + exact (Hfold 0 0).
Qed.

Lemma findNestedLoops_lower (n : value) (d : Z) :
  (if is_loop n then d + 1 else d) <= findNestedLoops n d.
Proof.
  destruct n; try (cbn; lia).
  - assert (Hfold : forall e i m,
               m <= fold_lefti
                      (fun i m v =>
                         nested_in_property findNestedLoops e (index_key i) m v)
                      i elems m).
    { intros e. induction elems as [| v elems IH]; intros i m;
        cbn [fold_lefti]; [lia |].
      etransitivity; [| apply IH]. apply nested_in_property_lower. }
    cbn. apply Hfold.
  - assert (Hfold : forall e m,
               m <= fold_left
                      (fun m '(key, v) =>
                         nested_in_property findNestedLoops e key m v)
                      props m).
    { intros e. induction props as [| [key v] props IH]; intros m;
        cbn [fold_left]; [lia |].
      etransitivity; [| apply IH]. apply nested_in_property_lower. }
    cbn [findNestedLoops]. destruct (is_loop (VObj props)).
    + etransitivity; [| apply Hfold]. lia.
    + apply Hfold.
Qed.

Lemma index_key_not_parent (i : nat) : (index_key i =? "parent")%string = false.
Proof.
  unfold index_key, string_of_Z.
  destruct (Z.to_int (Z.of_nat i)) as [[] | []]; reflexivity.
Qed.

Lemma nested_in_property_reaches (e : Z) (key : string) (m : Z) (v c : value) :
  (key =? "parent")%string = false ->
  (exists children, v = VArr children /\ In c children /\ is_object c = true)
  \/ (c = v /\ exists props, v = VObj props
                             /\ truthy (prop v "type") = true) ->
  findNestedLoops c e <= nested_in_property findNestedLoops e key m v.
Proof.
  intros Hkey Hc. unfold nested_in_property. rewrite Hkey.
  destruct Hc as [(children & -> & Hin & Hobj) | (-> & props & -> & Ht)].
  - revert m. induction children as [| c' children IH]; intros m;
      [contradiction |].
    cbn [fold_left]. destruct Hin as [-> | Hin].
    + rewrite Hobj.
      transitivity (Z.max m (findNestedLoops c e)); [lia |].
      generalize (Z.max m (findNestedLoops c e)) as m'.
      clear IH. induction children as [| c' children IH]; intros m';
        cbn [fold_left]; [lia |].
      etransitivity; [| apply IH]. destruct (is_object c'); lia.
    + apply IH, Hin.
  - rewrite Ht. lia.
Qed.

(** X5: on a node that is not null or undefined and a [depth] argument in
    the range numbers count exactly, [findNestedLoops] measures depth
    relative to [depth] (the result for [depth = d] is the result for 0 plus
    [d], as long as this sum stays in that range); a loop node counts
    itself, so its depth is at least 1; and the depth of a node is at least
    that of each of its children, plus one when the node is itself a [for],
    [while] or [do ... while] loop. *)
Theorem findNestedLoops_depth :
  (forall n d,
      nullish n = false ->
      safe_integer d = true ->
      safe_integer (findNestedLoops n 0 + d) = true ->
      findNestedLoops n d = findNestedLoops n 0 + d)
  /\ (forall n,
         nullish n = false ->
         (if is_loop n then 1 else 0) <= findNestedLoops n 0)
  /\ (forall r r',
         child_link r r' ->
         nullish (node r) = false /\ nullish (node r') = false
         /\ (if is_loop (node r) then 1 else 0) + findNestedLoops (node r') 0
            <= findNestedLoops (node r) 0).
Proof.
  split; [intros n d _ _ _; apply findNestedLoops_shift |].
  split; [intros n _; apply (findNestedLoops_lower n 0) |].
  intros r r' Hlink.
  assert (Hobjects : nullish (node r) = false /\ nullish (node r') = false).
  { destruct Hlink as [key children i c Hholds Hkey Hi Hc
                      | key props Hholds Hkey Ht]; cbn [node];
      (split; [destruct (node r); try reflexivity; contradiction |]);
      [destruct c; try reflexivity; discriminate | reflexivity]. }
  split; [exact (proj1 Hobjects) |]. split; [exact (proj2 Hobjects) |].
  clear Hobjects.
  set (e := if is_loop (node r) then 1 else 0).
  assert (Hgoal : forall key v c,
             holds (node r) key v ->
             (key =? "parent")%string = false ->
             (exists children,
                 v = VArr children /\ In c children /\ is_object c = true)
             \/ (c = v /\ exists props, v = VObj props
                                        /\ truthy (prop v "type") = true) ->
             e + findNestedLoops c 0 <= findNestedLoops (node r) 0).
  { intros key v c Hholds Hkey Hc.
    rewrite Z.add_comm, <- findNestedLoops_shift.
    destruct (node r) as [| | | | | elems | props] eqn:Hnode;
      simpl in Hholds; try contradiction.
    - destruct Hholds as (i & Hi & ->).
      replace e with 0 by reflexivity.
      assert (Hfold : forall j i m,
                 nth_error elems j = Some v ->
                 findNestedLoops c 0
                 <= fold_lefti
                      (fun i m v =>
                         nested_in_property findNestedLoops 0 (index_key i) m v)
                      i elems m).
      { clear Hi Hkey Hnode. intros j.
        revert j. induction elems as [| w elems IH]; intros j i0 m Hj;
          [destruct j; discriminate |].
        cbn [fold_lefti]. destruct j as [| j]; simpl in Hj.
        - injection Hj as ->.
          etransitivity;
            [apply (nested_in_property_reaches 0 (index_key i0) m v c);
             [apply index_key_not_parent | exact Hc] |].
          generalize (nested_in_property findNestedLoops 0 (index_key i0) m v)
            as m'. generalize (S i0) as k. clear.
          induction elems as [| w elems IH]; intros k m'; cbn [fold_lefti];
            [lia |].
          etransitivity; [| apply IH]. apply nested_in_property_lower.
        - apply (IH j (S i0) _ Hj). }
      cbn. apply (Hfold i 0%nat 0 Hi).
    - assert (Hfold : forall e' m,
                 findNestedLoops c e'
                 <= fold_left
                      (fun m '(key, v) =>
                         nested_in_property findNestedLoops e' key m v)
                      props m).
      { clear Hnode. clear e. intros e'.
        induction props as [| [k w] props IH]; intros m; [contradiction |].
        cbn [fold_left]. destruct Hholds as [Heq | Hin].
        - injection Heq as -> ->.
          etransitivity;
            [apply (nested_in_property_reaches e' key m v c Hkey Hc) |].
          generalize (nested_in_property findNestedLoops e' key m v) as m'.
          clear. induction props as [| [k w] props IH]; intros m';
            cbn [fold_left]; [lia |].
          etransitivity; [| apply IH]. apply nested_in_property_lower.
        - apply IH, Hin. }
      cbn [findNestedLoops]. unfold e.
      destruct (is_loop (VObj props)); apply Hfold. }
  destruct Hlink as [key children i c Hholds Hkey Hi Hc
                    | key props Hholds Hkey Ht]; cbn [node].
  - apply (Hgoal key (VArr children) c Hholds Hkey). left.
    exists children. repeat split; [eapply nth_error_In, Hi | exact Hc].
  - apply (Hgoal key (VObj props) (VObj props) Hholds Hkey). right.
    split; [reflexivity |]. exists props. split; [reflexivity | exact Ht].
Qed.

Lemma findNestedLoops_depth_witness :
  findNestedLoops Sample.three_fors 5 = findNestedLoops Sample.three_fors 0 + 5.
Proof.
  apply (proj1 findNestedLoops_depth); reflexivity.
Defined.

(** ** Issues and the schema *)

Ltac enum_member := cbn; repeat (first [left; reflexivity | right]).

Ltac schema_facts :=
  unfold schema_valid;
  split; [enum_member | split; [enum_member | split; cbn; discriminate]].

Lemma eval_issue_valid f l c : schema_valid (eval_issue f l c).
Proof. schema_facts. Qed.

Lemma innerHTML_issue_valid f l c : schema_valid (innerHTML_issue f l c).
Proof. schema_facts. Qed.

Lemma nested_loops_issue_valid f n l c : schema_valid (nested_loops_issue f n l c).
Proof. schema_facts. Qed.

Lemma large_array_issue_valid f n l c : schema_valid (large_array_issue f n l c).
Proof. schema_facts. Qed.

Lemma unreachable_issue_valid f r l c : schema_valid (unreachable_issue f r l c).
Proof. schema_facts. Qed.

Lemma assignment_issue_valid f r l c : schema_valid (assignment_issue f r l c).
Proof. schema_facts. Qed.

Lemma parse_error_issue_valid f e t : schema_valid (parse_error_issue f e t).
Proof. schema_facts. Qed.

Lemma complexity_issue_valid this f c t : schema_valid (complexity_issue this f c t).
Proof.
  unfold schema_valid. cbn. destruct (20 <? c);
    (split; [enum_member | split; [enum_member | split; discriminate]]).
Qed.

Create HintDb schema.

#[local] Hint Resolve eval_issue_valid innerHTML_issue_valid
  nested_loops_issue_valid large_array_issue_valid unreachable_issue_valid
  assignment_issue_valid parse_error_issue_valid complexity_issue_valid
  : schema.

(** Take the outcome of a callback apart, branch by branch. *)
Ltac outcomes :=
  repeat match goal with
         | H : Throw _ = Ok _ |- _ => discriminate H
         | H : Ok _ = Ok _ |- _ => injection H as H; subst
         | H : context [match ?x with _ => _ end] |- _ => destruct x eqn:?
         end.

Ltac pushed_valid :=
  repeat (apply Forall_app; split); try assumption;
  repeat (apply Forall_cons; [auto with schema |]); try apply Forall_nil.

Lemma run_callbacks_invariant {St : Type} (P : St -> Prop)
    (callback : Visit -> St -> result St) (vs : list Visit) :
  (forall v s s', P s -> callback v s = Ok s' -> P s') ->
  forall s s', P s -> run_callbacks callback vs s = Ok s' -> P s'.
Proof.
  intros Hstep. induction vs as [| v vs IH]; intros s s' Hs Hrun; simpl in Hrun.
  - injection Hrun as <-. exact Hs.
  - destruct (callback v s) as [s1 |] eqn:Hcb; simpl in Hrun; [| discriminate].
    apply (IH s1 s' (Hstep v s s1 Hs Hcb) Hrun).
Qed.

Lemma security_callback_valid (filePath : string) (v : Visit)
    (issues out : list Issue.t) :
  Forall schema_valid issues ->
  security_callback filePath v issues = Ok out ->
  Forall schema_valid out.
Proof.
  intros Hvalid H. unfold security_callback, bind in H.
  outcomes; pushed_valid.
Qed.

Lemma performance_callback_valid (host : Host) (filePath : string) (v : Visit)
    (issues out : list Issue.t) :
  Forall schema_valid issues ->
  performance_callback host filePath v issues = Ok out ->
  Forall schema_valid out.
Proof.
  intros Hvalid H. unfold performance_callback, bind in H.
  outcomes; pushed_valid.
Qed.

Lemma bugs_callback_valid (filePath : string) (v : Visit)
    (issues out : list Issue.t) :
  Forall schema_valid issues ->
  bugs_callback filePath v issues = Ok out ->
  Forall schema_valid out.
Proof.
  intros Hvalid H. unfold bugs_callback, bind in H.
  outcomes; pushed_valid.
Qed.

Lemma analyzers_valid (host : Host) (ast : value) (filePath language : string) :
  (forall found, analyzeSecurity ast filePath language = Ok found ->
                 Forall schema_valid found)
  /\ (forall found, analyzePerformance host ast filePath language = Ok found ->
                    Forall schema_valid found)
  /\ (forall found, analyzeBugs ast filePath language = Ok found ->
                    Forall schema_valid found).
Proof.
  unfold analyzeSecurity, analyzePerformance, analyzeBugs.
  destruct (language_has_detail language).
  - repeat split; intros found Hrun; rewrite traverseAST_visits in Hrun;
      refine (run_callbacks_invariant (Forall schema_valid) _ _ _ [] found
                (Forall_nil _) Hrun); intros v s s'.
    + apply security_callback_valid.
    + apply performance_callback_valid.
    + apply bugs_callback_valid.
  - repeat split; intros found Hrun; injection Hrun as <-; constructor.
Qed.

Lemma until_throw_valid (rs : list (result (list Issue.t))) :
  (forall r found, In r rs -> r = Ok found -> Forall schema_valid found) ->
  Forall schema_valid (fst (until_throw rs)).
Proof.
  induction rs as [| r rs IH]; intros Hrs; [constructor |].
  simpl. destruct r as [found | e]; [| constructor].
  destruct (until_throw rs) as [more e] eqn:Hrest. simpl in *.
  apply Forall_app. split.
  - apply (Hrs (Ok found) found); [left |]; reflexivity.
  - apply IH. intros r found' Hin. apply Hrs. right; exact Hin.
Qed.

Lemma analyzeFile_valid (host : Host) (this : AnalysisEngine)
    (filePath content language : string) (tick : nat) :
  exists analysis tick',
    analyzeFile host this filePath content language tick = (Ok analysis, tick')
    /\ Forall schema_valid (found_issues analysis).
Proof.
  unfold analyzeFile. rewrite analyzeFile_run_cases.
  destruct (parseFile host content language) as [ast | e].
  2: { eexists _, _. split; [reflexivity |]. cbn. pushed_valid. }
  destruct (truthy ast).
  2: { eexists _, _. split; [reflexivity |]. constructor. }
  destruct (analyzers_valid host ast filePath language) as (Hs & Hp & Hb).
  assert (Hrest : Forall schema_valid
                    (fst (until_throw
                            [ analyzeSecurity ast filePath language;
                              analyzePerformance host ast filePath language;
                              analyzeBugs ast filePath language ]))).
  { apply until_throw_valid. intros r found Hin Hr.
    destruct Hin as [<- | [<- | [<- | []]]]; auto. }
  assert (Hfirst : Forall schema_valid
                     (fst (complexity_findings host this ast filePath tick))).
  { unfold complexity_findings. destruct (above _ _); cbn; pushed_valid. }
  destruct (complexity_findings host this ast filePath tick) as [first tick1].
  destruct (until_throw _) as [found [e |]]; cbn [fst] in *;
    eexists _, _; (split; [reflexivity |]); cbn; pushed_valid.
Qed.

(** X6: every issue [analyzeFile] returns, whatever the input and whether
    or not something threw, passes the issue schema of the analysis model:
    its severity is one of low, medium, high, critical, its type one of the
    seven issue types, and its id and title are not empty. *)
Theorem analyzeFile_issues_pass_schema (host : Host) (this : AnalysisEngine)
    (filePath content language : string) (tick : nat) :
  exists analysis tick',
    analyzeFile host this filePath content language tick = (Ok analysis, tick')
    /\ Forall (fun issue =>
                 In (Issue.severity issue) ["low"; "medium"; "high"; "critical"]
                 /\ In (Issue.type issue)
                       [ "bug"; "security"; "performance"; "style";
                         "complexity"; "maintainability"; "suggestion" ]
                 /\ Issue.id issue <> "" /\ Issue.title issue <> "")
              (found_issues analysis).
Proof.
  exact (analyzeFile_valid host this filePath content language tick).
Qed.

(** X7: two calls of [analyzeFile] on the same path, content and language
    return the same metrics and the same issues up to their ids, whenever
    they are made: the clock enters nothing but the ids, and a call reads it
    at most twice. *)
Theorem analyzeFile_repeatable (host : Host) (this : AnalysisEngine)
    (filePath content language : string) (t1 t2 : nat) :
  exists a1 a2 t1' t2',
    analyzeFile host this filePath content language t1 = (Ok a1, t1')
    /\ analyzeFile host this filePath content language t2 = (Ok a2, t2')
    /\ map without_id (found_issues a1) = map without_id (found_issues a2)
    /\ found_metrics a1 = found_metrics a2
    /\ (t1' - t1 = t2' - t2)%nat
    /\ (t1 <= t1' <= t1 + 2)%nat.
Proof.
  unfold analyzeFile. rewrite !analyzeFile_run_cases.
  assert (Hdone : forall (i1 i2 : list Issue.t) (m1 m2 : Metrics.t) (u1 u2 : nat),
             map without_id i1 = map without_id i2 -> m1 = m2 ->
             (u1 - t1 = u2 - t2)%nat -> (t1 <= u1 <= t1 + 2)%nat ->
             exists a1 a2 t1' t2',
               (Ok (mkAnalysis i1 m1), u1) = (Ok a1, t1')
               /\ (Ok (mkAnalysis i2 m2), u2) = (Ok a2, t2')
               /\ map without_id (found_issues a1) = map without_id (found_issues a2)
               /\ found_metrics a1 = found_metrics a2
               /\ (t1' - t1 = t2' - t2)%nat
               /\ (t1 <= t1' <= t1 + 2)%nat).
  { intros. eexists _, _, _, _. repeat (split; [reflexivity |]).
    cbn. destruct H2. repeat split; assumption. }
  destruct (parseFile host content language) as [ast | e];
    [| apply Hdone; [reflexivity | reflexivity | cbn [ticks]; lia | cbn [ticks]; lia]].
  destruct (truthy ast);
    [| apply Hdone; [reflexivity | reflexivity | cbn [ticks]; lia | cbn [ticks]; lia]].
  unfold complexity_findings.
  destruct (above _ _);
    destruct (until_throw _) as [found [e |]];
    (apply Hdone;
     [cbn [issues]; rewrite ?map_app; reflexivity | reflexivity
     | cbn [ticks]; lia | cbn [ticks]; lia]).
Qed.

(** X8: when the parser returns a tree and no analyzer throws, the issues of
    [analyzeFile] are those of the complexity, security, performance and bug
    analyzers, in this order, and the metrics hold the complexity, the line
    count of the content and the numbers of function-like and class-like
    nodes of the tree. *)
Theorem analyzeFile_success (host : Host) (this : AnalysisEngine)
    (filePath content language : string) (tick : nat)
    (ast : value) (security performance bugs : list Issue.t) :
  parseFile host content language = Ok ast ->
  truthy ast = true ->
  analyzeSecurity ast filePath language = Ok security ->
  analyzePerformance host ast filePath language = Ok performance ->
  analyzeBugs ast filePath language = Ok bugs ->
  analyzeFile host this filePath content language tick =
  (Ok (mkAnalysis
         (fst (complexity_findings host this ast filePath tick)
          ++ security ++ performance ++ bugs)%list
         (Metrics.mk (complexity_of ast)
                     (Z.of_nat (List.length (split_lines content)))
                     (count_of function_like ast)
                     (count_of class_like ast))),
   snd (complexity_findings host this ast filePath tick))
  /\ 1 <= complexity_of ast.
Proof.
  intros Hparse Htruthy Hs Hp Hb.
  split; [| unfold complexity_of; lia].
  unfold analyzeFile.
  rewrite analyzeFile_run_cases, Hparse, Htruthy, Hs, Hp, Hb.
  destruct (complexity_findings host this ast filePath tick) as [first tick1].
  cbn. rewrite app_nil_r. reflexivity.
Qed.

Lemma analyzeFile_success_witness :
  analyzeFile (Sample.host_parsing Sample.twelve_ifs [] "") new_AnalysisEngine
              "a.js" "x" "javascript" 0 =
  (Ok (mkAnalysis
         (fst (complexity_findings (Sample.host_parsing Sample.twelve_ifs [] "")
                 new_AnalysisEngine Sample.twelve_ifs "a.js" 0)
          ++ [] ++ [] ++ [])%list
         (Metrics.mk 13 1 0 0)),
   1%nat)
  /\ 1 <= complexity_of Sample.twelve_ifs.
Proof.
  apply (analyzeFile_success
           (Sample.host_parsing Sample.twelve_ifs [] "") new_AnalysisEngine
           "a.js" "x" "javascript" 0 Sample.twelve_ifs [] [] []);
    reflexivity.
Defined.

(** ** The tallies of a repository run *)

Lemma count_issue_tallies (found : list Issue.t) :
  forall s,
    let s' := fold_left count_issue found s in
    Summary.totalIssues s' = Summary.totalIssues s + Z.of_nat (List.length found)
    /\ Summary.criticalIssues s' =
       Summary.criticalIssues s + count_severity "critical" found
    /\ Summary.highIssues s' = Summary.highIssues s + count_severity "high" found
    /\ Summary.mediumIssues s' =
       Summary.mediumIssues s + count_severity "medium" found
    /\ Summary.lowIssues s' = Summary.lowIssues s + count_severity "low" found
    /\ Summary.totalLines s' = Summary.totalLines s.
Proof.
  unfold count_severity.
  induction found as [| issue found IH]; intros s; cbn [fold_left].
  - cbn. repeat split; lia.
  - destruct (IH (count_issue s issue)) as (Ht & Hc & Hh & Hm & Hl & Hn).
    cbn zeta in *. rewrite Ht, Hc, Hh, Hm, Hl, Hn.
    cbn [count_issue Summary.totalIssues Summary.criticalIssues
         Summary.highIssues Summary.mediumIssues Summary.lowIssues
         Summary.totalLines filter List.length].
    unfold has_severity.
    repeat split; try lia;
      try match goal with
      | |- context [(Issue.severity issue =? ?sev)%string] =>
          destruct (Issue.severity issue =? sev)%string; cbn [List.length]; lia
      end.
Qed.

Lemma count_severity_app (sev : string) (l1 l2 : list Issue.t) :
  count_severity sev (l1 ++ l2) = count_severity sev l1 + count_severity sev l2.
Proof.
  unfold count_severity. rewrite filter_app, length_app. lia.
Qed.

Lemma severities_partition (found : list Issue.t) :
  Forall schema_valid found ->
  count_severity "critical" found + count_severity "high" found
  + count_severity "medium" found + count_severity "low" found
  = Z.of_nat (List.length found).
Proof.
  unfold count_severity, has_severity.
  induction 1 as [| issue found Hissue _ IH]; [reflexivity |].
  destruct Hissue as (Hsev & _). cbn [filter List.length].
  cbn in Hsev.
  destruct Hsev as [<- | [<- | [<- | [<- | []]]]];
    cbn [String.eqb Ascii.eqb Bool.eqb List.length]; lia.
Qed.

Lemma sum_Z_app (l1 l2 : list Z) : sum_Z (l1 ++ l2) = sum_Z l1 + sum_Z l2.
Proof.
  unfold sum_Z. induction l1 as [| x l1 IH]; cbn; [reflexivity | lia].
Qed.

Lemma record_analysis_tallied (results : Results.t) (filePath language : string)
    (analysis : Analysis) :
  tallied results ->
  Forall schema_valid (found_issues analysis) ->
  tallied (record_analysis results filePath language analysis).
Proof.
  unfold tallied. cbn zeta.
  intros (Ht & Hc & Hh & Hm & Hl & Hn & Hsum & Ha & Hvalid) Hfound.
  unfold record_analysis.
  cbn [Results.summary Results.files Results.issues].
  match goal with
  | |- context [fold_left count_issue ?found ?s] =>
      destruct (count_issue_tallies found s) as (Ft & Fc & Fh & Fm & Fl & Fn);
      destruct (count_issue_keeps_files s found) as (Fa & _)
  end.
  cbn zeta in *. rewrite Ft, Fc, Fh, Fm, Fl, Fn, Fa.
  cbn [Summary.totalIssues Summary.criticalIssues Summary.highIssues
       Summary.mediumIssues Summary.lowIssues Summary.totalLines
       Summary.analyzedFiles].
  rewrite !count_severity_app, !map_app, !sum_Z_app, !length_app.
  cbn [map sum_Z fold_right FileEntry.metrics FileEntry.issuesCount List.length].
  repeat split; try lia.
  apply Forall_app. split; assumption.
Qed.

Lemma process_file_tallied (host : Host) (this : AnalysisEngine)
    (results : Results.t) (tick : nat) (filePath : string) :
  tallied results ->
  tallied (fst (process_file host this (results, tick) filePath)).
Proof.
  intros Htallied. unfold process_file.
  destruct (fs_readFile host filePath) as [content | e]; [| exact Htallied].
  destruct (getLanguageFromFile host this filePath) as [language |];
    [| exact Htallied].
  destruct (language =? "")%string; [exact Htallied |].
  destruct (analyzeFile_valid host this filePath content language tick)
    as (analysis & tick' & -> & Hvalid).
  apply record_analysis_tallied; assumption.
Qed.

Lemma process_files_tallied (host : Host) (this : AnalysisEngine)
    (files : list string) :
  forall state,
    tallied (fst state) ->
    tallied (fst (fold_left (process_file host this) files state)).
Proof.
  induction files as [| filePath files IH]; intros [results tick] Htallied;
    [exact Htallied |].
  cbn [fold_left]. apply IH.
  apply (process_file_tallied host this results tick filePath Htallied).
Qed.

(** X9: the summary [analyzeRepository] returns agrees with its lists: the
    issue total is the number of collected issues and splits exactly into
    the critical, high, medium and low counters (each the number of issues
    of that severity); the line total is the sum of the line counts of the
    analyzed files, whose per-file issue counts add up to the issue total;
    and [analyzedFiles] is the number of per-file entries. *)
Theorem analyzeRepository_tallies (host : Host) (this : AnalysisEngine)
    (repositoryPath : string) (options : Options) (tick : nat)
    (files : list string) :
  getSourceFiles host repositoryPath options = Ok files ->
  exists results tick',
    analyzeRepository host this repositoryPath options tick = Ok (results, tick')
    /\ tallied results
    /\ Summary.criticalIssues (Results.summary results)
       + Summary.highIssues (Results.summary results)
       + Summary.mediumIssues (Results.summary results)
       + Summary.lowIssues (Results.summary results)
       = Summary.totalIssues (Results.summary results).
Proof.
  intros Hscan. unfold analyzeRepository. rewrite Hscan. cbn [bind].
  pose proof (process_files_tallied host this files
                (empty_results (Z.of_nat (List.length files)), tick)) as Hrun.
  destruct (fold_left _ files _) as [results tick'].
  exists results, tick'. split; [reflexivity |].
  assert (Htallied : tallied results).
  { apply Hrun. unfold tallied. cbn. repeat split; constructor. }
  split; [exact Htallied |].
  destruct Htallied as (Ht & Hc & Hh & Hm & Hl & _ & _ & _ & Hvalid).
  cbn zeta in *. rewrite Ht, Hc, Hh, Hm, Hl.
  apply severities_partition, Hvalid.
Qed.

Lemma analyzeRepository_tallies_witness :
  exists results tick',
    analyzeRepository
      (Sample.host_parsing Sample.two_evals_one_line ["a.js"; "b.py"] "x")
      new_AnalysisEngine "repo" (mkOptions None None) 0 = Ok (results, tick')
    /\ tallied results
    /\ Summary.criticalIssues (Results.summary results)
       + Summary.highIssues (Results.summary results)
       + Summary.mediumIssues (Results.summary results)
       + Summary.lowIssues (Results.summary results)
       = Summary.totalIssues (Results.summary results).
Proof.
  apply (analyzeRepository_tallies
           (Sample.host_parsing Sample.two_evals_one_line ["a.js"; "b.py"] "x")
           new_AnalysisEngine "repo" (mkOptions None None) 0 ["a.js"; "b.py"]).
  reflexivity.
Defined.

(** ** The language resolver *)

(** X10: [getLanguageFromFile] looks only at the lower-cased extension of
    the path: it returns a language of the table one of whose extensions is
    that extension, and [null] exactly when no language of the table lists
    it; for the engine as constructed this is one of the seven languages,
    and [null] exactly outside the fourteen extensions of the table. *)
Theorem getLanguageFromFile_resolves (host : Host) (this : AnalysisEngine)
    (filePath : string) :
  (forall language,
      getLanguageFromFile host this filePath = Some language ->
      exists config,
        In (language, config) (supportedLanguages this)
        /\ In (toLowerCase host (path_extname host filePath))
              (Language.extensions config))
  /\ (getLanguageFromFile host this filePath = None <->
      forall language config,
        In (language, config) (supportedLanguages this) ->
        ~ In (toLowerCase host (path_extname host filePath))
             (Language.extensions config))
  /\ (forall language,
         getLanguageFromFile host new_AnalysisEngine filePath = Some language ->
         In language
            ["javascript"; "typescript"; "python"; "java"; "go"; "rust"; "cpp"])
  /\ (getLanguageFromFile host new_AnalysisEngine filePath = None <->
      ~ In (toLowerCase host (path_extname host filePath))
           [ ".js"; ".jsx"; ".mjs"; ".ts"; ".tsx"; ".py"; ".java"; ".go";
             ".rs"; ".cpp"; ".cc"; ".cxx"; ".hpp"; ".h" ]).
Proof.
  set (ext := toLowerCase host (path_extname host filePath)).
  assert (Hlists : forall exts,
             existsb (fun e => (e =? ext)%string) exts = true <-> In ext exts).
  { intros exts. rewrite existsb_exists. split.
    - intros (e & Hin & Heq). apply String.eqb_eq in Heq. congruence.
    - intros Hin. exists ext. split; [exact Hin | apply String.eqb_refl]. }
  assert (Hsome : forall engine language,
             getLanguageFromFile host engine filePath = Some language ->
             exists config,
               In (language, config) (supportedLanguages engine)
               /\ In ext (Language.extensions config)).
  { intros engine language. unfold getLanguageFromFile. fold ext.
    destruct (find _ (supportedLanguages engine)) as [[l config] |] eqn:Hfind;
      [| discriminate].
    intros Heq. injection Heq as <-.
    apply find_some in Hfind as [Hin Hext].
    exists config. split; [exact Hin | apply Hlists, Hext]. }
  assert (Hnone : forall engine,
             getLanguageFromFile host engine filePath = None <->
             forall language config,
               In (language, config) (supportedLanguages engine) ->
               ~ In ext (Language.extensions config)).
  { intros engine. unfold getLanguageFromFile. fold ext. split.
    - destruct (find _ (supportedLanguages engine)) eqn:Hfind; [discriminate |].
      intros _ language config Hin Hext.
      pose proof (find_none _ _ Hfind (language, config) Hin) as Hno.
      cbn in Hno. apply Hlists in Hext. congruence.
    - intros Hno.
      destruct (find _ (supportedLanguages engine)) as [[l config] |] eqn:Hfind;
        [| reflexivity].
      apply find_some in Hfind as [Hin Hext].
      exfalso. apply (Hno l config Hin). apply Hlists, Hext. }
  split; [apply Hsome |]. split; [apply Hnone |]. split.
  - intros language Hlang.
    destruct (Hsome new_AnalysisEngine language Hlang) as (config & Hin & _).
    cbn in Hin.
    repeat (destruct Hin as [Hin | Hin];
            [injection Hin as <- _; enum_member |]).
    contradiction.
  - unfold getLanguageFromFile. fold ext.
    cbn [find supportedLanguages new_AnalysisEngine existsb
         Language.extensions snd fst option_map].
    repeat match goal with
           | |- context [(?lit =? ext)%string] =>
               destruct (String.eqb_spec lit ext) as [Heq | ?];
               cbn [orb option_map fst];
               [split; [discriminate |];
                intros Hno; exfalso; apply Hno; rewrite <- Heq; enum_member |]
           end.
    split; [| reflexivity].
    intros _ Hin. cbn in Hin.
    repeat match goal with
           | H : _ \/ _ |- _ => destruct H as [H | H]
           end; congruence.
Qed.

(** ** The directory scan *)

Lemma Dirent_nested_ind (P : Dirent -> Prop)
    (Hfile : forall name, P (FileDirent name))
    (Hother : forall name, P (OtherDirent name))
    (Hclosed : forall name e, P (DirectoryDirent name (Throw e)))
    (Hopen : forall name entries,
        Forall P entries -> P (DirectoryDirent name (Ok entries)))
    : forall entry, P entry.
Proof.
  exact (fix go (entry : Dirent) : P entry :=
           match entry with
           | FileDirent name => Hfile name
           | OtherDirent name => Hother name
           | DirectoryDirent name (Throw e) => Hclosed name e
           | DirectoryDirent name (Ok entries) =>
               Hopen name entries
                 ((fix all (l : list Dirent) : Forall P l :=
                     match l with
                     | [] => Forall_nil P
                     | x :: l' => Forall_cons x (go x) (all l')
                     end) entries)
           end).
Qed.

Section ScanFacts.
Variable paths : Paths.
Variable repositoryPath : string.
Variable options : Options.

Let scan := scan_entry paths repositoryPath options.
Let finds := entry_finds paths repositoryPath options.

Lemma found_below_entries (dirPath : string) (entries : list Dirent)
    (file : string) :
  found_below paths repositoryPath options dirPath (Ok entries) file <->
  exists entry, In entry entries /\ finds dirPath entry file.
Proof.
  unfold finds, entry_finds. split.
  - intros Hfound. inversion Hfound as [es name Hin Hpass | es name listing f Hin Hpass Hsub];
      subst.
    + exists (FileDirent name). split; [exact Hin |]. split; [exact Hpass |].
      reflexivity.
    + exists (DirectoryDirent name listing). split; [exact Hin |].
      split; [exact Hpass | exact Hsub].
  - intros (entry & Hin & Hpass & Hentry). destruct entry; cbn in *.
    + subst. apply found_here; assumption.
    + eapply found_deeper; eassumption.
    + contradiction.
Qed.

Lemma scan_entries (dirPath : string) (entries : list Dirent) :
  Forall (fun entry =>
            forall dir files file,
              In file (scan dir entry files) <->
              In file files \/ finds dir entry file) entries ->
  forall files file,
    In file (fold_left (fun files e => scan dirPath e files) entries files) <->
    In file files \/ exists entry, In entry entries /\ finds dirPath entry file.
Proof.
  induction 1 as [| entry entries Hentry _ IH]; intros files file;
    cbn [fold_left].
  - split; [intros H; left; exact H |].
    intros [H | (entry & [] & _)]. exact H.
  - rewrite IH, Hentry. split.
    + intros [[H | H] | (e & Hin & He)].
      * left; exact H.
      * right. exists entry. split; [left; reflexivity | exact H].
      * right. exists e. split; [right; exact Hin | exact He].
    + intros [H | (e & [<- | Hin] & He)].
      * left; left; exact H.
      * left; right; exact He.
      * right. exists e. split; assumption.
Qed.

Lemma scan_entry_finds (entry : Dirent) :
  forall dir files file,
    In file (scan dir entry files) <-> In file files \/ finds dir entry file.
Proof.
  induction entry as [name | name | name e | name entries IH]
    using Dirent_nested_ind; intros dir files file;
    unfold scan, finds, entry_finds; cbn [scan_entry dirent_name];
    destruct (passed_over options _) eqn:Hpass;
    try (split; [intros H; left; exact H | intros [H | [Hno _]];
                 [exact H | discriminate]]).
  - rewrite in_app_iff. cbn [In]. split.
    + intros [H | [<- | []]]; [left; exact H | right; split; reflexivity].
    + intros [H | [_ ->]]; [left; exact H | right; left; reflexivity].
  - split; [intros H; left; exact H | intros [H | [_ []]]; exact H].
  - split; [intros H; left; exact H |].
    intros [H | [_ Hfound]]; [exact H | inversion Hfound].
  - fold scan. rewrite (scan_entries _ entries IH), found_below_entries.
    split.
    + intros [H | H]; [left; exact H | right; split; [reflexivity | exact H]].
    + intros [H | [_ H]]; [left; exact H | right; exact H].
Qed.

Lemma scanDirectory_finds (dirPath : string) (listing : result (list Dirent))
    (files : list string) (file : string) :
  In file (scanDirectory paths repositoryPath options dirPath listing files) <->
  In file files
  \/ found_below paths repositoryPath options dirPath listing file.
Proof.
  destruct listing as [entries | e]; cbn [scanDirectory].
  - rewrite found_below_entries.
    apply scan_entries. apply Forall_forall. intros entry _.
    apply scan_entry_finds.
  - split; [intros H; left; exact H |].
    intros [H | Hfound]; [exact H | inversion Hfound].
Qed.

Lemma found_below_passes (dirPath : string) (listing : result (list Dirent))
    (file : string) :
  found_below paths repositoryPath options dirPath listing file ->
  passed_over options (path_relative paths repositoryPath file) = false.
Proof.
  induction 1 as [dir entries name Hin Hpass | dir entries name listing f _ _ _ IH];
    assumption.
Qed.
End ScanFacts.

(** X11: [getSourceFiles] returns exactly the files listed in the
    repository directory or below its subdirectories such that no entry on
    the way, the file included, is passed over by the path filters; a
    directory that cannot be listed contributes nothing and stops nothing;
    entries that are neither files nor directories are never returned. *)
Theorem getSourceFiles_finds (paths : Paths) (repositoryPath : string)
    (options : Options) (root : result (list Dirent)) (file : string) :
  In file (getSourceFiles_scan paths repositoryPath options root) <->
  found_below paths repositoryPath options repositoryPath root file.
Proof.
  unfold getSourceFiles_scan. rewrite scanDirectory_finds.
  split; [intros [[] | H]; exact H | intros H; right; exact H].
Qed.

(** X12: the relative path of a file [getSourceFiles] returns contains none
    of the exclude patterns as a substring, which without
    [options.excludePaths] are [node_modules], [.git], [dist] and [build];
    and when include patterns are given it contains one of them. *)
Theorem getSourceFiles_respects_filters (paths : Paths) (repositoryPath : string)
    (options : Options) (root : result (list Dirent)) (file : string) :
  In file (getSourceFiles_scan paths repositoryPath options root) ->
  let relativePath := path_relative paths repositoryPath file in
  (forall pattern, In pattern (excludePaths_of options) ->
                   includes relativePath pattern = false)
  /\ (excludePaths options = None ->
      includes relativePath "node_modules" = false
      /\ includes relativePath ".git" = false
      /\ includes relativePath "dist" = false
      /\ includes relativePath "build" = false)
  /\ (includePaths_of options <> [] ->
      exists pattern, In pattern (includePaths_of options)
                      /\ includes relativePath pattern = true).
Proof.
  intros Hin relativePath.
  unfold getSourceFiles_scan in Hin. apply scanDirectory_finds in Hin.
  destruct Hin as [[] | Hfound].
  apply found_below_passes in Hfound. fold relativePath in Hfound.
  unfold passed_over in Hfound. apply orb_false_iff in Hfound as [Hex Hinc].
  assert (Hexcl : forall pattern, In pattern (excludePaths_of options) ->
                                  includes relativePath pattern = false).
  { intros pattern Hp.
    destruct (includes relativePath pattern) eqn:Hi; [| reflexivity].
    assert (Hsome : existsb (includes relativePath) (excludePaths_of options)
                    = true)
      by (apply existsb_exists; exists pattern; split; assumption).
    congruence. }
  split; [exact Hexcl |]. split.
  - intros Hnone. unfold excludePaths_of in Hexcl. rewrite Hnone in Hexcl.
    repeat split; apply Hexcl; enum_member.
  - intros Hsome.
    destruct (includePaths_of options) as [| p ps] eqn:Hpatterns;
      [contradiction |].
    cbn [List.length] in Hinc.
    replace (0 <? Z.of_nat (S (List.length ps))) with true in Hinc
      by (symmetry; apply Z.ltb_lt; lia).
    cbn [andb] in Hinc. apply negb_false_iff in Hinc.
    apply existsb_exists in Hinc as (pattern & Hp & Hi).
    exists pattern. split; assumption.
Qed.

Lemma getSourceFiles_respects_filters_witness :
  getSourceFiles_scan sample_paths "repo" (mkOptions None None) sample_root
  = ["repo/src/a.js"; "repo/README.md"]
  /\ includes "src/a.js" "build" = false
  /\ includes "src/rebuild.js" "build" = true.
Proof.
  split; [reflexivity |].
  destruct (getSourceFiles_respects_filters
              sample_paths "repo" (mkOptions None None) sample_root
              "repo/src/a.js") as (_ & Hdefault & _).
  - vm_compute. tauto.
  - destruct (Hdefault eq_refl) as (_ & _ & _ & Hbuild).
    split; [exact Hbuild | reflexivity].
Defined.

(** ** The issue counters of an analysis record *)

Lemma addIssue_counted (r : AnalysisResults) (issue : Issue.t) :
  In (Issue.severity issue) severity_enum ->
  counted r -> counted (addIssue r issue).
Proof.
  unfold counted, addIssue, bump_severity. cbn zeta.
  intros Hsev (Ht & Hc & Hh & Hm & Hl).
  cbn [doc_summary doc_issues]. rewrite !count_severity_app, length_app.
  unfold count_severity at 2 4 6 8. unfold has_severity. cbn [filter].
  cbn in Hsev.
  destruct Hsev as [<- | [<- | [<- | [<- | []]]]];
    cbn [String.eqb Ascii.eqb Bool.eqb List.length
         DocSummary.totalIssues DocSummary.criticalIssues
         DocSummary.highIssues DocSummary.mediumIssues DocSummary.lowIssues];
    repeat split; lia.
Qed.

Lemma severity_counters_partition (found : list Issue.t) :
  Forall (fun issue => In (Issue.severity issue) severity_enum) found ->
  count_severity "critical" found + count_severity "high" found
  + count_severity "medium" found + count_severity "low" found
  = Z.of_nat (List.length found).
Proof.
  unfold count_severity, has_severity.
  induction 1 as [| issue found Hsev _ IH]; [reflexivity |].
  cbn [filter List.length]. cbn in Hsev.
  destruct Hsev as [<- | [<- | [<- | [<- | []]]]];
    cbn [String.eqb Ascii.eqb Bool.eqb List.length]; lia.
Qed.

Lemma addIssues_counted (found : list Issue.t) :
  Forall (fun issue => In (Issue.severity issue) severity_enum) found ->
  forall r,
    counted r ->
    counted (fold_left addIssue found r)
    /\ doc_issues (fold_left addIssue found r) = (doc_issues r ++ found)%list.
Proof.
  induction 1 as [| issue found Hissue _ IH]; intros r Hr; cbn [fold_left].
  - rewrite app_nil_r. split; [exact Hr | reflexivity].
  - destruct (IH (addIssue r issue) (addIssue_counted r issue Hissue Hr))
      as [Hc ->].
    split; [exact Hc |]. cbn [addIssue doc_issues].
    rewrite <- app_assoc. reflexivity.
Qed.

(** X13: adding issues with [addIssue] appends them in order and keeps the
    counters of the record in step with its issue list, as long as the
    severities are among low, medium, high and critical: the total is the
    number of issues and splits exactly into the four severity counters. An
    issue of any other severity but [total] raises the total alone; one of
    severity [total] raises it by two. *)
Theorem addIssue_keeps_counters (r : AnalysisResults) (found : list Issue.t) :
  Forall (fun issue => In (Issue.severity issue) severity_enum) (doc_issues r) ->
  Forall (fun issue => In (Issue.severity issue) severity_enum) found ->
  counted r ->
  counted (fold_left addIssue found r)
  /\ doc_issues (fold_left addIssue found r) = (doc_issues r ++ found)%list
  /\ DocSummary.criticalIssues (doc_summary (fold_left addIssue found r))
     + DocSummary.highIssues (doc_summary (fold_left addIssue found r))
     + DocSummary.mediumIssues (doc_summary (fold_left addIssue found r))
     + DocSummary.lowIssues (doc_summary (fold_left addIssue found r))
     = DocSummary.totalIssues (doc_summary (fold_left addIssue found r))
  /\ (forall issue,
         ~ In (Issue.severity issue) ("total" :: severity_enum) ->
         doc_summary (addIssue r issue) =
         DocSummary.mk (DocSummary.totalIssues (doc_summary r) + 1)
           (DocSummary.criticalIssues (doc_summary r))
           (DocSummary.highIssues (doc_summary r))
           (DocSummary.mediumIssues (doc_summary r))
           (DocSummary.lowIssues (doc_summary r))
           (DocSummary.filesAnalyzed (doc_summary r))
           (DocSummary.linesAnalyzed (doc_summary r)))
  /\ (forall issue,
         Issue.severity issue = "total" ->
         DocSummary.totalIssues (doc_summary (addIssue r issue)) =
         DocSummary.totalIssues (doc_summary r) + 2).
Proof.
  intros Hold Hfound Hcounted.
  destruct (addIssues_counted found Hfound r Hcounted) as [Hc Hissues].
  split; [exact Hc |]. split; [exact Hissues |]. split; [| split].
  - destruct Hc as (Ht & Hcr & Hh & Hm & Hl). cbn zeta in *.
    rewrite Ht, Hcr, Hh, Hm, Hl, Hissues.
    apply severity_counters_partition. apply Forall_app. split; assumption.
  - intros issue Hsev. unfold addIssue, bump_severity. cbn [doc_summary].
    cbn [In severity_enum] in Hsev.
    repeat match goal with
           | |- context [(Issue.severity issue =? ?lit)%string] =>
               destruct (String.eqb_spec (Issue.severity issue) lit) as [Heq | ?];
               [exfalso; apply Hsev; rewrite Heq; enum_member |]
           end.
    reflexivity.
  - intros issue Hsev. unfold addIssue, bump_severity. rewrite Hsev.
    cbn. lia.
Qed.

Lemma addIssue_keeps_counters_witness :
  counted (fold_left addIssue
             [ eval_issue "a.js" (VNum 1) (VNum 0);
               unreachable_issue "a.js" (VNum 2) (VNum 3) (VNum 2) ]
             fresh_results).
Proof.
  apply (addIssue_keeps_counters fresh_results
           [ eval_issue "a.js" (VNum 1) (VNum 0);
             unreachable_issue "a.js" (VNum 2) (VNum 3) (VNum 2) ]).
  - apply Forall_nil.
  - apply Forall_cons; [enum_member |].
    apply Forall_cons; [enum_member | apply Forall_nil].
  - unfold counted. cbn. repeat split.
Defined.

(** X15: the issues of a file analysis, added to an analysis record one by
    one as the background analysis does, keep its counters in step: after
    any call of [analyzeFile] the total of the record is the number of its
    issues and the sum of its four severity counters. *)
Theorem analyzeFile_issues_keep_record_counted (host : Host)
    (this : AnalysisEngine) (filePath content language : string) (tick : nat)
    (r : AnalysisResults) :
  counted r ->
  Forall (fun issue => In (Issue.severity issue) severity_enum) (doc_issues r) ->
  exists analysis tick',
    analyzeFile host this filePath content language tick = (Ok analysis, tick')
    /\ counted (fold_left addIssue (found_issues analysis) r)
    /\ Forall (fun issue => In (Issue.severity issue) severity_enum)
              (doc_issues (fold_left addIssue (found_issues analysis) r))
    /\ DocSummary.totalIssues
         (doc_summary (fold_left addIssue (found_issues analysis) r))
       = DocSummary.totalIssues (doc_summary r)
         + Z.of_nat (List.length (found_issues analysis))
    /\ DocSummary.criticalIssues
         (doc_summary (fold_left addIssue (found_issues analysis) r))
       + DocSummary.highIssues
           (doc_summary (fold_left addIssue (found_issues analysis) r))
       + DocSummary.mediumIssues
           (doc_summary (fold_left addIssue (found_issues analysis) r))
       + DocSummary.lowIssues
           (doc_summary (fold_left addIssue (found_issues analysis) r))
       = DocSummary.totalIssues
           (doc_summary (fold_left addIssue (found_issues analysis) r)).
Proof.
  intros Hcounted Hold.
  destruct (analyzeFile_valid host this filePath content language tick)
    as (analysis & tick' & Hrun & Hvalid).
  exists analysis, tick'. split; [exact Hrun |].
  assert (Hsev : Forall (fun issue => In (Issue.severity issue) severity_enum)
                        (found_issues analysis)).
  { eapply Forall_impl; [| exact Hvalid]. intros issue (Hs & _). exact Hs. }
  destruct (addIssues_counted (found_issues analysis) Hsev r Hcounted)
    as [Hc Hissues].
  assert (Hall : Forall (fun issue => In (Issue.severity issue) severity_enum)
                        (doc_issues (fold_left addIssue (found_issues analysis) r)))
    by (rewrite Hissues; apply Forall_app; split; assumption).
  split; [exact Hc |]. split; [exact Hall |].
  pose proof Hc as (Ht & Hcr & Hh & Hm & Hl). cbn zeta in *.
  destruct Hcounted as (Ht0 & _).
  split.
  - rewrite Ht, Ht0, Hissues, length_app. lia.
  - rewrite Ht, Hcr, Hh, Hm, Hl.
    apply severity_counters_partition, Hall.
Qed.

Lemma analyzeFile_issues_keep_record_counted_witness :
  exists analysis tick',
    analyzeFile (Sample.host_parsing Sample.two_evals_one_line [] "")
                new_AnalysisEngine "a.js" "x" "javascript" 0
    = (Ok analysis, tick')
    /\ counted (fold_left addIssue (found_issues analysis) fresh_results).
Proof.
  destruct (analyzeFile_issues_keep_record_counted
              (Sample.host_parsing Sample.two_evals_one_line [] "")
              new_AnalysisEngine "a.js" "x" "javascript" 0 fresh_results)
    as (analysis & tick' & Hrun & Hc & _).
  - unfold counted. cbn. repeat split.
  - apply Forall_nil.
  - exists analysis, tick'. split; assumption.
Defined.

(** ** Parents come first *)

Lemma flat_map_segment {A B : Type} (f : A -> list B) (xs : list A)
    (l1 : list B) (r : B) (l2 : list B) :
  flat_map f xs = (l1 ++ r :: l2)%list ->
  exists x a b pre,
    In x xs /\ f x = (a ++ r :: b)%list /\ l1 = (pre ++ a)%list.
Proof.
  revert l1. induction xs as [| x xs IH]; intros l1 Heq; cbn [flat_map] in Heq.
  - destruct l1; discriminate.
  - apply app_eq_app in Heq as [l [[Hx Hrest] | [Hl1 Hrest]]].
    + destruct l as [| y l].
      * cbn in Hrest. rewrite app_nil_r in Hx.
        destruct (IH [] (eq_sym Hrest)) as (x' & a & b & pre & Hin & Hf & Hnil).
        symmetry in Hnil. apply app_eq_nil in Hnil as [-> ->].
        exists x', [], b, l1. rewrite app_nil_r.
        repeat split; [right; exact Hin | exact Hf].
      * injection Hrest as -> _.
        exists x, l1, l, []. repeat split; [left; reflexivity | exact Hx].
    + destruct (IH l Hrest) as (x' & a & b & pre & Hin & Hf & ->).
      exists x', a, b, (f x ++ pre)%list.
      rewrite Hl1, app_assoc. repeat split; [right; exact Hin | exact Hf].
Qed.

Lemma flat_mapi_segment {A B : Type} (f : nat -> A -> list B) (xs : list A)
    (r : B) (l2 : list B) :
  forall i l1,
    flat_mapi f i xs = (l1 ++ r :: l2)%list ->
    exists j x a b pre,
      In x xs /\ f j x = (a ++ r :: b)%list /\ l1 = (pre ++ a)%list.
Proof.
  induction xs as [| x xs IH]; intros i l1 Heq; cbn [flat_mapi] in Heq.
  - destruct l1; discriminate.
  - apply app_eq_app in Heq as [l [[Hx Hrest] | [Hl1 Hrest]]].
    + destruct l as [| y l].
      * cbn in Hrest. rewrite app_nil_r in Hx.
        destruct (IH (S i) [] (eq_sym Hrest))
          as (j & x' & a & b & pre & Hin & Hf & Hnil).
        symmetry in Hnil. apply app_eq_nil in Hnil as [-> ->].
        exists j, x', [], b, l1. rewrite app_nil_r.
        repeat split; [right; exact Hin | exact Hf].
      * injection Hrest as -> _.
        exists i, x, l1, l, []. repeat split; [left; reflexivity | exact Hx].
    + destruct (IH (S i) l Hrest) as (j & x' & a & b & pre & Hin & Hf & ->).
      exists j, x', a, b, (f i x ++ pre)%list.
      rewrite Hl1, app_assoc. repeat split; [right; exact Hin | exact Hf].
Qed.

Lemma property_visits_parent (n : value) (key : string) (v : value)
    (a : list Visit) (r : Visit) (b : list Visit) :
  (forall c, held_by c v -> parent_first c) ->
  parent_first v ->
  property_visits visits n key v = (a ++ r :: b)%list ->
  parent r = Some n
  \/ exists q, parent r = Some q /\ In q (map node a).
Proof.
  intros Hbelow Hv Heq. unfold property_visits in Heq.
  destruct (key =? "parent")%string; [destruct a; discriminate |].
  destruct v; try (destruct a; discriminate).
  - apply flat_mapi_segment in Heq
      as (j & c & a' & b' & pre & Hin & Hc & ->).
    destruct (is_object c); [| destruct a'; discriminate].
    destruct (Hbelow c Hin _ _ _ _ _ Hc) as [[-> ->] | (q & Hq & Hin')].
    + left. reflexivity.
    + right. exists q. split; [exact Hq |].
      rewrite map_app. apply in_or_app. right; exact Hin'.
  - destruct (truthy (prop (VObj props) "type")); [| destruct a; discriminate].
    destruct (Hv _ _ _ _ _ Heq) as [[-> ->] | (q & Hq & Hin')].
    + left. reflexivity.
    + right. exists q. split; assumption.
Qed.

Lemma visits_parent_first (n : value) : parent_first n.
Proof.
  induction n as [n IH1 IH2] using value_walk_ind.
  intros p h l1 r l2 Heq.
  assert (Hrest : forall rest,
             visits n p h = mkVisit n p h :: rest ->
             (exists key v a b pre,
                 held_by v n
                 /\ property_visits visits n key v = (a ++ r :: b)%list
                 /\ l1 = (mkVisit n p h :: pre ++ a)%list)
             \/ (l1 = [] /\ r = mkVisit n p h) ->
             (l1 = [] /\ r = mkVisit n p h)
             \/ exists q, parent r = Some q /\ In q (map node l1)).
  { intros rest _ [(key & v & a & b & pre & Hheld & Hprop & ->) | Hroot];
      [| left; exact Hroot].
    right.
    destruct (property_visits_parent n key v a r b
                (fun c Hc => IH2 v c Hheld Hc) (IH1 v Hheld) Hprop)
      as [Hq | (q & Hq & Hin)].
    - exists n. split; [exact Hq | left; reflexivity].
    - exists q. split; [exact Hq |]. cbn [map]. right.
      rewrite map_app. apply in_or_app. right; exact Hin. }
  destruct n; try (destruct l1; discriminate).
  - cbn [visits] in Heq. apply (Hrest _ eq_refl).
    destruct l1 as [| x l1].
    + right. injection Heq as <- _. split; reflexivity.
    + left. injection Heq as <- Heq.
      apply flat_mapi_segment in Heq as (j & v & a & b & pre & Hin & Hf & ->).
      exists (index_key j), v, a, b, pre. repeat split; assumption.
  - cbn [visits] in Heq. apply (Hrest _ eq_refl).
    destruct l1 as [| x l1].
    + right. injection Heq as <- _. split; reflexivity.
    + left. injection Heq as <- Heq.
      apply flat_map_segment in Heq as ([key v] & a & b & pre & Hin & Hf & ->).
      exists key, v, a, b, pre. repeat split; [exists key; exact Hin | exact Hf].
Qed.

(** X14: the walker works top-down: the root is the first node the callback
    sees, with [parent] null, and every other node is seen after the node
    its [parent] back-reference points to, which lies in the tree. *)
Theorem traverseAST_parents_first (ast : value) :
  (is_object ast = true -> exists rest, walk ast = mkVisit ast None None :: rest)
  /\ (forall l1 r l2,
         walk ast = (l1 ++ r :: l2)%list ->
         (l1 = [] /\ r = mkVisit ast None None)
         \/ exists q, parent r = Some q /\ In q (map node l1))
  /\ (forall St (callback : Visit -> St -> result St) (s : St),
         traverseAST callback ast None None s =
         run_callbacks callback (walk ast) s).
Proof.
  split; [| split].
  - destruct ast; try discriminate; intros _; eexists; reflexivity.
  - apply visits_parent_first.
  - intros St callback s. apply traverseAST_visits.
Qed.

(** ** Webhook payloads *)

Lemma verifyWebhookSignature_true (crypto : Crypto) (secret : option string)
    (payload signature : option string) :
  verifyWebhookSignature crypto secret payload signature = Ok true <->
  exists key text,
    secret = Some key /\ payload = Some text
    /\ signature = Some ("sha256=" ++ hmac_sha256_hex crypto key text).
Proof.
  unfold verifyWebhookSignature. split.
  - destruct secret as [key |]; [| discriminate].
    destruct payload as [text |]; [| discriminate].
    destruct signature as [given |]; [| discriminate].
    destruct (_ =? _)%nat; [| discriminate].
    intros H. injection H as H. apply String.eqb_eq in H. subst given.
    exists key, text. repeat split.
  - intros (key & text & -> & -> & ->).
    rewrite Nat.eqb_refl, String.eqb_refl. reflexivity.
Qed.

(** X16: [parseWebhookPayload] returns a payload only for a request whose
    signature header is exactly [sha256=] followed by the HMAC of the
    serialized body under the webhook secret.  A signature of the right
    length but different content is refused with [Invalid webhook
    signature]; one of another length makes the comparison itself throw;
    without a signature header the run ends in the error [Buffer.from]
    raises for [undefined], and without a secret in the one [createHmac]
    raises, before anything is compared. *)
Theorem parseWebhookPayload_authentic (crypto : Crypto)
    (webhookSecret : option string) (headers : list (string * string))
    (body : value) :
  (forall payload,
      parseWebhookPayload crypto webhookSecret headers body = Ok payload ->
      exists key,
        webhookSecret = Some key
        /\ body <> VUndefined
        /\ header "x-hub-signature-256" headers =
           Some ("sha256=" ++ hmac_sha256_hex crypto key
                                              (JSON_stringify crypto body)))
  /\ (forall key given,
         webhookSecret = Some key -> body <> VUndefined ->
         header "x-hub-signature-256" headers = Some given ->
         let expected :=
           "sha256=" ++ hmac_sha256_hex crypto key (JSON_stringify crypto body) in
         given <> expected ->
         parseWebhookPayload crypto webhookSecret headers body =
         Throw (if (String.length given =? String.length expected)%nat
                then mkError "Invalid webhook signature"
                else timing_safe_length))
  /\ (forall key,
         webhookSecret = Some key -> body <> VUndefined ->
         header "x-hub-signature-256" headers = None ->
         parseWebhookPayload crypto webhookSecret headers body =
         Throw (Buffer_from_undefined crypto))
  /\ (webhookSecret = None ->
      parseWebhookPayload crypto webhookSecret headers body =
      Throw (createHmac_undefined crypto)).
Proof.
  split; [| split; [| split]].
  - intros payload Hrun. unfold parseWebhookPayload in Hrun.
    destruct (verifyWebhookSignature crypto webhookSecret _ _)
      as [[|] | e] eqn:Hverify; cbn [bind negb] in Hrun; try discriminate.
    apply verifyWebhookSignature_true in Hverify
      as (key & text & -> & Htext & Hsig).
    exists key. split; [reflexivity |].
    destruct body; try discriminate; injection Htext as <-;
      (split; [discriminate | exact Hsig]).
  - intros key given -> Hbody Hsig expected Hne.
    unfold parseWebhookPayload, verifyWebhookSignature. rewrite Hsig.
    assert (Hpayload : match body with
                       | VUndefined => None
                       | _ => Some (JSON_stringify crypto body)
                       end = Some (JSON_stringify crypto body))
      by (destruct body; try reflexivity; contradiction).
    rewrite Hpayload. fold expected.
    destruct (_ =? _)%nat; [| reflexivity].
    apply String.eqb_neq in Hne. rewrite Hne. reflexivity.
  - intros key -> Hbody Hsig.
    unfold parseWebhookPayload, verifyWebhookSignature. rewrite Hsig.
    destruct body; try reflexivity; contradiction.
  - intros ->. reflexivity.
Qed.

Lemma parseWebhookPayload_authentic_witness :
  exists payload,
    parseWebhookPayload sample_crypto (Some "s3cret")
      [("x-github-event", "ping"); ("x-hub-signature-256", "sha256=00ff")]
      (VObj [("zen", VStr "Keep it simple")]) = Ok payload
    /\ header "x-hub-signature-256"
         [("x-github-event", "ping"); ("x-hub-signature-256", "sha256=00ff")]
       = Some ("sha256=" ++ hmac_sha256_hex sample_crypto "s3cret"
                 (JSON_stringify sample_crypto
                    (VObj [("zen", VStr "Keep it simple")]))).
Proof.
  eexists. split; [reflexivity |].
  destruct (parseWebhookPayload_authentic sample_crypto (Some "s3cret")
              [("x-github-event", "ping"); ("x-hub-signature-256", "sha256=00ff")]
              (VObj [("zen", VStr "Keep it simple")])) as (Hauth & _).
  destruct (Hauth _ eq_refl) as (key & Hkey & _ & Hsig).
  injection Hkey as <-. exact Hsig.
Defined.

Lemma map_result_length (f : value -> result value) (l mapped : list value) :
  map_result f l = Ok mapped -> List.length mapped = List.length l.
Proof.
  revert mapped. induction l as [| x l IH]; intros mapped H; cbn in H.
  - injection H as <-. reflexivity.
  - destruct (f x); cbn in H; [| discriminate].
    destruct (map_result f l) as [ys |]; cbn in H; [| discriminate].
    injection H as <-. cbn. rewrite (IH ys eq_refl). reflexivity.
Qed.

(** X17: a payload [parseWebhookPayload] returns starts with [event],
    [delivery], [action] and [repository], the latter [null] when the body
    has no repository; it has a [push] part exactly for the event [push],
    with one commit per commit of the body, a [pullRequest] part exactly
    for the event [pull_request], and nothing more. *)
Theorem parseWebhookPayload_shape (crypto : Crypto)
    (webhookSecret : option string) (headers : list (string * string))
    (body payload : value) :
  parseWebhookPayload crypto webhookSecret headers body = Ok payload ->
  exists base extra,
    payload = VObj (base ++ extra)%list
    /\ map fst base = ["event"; "delivery"; "action"; "repository"]
    /\ prop payload "event" = value_of (header "x-github-event" headers)
    /\ prop payload "action" = prop body "action"
    /\ (truthy (prop body "repository") = false ->
        prop payload "repository" = VNull)
    /\ (header "x-github-event" headers = Some "push" ->
        exists part commits mapped,
          extra = [("push", part)]
          /\ prop body "commits" = VArr commits
          /\ prop part "commits" = VArr mapped
          /\ List.length mapped = List.length commits)
    /\ (header "x-github-event" headers = Some "pull_request" ->
        exists part,
          extra = [("pullRequest", part)]
          /\ prop part "number" = prop (prop body "pull_request") "number")
    /\ (header "x-github-event" headers <> Some "push" ->
        header "x-github-event" headers <> Some "pull_request" ->
        extra = []).
Proof.
  intros Hrun. unfold parseWebhookPayload in Hrun.
  destruct (verifyWebhookSignature crypto webhookSecret _ _)
    as [[|] | e]; cbn [bind negb] in Hrun; try discriminate.
  destruct (get body "action") as [action |] eqn:Haction; cbn [bind] in Hrun;
    [| discriminate].
  assert (Hact : action = prop body "action").
  { unfold get in Haction.
    destruct body; try discriminate; injection Haction as <-; reflexivity. }
  match type of Hrun with
  | bind ?r _ = _ => destruct r as [repository |] eqn:Hrepo
  end; cbn [bind] in Hrun; [| discriminate].
  assert (Hnull : truthy (prop body "repository") = false -> repository = VNull).
  { intros Hfalsy. cbn zeta in Hrepo. rewrite Hfalsy in Hrepo. congruence. }
  set (base := [ ("event", value_of (header "x-github-event" headers));
                 ("delivery", value_of (header "x-github-delivery" headers));
                 ("action", action);
                 ("repository", repository) ]) in *.
  assert (Hbase : forall extra,
             prop (VObj (base ++ extra)) "event"
             = value_of (header "x-github-event" headers)
             /\ prop (VObj (base ++ extra)) "action" = prop body "action"
             /\ (truthy (prop body "repository") = false ->
                 prop (VObj (base ++ extra)) "repository" = VNull)).
  { intros extra. cbn. rewrite Hact. repeat split. exact Hnull. }
  unfold is_event in Hrun.
  destruct (header "x-github-event" headers) as [event |] eqn:Hevent.
  2: { injection Hrun as <-. exists base, []. rewrite app_nil_r.
       destruct (Hbase []) as (He & Ha & Hr). rewrite app_nil_r in *.
       repeat split; try assumption; discriminate. }
  destruct (String.eqb_spec event "push") as [-> | Hpush].
  { destruct (push_part body) as [part |] eqn:Hpart; cbn [bind] in Hrun;
      [| discriminate].
    injection Hrun as <-. exists base, [("push", part)].
    destruct (Hbase [("push", part)]) as (He & Ha & Hr).
    split; [reflexivity |]. split; [reflexivity |].
    split; [exact He |]. split; [exact Ha |]. split; [exact Hr |].
    split; [| split; [discriminate | intros Hno; contradiction]].
    intros _. unfold push_part in Hpart.
    destruct (map_commits (prop body "commits")) as [commits |] eqn:Hmap;
      cbn [bind] in Hpart; [| discriminate].
    injection Hpart as <-.
    unfold map_commits in Hmap.
    destruct (prop body "commits") as [| | | | | l |]; try discriminate.
    destruct (map_result _ l) as [mapped |] eqn:Hmapped; cbn [bind] in Hmap;
      [| discriminate].
    injection Hmap as <-.
    eexists; exists l, mapped. repeat split.
    apply (map_result_length _ _ _ Hmapped). }
  destruct (String.eqb_spec event "pull_request") as [-> | Hpr].
  { destruct (pull_request_part body) as [part |] eqn:Hpart; cbn [bind] in Hrun;
      [| discriminate].
    injection Hrun as <-. exists base, [("pullRequest", part)].
    destruct (Hbase [("pullRequest", part)]) as (He & Ha & Hr).
    split; [reflexivity |]. split; [reflexivity |].
    split; [exact He |]. split; [exact Ha |]. split; [exact Hr |].
    split; [discriminate | split; [| intros _ Hno; contradiction]].
    intros _. unfold pull_request_part in Hpart.
    destruct (get (prop body "pull_request") "number") as [number |] eqn:Hnum;
      cbn [bind] in Hpart; [| discriminate].
    destruct (get (prop (prop body "pull_request") "user") "login");
      cbn [bind] in Hpart; [| discriminate].
    destruct (get (prop (prop body "pull_request") "head") "ref");
      cbn [bind] in Hpart; [| discriminate].
    destruct (get (prop (prop body "pull_request") "base") "ref");
      cbn [bind] in Hpart; [| discriminate].
    injection Hpart as <-. eexists. split; [reflexivity |].
    unfold get in Hnum.
    destruct (prop body "pull_request"); try discriminate;
      injection Hnum as <-; reflexivity. }
  injection Hrun as <-. exists base, []. rewrite app_nil_r.
  destruct (Hbase []) as (He & Ha & Hr). rewrite app_nil_r in *.
  split; [reflexivity |]. split; [reflexivity |].
  split; [exact He |]. split; [exact Ha |]. split; [exact Hr |].
  split; [intros H; injection H as ->; contradiction |].
  split; [intros H; injection H as ->; contradiction |].
  reflexivity.
Qed.

Lemma parseWebhookPayload_shape_witness :
  exists payload base extra,
    parseWebhookPayload sample_crypto (Some "s3cret")
      [("x-github-event", "push"); ("x-hub-signature-256", "sha256=00ff")]
      (VObj [("ref", VStr "refs/heads/main");
             ("commits", VArr [VObj [("id", VStr "c0ffee")]])]) = Ok payload
    /\ payload = VObj (base ++ extra)%list
    /\ map fst base = ["event"; "delivery"; "action"; "repository"]
    /\ map fst extra = ["push"].
Proof.
  eexists.
  destruct (parseWebhookPayload_shape sample_crypto (Some "s3cret")
              [("x-github-event", "push"); ("x-hub-signature-256", "sha256=00ff")]
              (VObj [("ref", VStr "refs/heads/main");
                     ("commits", VArr [VObj [("id", VStr "c0ffee")]])])
              _ eq_refl)
    as (base & extra & Hpayload & Hkeys & _ & _ & _ & Hpush & _).
  destruct (Hpush eq_refl) as (part & _ & _ & -> & _).
  exists base, [("push", part)].
  split; [reflexivity |]. split; [exact Hpayload |]. split; [exact Hkeys |].
  reflexivity.
Defined.

(** ** Cancelling a background run *)

(** C6: a repository analysis that is asked to stop between two files
    does not stop.  On a repository of three script files, with a cancel
    request that the server handles while the background run waits for the
    content of the second file, the request is accepted, saved and answered
    [Analysis cancelled]; yet the run, which tests the status of the
    document instance it loaded when it started and never the stored one,
    still begins and analyzes the third file, counts three analyzed files
    and stores the status [completed] over the cancellation.
    [analyzeRepository] on the same files has no such test at all and
    reports all three as well. *)
Theorem startAnalysis_misses_cancellation :
  let host :=
    Sample.host_parsing Sample.twelve_ifs ["a.js"; "b.js"; "c.js"] "" in
  let w :=
    startAnalysis host sample_github cancel_during_second (fun _ => 0%nat)
                  "a1" sample_world in
  replies w = [mkResponse 200 "Analysis cancelled"]
  /\ (exists analysis,
         findById "a1" (database w) = Some analysis
         /\ AnalysisDoc.status (fields analysis) = "completed"
         /\ AnalysisDoc.files (fields analysis) = ["a.js"; "b.js"; "c.js"]
         /\ DocSummary.filesAnalyzed
              (doc_summary (AnalysisDoc.results (fields analysis))) = 3
         /\ map (fun issue => Location.path (Issue.file issue))
                (doc_issues (AnalysisDoc.results (fields analysis)))
            = ["a.js"; "b.js"; "c.js"])
  /\ (exists stored,
         findById "a1"
           (database (handle (Saves 0)
                             (handle (Arrives (mkCancelRequest "a1" "u1"))
                                     sample_world)))
         = Some stored
         /\ AnalysisDoc.status (fields stored) = "cancelled")
  /\ (exists results tick,
         analyzeRepository host new_AnalysisEngine "repo" (mkOptions None None) 0
         = Ok (results, tick)
         /\ Summary.analyzedFiles (Results.summary results) = 3
         /\ map FileEntry.path (Results.files results) = ["a.js"; "b.js"; "c.js"]).
Proof.
  cbv zeta.
  split; [vm_compute; reflexivity |].
  split; [eexists; split; [vm_compute; reflexivity |]; repeat split |].
  split; [eexists; split; [vm_compute; reflexivity |]; reflexivity |].
  eexists _, _. split; [vm_compute; reflexivity |]. split; reflexivity.
Qed.

Lemma findById_save_same (id : string) (a : Loaded) (db : Store) :
  findById id (save id a db) =
  match findById id db with
  | Some stored => Some (mkLoaded (written a (fields stored)) false false false)
  | None => None
  end.
Proof.
  induction db as [| [k d] db IH]; [reflexivity |].
  cbn [save findById].
  destruct (k =? id)%string eqn:Hk; cbn [findById]; rewrite Hk;
    [reflexivity | exact IH].
Qed.

Lemma findById_save_other (id id' : string) (a : Loaded) (db : Store) :
  (id' =? id)%string = false ->
  findById id (save id' a db) = findById id db.
Proof.
  intros Hne. induction db as [| [k d] db IH]; [reflexivity |].
  cbn [save findById].
  destruct (k =? id')%string eqn:Hk'; cbn [findById].
  - apply String.eqb_eq in Hk'. subst k. rewrite Hne. reflexivity.
  - destruct (k =? id)%string; [reflexivity | exact IH].
Qed.

Lemma findById_fresh (id : string) (db : Store) (a : Loaded) :
  findById id db = Some a -> a = mkLoaded (fields a) false false false.
Proof.
  induction db as [| [k d] db IH]; [discriminate |].
  cbn [findById]. destruct (k =? id)%string; [| exact IH].
  intros H. injection H as <-. reflexivity.
Qed.

Lemma same_but_status_refl (d : AnalysisDoc.t) : same_but_status d d.
Proof. repeat split. Qed.

Lemma same_but_status_sym (d d' : AnalysisDoc.t) :
  same_but_status d d' -> same_but_status d' d.
Proof. intros (? & ? & ? & ? & ?). repeat split; congruence. Qed.

Lemma same_but_status_trans (d d' d'' : AnalysisDoc.t) :
  same_but_status d d' -> same_but_status d' d'' -> same_but_status d d''.
Proof.
  intros (? & ? & ? & ? & ?) (? & ? & ? & ? & ?). repeat split; congruence.
Qed.



Lemma alike_sym (id : string) (w w' : World) : alike id w w' -> alike id w' w.
Proof.
  intros [Hc H]. split; [congruence |].
  destruct (findById id (database w)), (findById id (database w'));
    try contradiction; try exact I.
  apply same_but_status_sym, H.
Qed.

Lemma set_status_sets (s : string) (a : Loaded) :
  AnalysisDoc.status (fields (set_status s a)) = s
  /\ same_but_status (fields (set_status s a)) (fields a)
  /\ files_modified (set_status s a) = files_modified a
  /\ results_modified (set_status s a) = results_modified a
  /\ (AnalysisDoc.status (fields a) <> s -> status_modified (set_status s a) = true).
Proof.
  unfold set_status.
  destruct (String.eqb_spec (AnalysisDoc.status (fields a)) s) as [Heq | Hne];
    cbn; repeat split; try assumption; try reflexivity.
  intros Hne. contradiction.
Qed.

Lemma written_same (a : Loaded) (d : AnalysisDoc.t) :
  files_modified a = false -> results_modified a = false ->
  same_but_status (written a d) d.
Proof.
  intros Hf Hr. unfold written, same_but_status. rewrite Hf, Hr.
  cbn. repeat split.
Qed.

(** The status a save leaves: the one assigned to the instance, or the
    stored one. *)
Lemma written_status (a : Loaded) (d : AnalysisDoc.t) :
  AnalysisDoc.status (written a d) = AnalysisDoc.status (fields a)
  \/ AnalysisDoc.status (written a d) = AnalysisDoc.status d.
Proof.
  unfold written. cbn. destruct (status_modified a); [left | right]; reflexivity.
Qed.

(** What others do to the database: nothing, or the save of an instance
    whose status alone was assigned, to [cancelled]. *)
Lemma handle_database (e : Event) (w : World) :
  database (handle e w) = database w
  \/ exists id d,
      database (handle e w)
      = save id (set_status "cancelled" (mkLoaded d false false false))
             (database w).
Proof.
  destruct e as [req | n]; cbn [handle].
  - left. unfold cancel_checks.
    destruct (findById (params_id req) (database w)); [| reflexivity].
    destruct (_ && _); [reflexivity |].
    destruct (_ && _); reflexivity.
  - unfold cancel_saves.
    destruct (nth_error (cancelling w) n) as [[id d] |]; [| left; reflexivity].
    right. exists id, d. reflexivity.
Qed.


(** A document outlives what others do, up to its status, which stays or
    becomes [cancelled]. *)
Lemma handle_keeps (id : string) (e : Event) (w : World) (b : Loaded) :
  findById id (database w) = Some b ->
  exists c,
    findById id (database (handle e w)) = Some c
    /\ same_but_status (fields c) (fields b)
    /\ (AnalysisDoc.status (fields c) = AnalysisDoc.status (fields b)
        \/ AnalysisDoc.status (fields c) = "cancelled").
Proof.
  intros Hfound.
  destruct (handle_database e w) as [-> | (id' & d & ->)].
  { exists b. split; [exact Hfound |].
    split; [apply same_but_status_refl | left; reflexivity]. }
  destruct (String.eqb_spec id' id) as [-> | Hne].
  - rewrite findById_save_same, Hfound. eexists. split; [reflexivity |].
    cbn [fields].
    destruct (set_status_sets "cancelled" (mkLoaded d false false false))
      as (Hs & _ & Hf & Hr & _).
    split; [apply written_same; assumption |].
    destruct (written_status
                (set_status "cancelled" (mkLoaded d false false false))
                (fields b)) as [-> | ->];
      [right; exact Hs | left; reflexivity].
  - apply String.eqb_neq in Hne. rewrite (findById_save_other _ _ _ _ Hne).
    exists b. split; [exact Hfound |].
    split; [apply same_but_status_refl | left; reflexivity].
Qed.


Section BackgroundFacts.
Variable readings : Await -> nat.
Variable analysisId : string.

Lemma handled_keeps (events : list Event) :
  forall (w : World) (b : Loaded),
  findById analysisId (database w) = Some b ->
  exists c,
    findById analysisId
      (database (fold_left (fun w e => handle e w) events w)) = Some c
    /\ same_but_status (fields c) (fields b)
    /\ (AnalysisDoc.status (fields c) = AnalysisDoc.status (fields b)
        \/ AnalysisDoc.status (fields c) = "cancelled").
Proof.
  induction events as [| e events IH]; intros w b Hfound; cbn [fold_left].
  - exists b. split; [exact Hfound |].
    split; [apply same_but_status_refl | left; reflexivity].
  - destruct (handle_keeps analysisId e w b Hfound) as (c & Hc & Hsame & Hstatus).
    destruct (IH (handle e w) c Hc) as (c' & Hc' & Hsame' & Hstatus').
    exists c'. split; [exact Hc' |].
    split; [eapply same_but_status_trans; eassumption |].
    destruct Hstatus' as [-> | ->]; [exact Hstatus | right; reflexivity].
Qed.



(** Requests that arrive and are checked, but whose save does not
    complete, leave the database as it is. *)
Lemma handled_arrivals (events : list Event) :
  (forall n, ~ In (Saves n) events) ->
  forall w : World,
  database (fold_left (fun w e => handle e w) events w) = database w.
Proof.
  induction events as [| e events IH]; intros Hnone w; cbn [fold_left];
    [reflexivity |].
  rewrite IH by (intros n Hin; apply (Hnone n); right; exact Hin).
  destruct e as [req | n]; [| exfalso; apply (Hnone n); left; reflexivity].
  cbn [handle]. unfold cancel_checks.
  destruct (findById (params_id req) (database w)); [| reflexivity].
  destruct (_ && _); [reflexivity |].
  destruct (_ && _); reflexivity.
Qed.


Lemma await_keeps (others : Await -> list Event) (p : Await) (w : World)
    (b : Loaded) :
  findById analysisId (database w) = Some b ->
  exists c,
    findById analysisId (database (await others readings p w)) = Some c
    /\ same_but_status (fields c) (fields b)
    /\ (AnalysisDoc.status (fields c) = AnalysisDoc.status (fields b)
        \/ AnalysisDoc.status (fields c) = "cancelled").
Proof.
  intros Hfound. unfold await. cbn [database read_clock].
  apply handled_keeps, Hfound.
Qed.




Lemma save_stored (a : Loaded) (w : World) (c : Loaded) :
  findById analysisId (database w) = Some c ->
  findById analysisId (database (store (save analysisId a (database w)) w))
  = Some (mkLoaded (written a (fields c)) false false false).
Proof.
  intros Hfound. cbn [database store].
  rewrite findById_save_same, Hfound. reflexivity.
Qed.


End BackgroundFacts.

Section CancelFacts.
Variable host : Host.
Variable github : GitHub.
Variable others : Await -> list Event.
Variable readings : Await -> nat.
Variable analysisId : string.



(** One turn of the loop keeps the instance [running], its files and the
    agreement of the stored results with the saved ones, and counts the
    file if its content arrived. *)
Lemma analyze_file_counts (sourceFiles : list string) (k : nat) (path : string)
    (a : Loaded) (totalLines processedFiles : Z) (w : World) :
  (exists stored,
      findById analysisId (database w) = Some stored
      /\ AnalysisDoc.files (fields stored) = sourceFiles
      /\ (results_modified a = false ->
          AnalysisDoc.results (fields stored) = AnalysisDoc.results (fields a))) ->
  AnalysisDoc.files (fields a) = sourceFiles ->
  AnalysisDoc.status (fields a) = "running" ->
  (0 < processedFiles ->
   DocSummary.filesAnalyzed (doc_summary (AnalysisDoc.results (fields a)))
   = processedFiles) ->
  let next :=
    analyze_file host github others readings analysisId k path
                 (Job.mk a totalLines processedFiles w) in
  (exists stored,
      findById analysisId (database (Job.world next)) = Some stored
      /\ AnalysisDoc.files (fields stored) = sourceFiles
      /\ (results_modified (Job.analysis next) = false ->
          AnalysisDoc.results (fields stored)
          = AnalysisDoc.results (fields (Job.analysis next))))
  /\ AnalysisDoc.files (fields (Job.analysis next)) = sourceFiles
  /\ AnalysisDoc.status (fields (Job.analysis next)) = "running"
  /\ Job.processedFiles next
     = processedFiles + Z.of_nat (List.length (fetched github [path]))
  /\ (0 < Job.processedFiles next ->
      DocSummary.filesAnalyzed
        (doc_summary (AnalysisDoc.results (fields (Job.analysis next))))
      = Job.processedFiles next).
Proof.
  intros (stored & Hstored & Hfiles & Hresults) Hmine Hrunning Hcount.
  cbv zeta. unfold analyze_file, fetched. cbn [filter].
  cbn [Job.analysis Job.world Job.totalLines Job.processedFiles].
  destruct (await_keeps readings analysisId others (Fetching k) w stored Hstored)
    as (c & Hc & Hcs & _).
  set (v := await others readings (Fetching k) w) in *.
  assert (Hkept : AnalysisDoc.files (fields c) = sourceFiles
                  /\ AnalysisDoc.results (fields c)
                     = AnalysisDoc.results (fields stored)).
  { destruct Hcs as (_ & _ & _ & Hf & Hr). split; congruence. }
  destruct Hkept as [Hcf Hcr].
  destruct (getFileContent github path) as [content | e].
  2: { cbn [Job.analysis Job.world Job.totalLines Job.processedFiles List.length].
       split; [exists c; split; [exact Hc |]; split; [exact Hcf |];
               intros Hm; rewrite Hcr; exact (Hresults Hm) |].
       split; [exact Hmine |]. split; [exact Hrunning |].
       split; [cbn; lia | exact Hcount]. }
  destruct (analyzeFile_returns host analysisEngine path content
              (language_name (getLanguageFromFile host analysisEngine path))
              (clock v)) as (f & _ & ->).
  cbn [found_issues found_metrics List.length].
  destruct (_ mod 10 =? 0);
    cbn [Job.analysis Job.world Job.totalLines Job.processedFiles].
  - destruct (await_keeps readings analysisId others (Saving k)
                (store (save analysisId
                          (set_results
                             (set_progress (processedFiles + 1)
                                (totalLines + Metrics.lines (metrics f))
                                (fold_left addIssue (issues f)
                                   (AnalysisDoc.results (fields a)))) a)
                          (database (set_clock (ticks f) v)))
                       (set_clock (ticks f) v))
                _ (save_stored analysisId _ (set_clock (ticks f) v) c Hc))
      as (c' & Hc' & Hcs' & _).
    split.
    { exists c'. split; [exact Hc' |].
      destruct Hcs' as (_ & _ & _ & Hf' & Hr'). cbn in Hf', Hr'.
      split; [rewrite Hf'; destruct (files_modified a); assumption |].
      intros _. exact Hr'. }
    split; [exact Hmine |]. split; [exact Hrunning |].
    split; [cbn; lia |]. intros _. reflexivity.
  - split.
    { exists c. split; [exact Hc |]. split; [exact Hcf |]. discriminate. }
    split; [exact Hmine |]. split; [exact Hrunning |].
    split; [cbn; lia |]. intros _. reflexivity.
Qed.

Lemma analyze_files_counts (sourceFiles : list string) (rest : list string) :
  forall (k : nat) (a : Loaded) (totalLines processedFiles : Z) (w : World),
  (exists stored,
      findById analysisId (database w) = Some stored
      /\ AnalysisDoc.files (fields stored) = sourceFiles
      /\ (results_modified a = false ->
          AnalysisDoc.results (fields stored) = AnalysisDoc.results (fields a))) ->
  AnalysisDoc.files (fields a) = sourceFiles ->
  AnalysisDoc.status (fields a) = "running" ->
  (0 < processedFiles ->
   DocSummary.filesAnalyzed (doc_summary (AnalysisDoc.results (fields a)))
   = processedFiles) ->
  let last :=
    analyze_files host github others readings analysisId k rest
                  (Job.mk a totalLines processedFiles w) in
  (exists stored,
      findById analysisId (database (Job.world last)) = Some stored
      /\ AnalysisDoc.files (fields stored) = sourceFiles
      /\ (results_modified (Job.analysis last) = false ->
          AnalysisDoc.results (fields stored)
          = AnalysisDoc.results (fields (Job.analysis last))))
  /\ AnalysisDoc.files (fields (Job.analysis last)) = sourceFiles
  /\ AnalysisDoc.status (fields (Job.analysis last)) = "running"
  /\ Job.processedFiles last
     = processedFiles + Z.of_nat (List.length (fetched github rest))
  /\ (0 < Job.processedFiles last ->
      DocSummary.filesAnalyzed
        (doc_summary (AnalysisDoc.results (fields (Job.analysis last))))
      = Job.processedFiles last).
Proof.
  induction rest as [| path rest IH];
    intros k a totalLines processedFiles w Hstored Hmine Hrunning Hcount;
    cbv zeta; cbn [analyze_files].
  - cbn [Job.analysis Job.world Job.processedFiles fetched filter List.length].
    split; [exact Hstored |]. split; [exact Hmine |]. split; [exact Hrunning |].
    split; [lia | exact Hcount].
  - cbn [Job.analysis]. rewrite Hrunning. cbn [String.eqb Ascii.eqb Bool.eqb].
    destruct (analyze_file_counts sourceFiles k path a totalLines processedFiles
                w Hstored Hmine Hrunning Hcount)
      as (Hstored1 & Hmine1 & Hrunning1 & Hprocessed1 & Hcount1).
    destruct (analyze_file host github others readings analysisId k path _)
      as [a1 t1 p1 w1].
    cbn [Job.analysis Job.world Job.processedFiles] in *.
    destruct (IH (S k) a1 t1 p1 w1 Hstored1 Hmine1 Hrunning1 Hcount1)
      as (Hstored2 & Hmine2 & Hrunning2 & Hprocessed2 & Hcount2).
    split; [exact Hstored2 |]. split; [exact Hmine2 |].
    split; [exact Hrunning2 |]. split; [| exact Hcount2].
    rewrite Hprocessed2, Hprocessed1. unfold fetched. cbn [filter].
    destruct (getFileContent github path); cbn [List.length]; lia.
Qed.

(** A save that touches neither the files nor the results, and the wait
    for it. *)
Lemma save_await_keeps (a : Loaded) (p : Await) (w : World) (c : Loaded) :
  findById analysisId (database w) = Some c ->
  files_modified a = false -> results_modified a = false ->
  exists c',
    findById analysisId
      (database (await others readings p
                       (store (save analysisId a (database w)) w)))
    = Some c'
    /\ same_but_status (fields c') (fields c).
Proof.
  intros Hfound Hf Hr.
  destruct (await_keeps readings analysisId others p _ _
              (save_stored analysisId a w c Hfound)) as (c' & Hc' & Hsame & _).
  exists c'. split; [exact Hc' |].
  eapply same_but_status_trans; [exact Hsame |].
  cbn [fields]. apply written_same; assumption.
Qed.

(** X19: whatever the server does for cancel requests while a background
    run waits, a run that found its document and got the repository tree
    analyzes every source file whose content GitHub returns and leaves the
    source files as the scope; the status it leaves is [completed], unless
    the save of a cancel request completes after the last save of the run,
    which leaves [cancelled] on a run that did all its work. *)
Theorem startAnalysis_completes_despite_cancel_requests
    (w : World) (analysis : Loaded) (files : list string) :
  findById analysisId (database w) = Some analysis ->
  getRepositoryTree github = Ok files ->
  let sourceFiles := filter (source_file host analysis) files in
  let final := startAnalysis host github others readings analysisId w in
  exists stored,
    findById analysisId (database final) = Some stored
    /\ (AnalysisDoc.status (fields stored) = "completed"
        \/ AnalysisDoc.status (fields stored) = "cancelled")
    /\ ((forall n, ~ In (Saves n) (others Finishing)) ->
        AnalysisDoc.status (fields stored) = "completed")
    /\ AnalysisDoc.files (fields stored) = sourceFiles
    /\ (fetched github sourceFiles <> [] ->
        DocSummary.filesAnalyzed
          (doc_summary (AnalysisDoc.results (fields stored)))
        = Z.of_nat (List.length (fetched github sourceFiles))).
Proof.
  intros Hfound Htree. cbv zeta. unfold startAnalysis.
  rewrite Hfound, Htree.
  pose proof (findById_fresh _ _ _ Hfound) as Hfresh.
  assert (Hflags : files_modified analysis = false
                   /\ results_modified analysis = false)
    by (rewrite Hfresh; split; reflexivity).
  destruct Hflags as [Hff Hfr].
  destruct (set_status_sets "running" analysis) as (Hs1 & Hsame1 & Hf1 & Hr1 & _).
  rewrite Hff in Hf1. rewrite Hfr in Hr1.
  set (a1 := set_status "running" analysis) in *.
  assert (Hsource : forall path,
             source_file host (saved (saved a1)) path
             = source_file host analysis path).
  { intros path. unfold source_file. cbn [fields saved].
    destruct Hsame1 as (_ & _ & -> & _). reflexivity. }
  rewrite (filter_ext _ _ Hsource).
  set (sourceFiles := filter (source_file host analysis) files).
  destruct (await_keeps readings analysisId others Loading w analysis Hfound)
    as (c1 & Hc1 & Hcs1 & _).
  set (w1 := await others readings Loading w) in *.
  destruct (save_await_keeps a1 Starting w1 c1 Hc1 Hf1 Hr1)
    as (c2 & Hc2 & Hcs2).
  set (w2 := await others readings Starting _) in *.
  destruct (await_keeps readings analysisId others Listing w2 c2 Hc2)
    as (c3 & Hc3 & Hcs3 & _).
  set (w3 := await others readings Listing w2) in *.
  destruct (save_await_keeps (saved a1) Counting w3 c3 Hc3 eq_refl eq_refl)
    as (c4 & Hc4 & Hcs4).
  set (w4 := await others readings Counting _) in *.
  set (a4 := set_files sourceFiles (saved (saved a1))).
  destruct (await_keeps readings analysisId others Scoping _ _
              (save_stored analysisId a4 w4 c4 Hc4)) as (c5 & Hc5 & Hcs5 & _).
  set (w5 := await others readings Scoping _) in *.
  assert (Hresults5 : AnalysisDoc.results (fields c5)
                      = AnalysisDoc.results (fields a1)).
  { destruct Hcs5 as (_ & _ & _ & _ & ->). cbn.
    destruct Hcs4 as (_ & _ & _ & _ & ->).
    destruct Hcs3 as (_ & _ & _ & _ & ->).
    destruct Hcs2 as (_ & _ & _ & _ & ->).
    destruct Hcs1 as (_ & _ & _ & _ & ->).
    destruct Hsame1 as (_ & _ & _ & _ & ->). reflexivity. }
  assert (Hfiles5 : AnalysisDoc.files (fields c5) = sourceFiles).
  { destruct Hcs5 as (_ & _ & _ & -> & _). reflexivity. }
  destruct (analyze_files_counts sourceFiles sourceFiles 0 (saved a4) 0 0 w5)
    as (Hstored6 & Hmine6 & Hrunning6 & Hprocessed6 & Hcount6).
  { exists c5. split; [exact Hc5 |]. split; [exact Hfiles5 |].
    intros _. exact Hresults5. }
  { reflexivity. }
  { exact Hs1. }
  { lia. }
  destruct (analyze_files host github others readings analysisId 0 sourceFiles _)
    as [a6 t6 p6 w6].
  cbn [Job.analysis Job.world Job.processedFiles] in *.
  rewrite Hrunning6. cbn [String.eqb Ascii.eqb Bool.eqb negb].
  destruct Hstored6 as (c6 & Hc6 & Hfiles6 & Hresults6).
  destruct (set_status_sets "completed" a6) as (Hs7 & Hsame7 & Hf7 & Hr7 & Hm7).
  assert (Hmodified : status_modified (set_status "completed" a6) = true)
    by (apply Hm7; rewrite Hrunning6; discriminate).
  set (a7 := set_status "completed" a6) in *.
  destruct (await_keeps readings analysisId others Updating w6 c6 Hc6)
    as (c7 & Hc7 & Hcs7 & _).
  set (w7 := await others readings Updating w6) in *.
  pose proof (save_stored analysisId a7 w7 c7 Hc7) as Hsaved.
  assert (Hcompleted : AnalysisDoc.status (written a7 (fields c7)) = "completed")
    by (unfold written; cbn; rewrite Hmodified; exact Hs7).
  destruct (await_keeps readings analysisId others Finishing _ _ Hsaved)
    as (c8 & Hc8 & Hcs8 & Hstatus8).
  cbn [fields] in Hcs8, Hstatus8. rewrite Hcompleted in Hstatus8.
  exists c8. split; [exact Hc8 |]. split; [exact Hstatus8 |].
  split.
  { intros Hnone. unfold await in Hc8. cbn [database read_clock] in Hc8.
    rewrite (handled_arrivals (others Finishing) Hnone) in Hc8.
    rewrite Hsaved in Hc8. injection Hc8 as <-. exact Hcompleted. }
  destruct Hsame7 as (_ & _ & _ & Hfiles7 & Hresults7).
  destruct Hcs7 as (_ & _ & _ & Hfiles67 & Hresults67).
  destruct Hcs8 as (_ & _ & _ & Hfiles8 & Hresults8).
  split.
  { rewrite Hfiles8. unfold written. cbn.
    destruct (files_modified a7); congruence. }
  intros Hsome. rewrite Hresults8. unfold written. cbn.
  assert (Hpositive : 0 < p6).
  { rewrite Hprocessed6. destruct (fetched github sourceFiles);
      [contradiction | cbn [List.length]; lia]. }
  assert (Hsame_results : (if results_modified a7
                           then AnalysisDoc.results (fields a7)
                           else AnalysisDoc.results (fields c7))
                          = AnalysisDoc.results (fields a6)).
  { rewrite Hr7. destruct (results_modified a6) eqn:Hm6; [exact Hresults7 |].
    rewrite Hresults67. apply Hresults6. reflexivity. }
  rewrite Hsame_results, (Hcount6 Hpositive), Hprocessed6. lia.
Qed.

End CancelFacts.

Lemma startAnalysis_completes_despite_cancel_requests_witness :
  exists stored,
    findById "a1"
      (database
         (startAnalysis (Sample.host_parsing Sample.twelve_ifs [] "")
                        sample_github cancel_during_second (fun _ => 0%nat)
                        "a1" sample_world))
    = Some stored
    /\ AnalysisDoc.status (fields stored) = "completed"
    /\ AnalysisDoc.files (fields stored) = ["a.js"; "b.js"; "c.js"]
    /\ DocSummary.filesAnalyzed
         (doc_summary (AnalysisDoc.results (fields stored))) = 3.
Proof.
  destruct (startAnalysis_completes_despite_cancel_requests
              (Sample.host_parsing Sample.twelve_ifs [] "")
              sample_github cancel_during_second (fun _ => 0%nat) "a1"
              sample_world
              (mkLoaded (AnalysisDoc.mk "u1" "u1" "pending" [] [] fresh_results)
                        false false false)
              ["a.js"; "README.md"; "b.js"; "c.js"] eq_refl eq_refl)
    as (stored & Hstored & _ & Hstatus & Hfiles & Hcount).
  exists stored. split; [exact Hstored |].
  split; [apply Hstatus; intros n []|].
  split; [exact Hfiles |]. apply Hcount. discriminate.
Defined.
